(** * Template engine, code generator and import manager of the low-code editor

    A shallow embedding of the TypeScript classes [TemplateEngine],
    [CodeGenerator] and [DynamicImportManager] of
    [docs/06-代码生成与预览.md], together with the part of the JavaScript
    runtime they rely on (regular-expression search and replace, string
    methods, property lookup, [String(v)], [==] and truthiness).

    Conventions of the model.
    - A string is a sequence of code units; the model covers the code units
      below 256, one [ascii] each.
    - An exception is a value of [error]; a method that can throw returns a
      [result].
    - A context, and every object in it, is a plain object: a property it
      does not own is looked up in [Object.prototype].  The members found
      there are values of their own kind ([VNative]), of which the model
      knows the name, that they are truthy, and that reading [caller] or
      [arguments] of a built-in function throws.
    - The model is partial.  Where a computation leaves the part of the
      language that is described here (it needs the text of a built-in
      function, or a number that the decimal notation of the model does not
      name exactly), its result is [Err OutsideModel]: the model then says
      nothing about what the program does.  A result [Ok v], and an
      exception other than [OutsideModel], is what the program gives. *)

From Stdlib Require Import String Ascii ZArith QArith List Lia Permutation Sorted.
From stdpp Require Import gmap strings.

Local Open Scope string_scope.

(** ** Exceptions *)

Inductive error : Type :=
| TemplateNotFoundError (name : string)
    (* throw new Error(`Template not found: ${name}`) *)
| NoGeneratorRegisteredError
    (* the error kind the specification names for a generator without any
       configuration; no statement of the source throws it *)
| TypeError
    (* reading a property of undefined or null, reading [caller] or
       [arguments] of a built-in function, converting an object without a
       callable conversion method *)
| OutsideModel.
    (* no exception: the computation is outside the model *)

(** What the runtime raises or the model leaves open, as opposed to the
    errors that the classes throw themselves. *)
Definition from_runtime (e : error) : bool :=
  match e with
  | TypeError | OutsideModel => true
  | TemplateNotFoundError _ | NoGeneratorRegisteredError => false
  end.

Inductive result (A : Type) : Type :=
| Ok (a : A)
| Err (e : error).
Arguments Ok {A} a.
Arguments Err {A} e.

Definition result_bind {A B} (f : A -> result B) (m : result A) : result B :=
  match m with
  | Ok a => f a
  | Err e => Err e
  end.

#[global] Instance result_mbind : MBind result := @result_bind.
#[global] Instance result_mret : MRet result := @Ok.

(** ** Characters and strings *)

Module Str.

Definition code (c : ascii) : N := N_of_ascii c.

(** [\s]: WhiteSpace and LineTerminator code units below 256. *)
Definition is_space (c : ascii) : bool :=
  let n := code c in
  ((9 <=? n) && (n <=? 13) || (n =? 32) || (n =? 160))%N.

Definition is_digit (c : ascii) : bool :=
  let n := code c in ((48 <=? n) && (n <=? 57))%N.

(** [\w]: [A-Za-z0-9_]. *)
Definition is_word (c : ascii) : bool :=
  let n := code c in
  ((65 <=? n) && (n <=? 90) || (97 <=? n) && (n <=? 122)
   || (48 <=? n) && (n <=? 57) || (n =? 95))%N.

(** [[^}]] *)
Definition not_close (c : ascii) : bool := negb (Ascii.eqb c "}").

(** [[\s\S]] *)
Definition any (c : ascii) : bool := true.

Fixpoint all (p : ascii -> bool) (s : string) : bool :=
  match s with
  | "" => true
  | String c s' => p c && all p s'
  end.

Fixpoint drop_while (p : ascii -> bool) (s : string) : string :=
  match s with
  | "" => ""
  | String c s' => if p c then drop_while p s' else s
  end.

(** Removes the longest suffix whose characters all satisfy [p]. *)
Fixpoint drop_while_end (p : ascii -> bool) (s : string) : string :=
  match s with
  | "" => ""
  | String c s' => if all p s then "" else String c (drop_while_end p s')
  end.

(** [s.trim()] *)
Definition trim (s : string) : string :=
  drop_while_end is_space (drop_while is_space s).

Fixpoint take (n : nat) (s : string) : string :=
  match n, s with
  | S n', String c s' => String c (take n' s')
  | _, _ => ""
  end.

Fixpoint drop (n : nat) (s : string) : string :=
  match n, s with
  | S n', String _ s' => drop n' s'
  | _, _ => s
  end.

(** The string that consists of one double quote. *)
Definition double_quote : string := String (ascii_of_nat 34) "".

(** [s.startsWith(p)] *)
Fixpoint starts_with (p s : string) : bool :=
  match p, s with
  | "", _ => true
  | String a p', String b s' => Ascii.eqb a b && starts_with p' s'
  | String _ _, "" => false
  end.

(** [s.endsWith(p)] *)
Definition ends_with (p s : string) : bool :=
  String.eqb (drop (String.length s - String.length p) s) p
  && (String.length p <=? String.length s)%nat.

(** [s.includes(p)] *)
Fixpoint includes (p s : string) : bool :=
  starts_with p s ||
  match s with
  | "" => false
  | String _ s' => includes p s'
  end.

(** [s.slice(1, -1)] *)
Definition slice_1_m1 (s : string) : string :=
  take (String.length s - 2) (drop 1 s).

(** [s.split(sep)] for a one-character separator. *)
Fixpoint split_char (sep : ascii) (s : string) : list string :=
  match s with
  | "" => [""]
  | String c s' =>
      if Ascii.eqb c sep then "" :: split_char sep s'
      else match split_char sep s' with
           | [] => [String c ""]
           | w :: ws => String c w :: ws
           end
  end.

(** [s.split(sep)] for a non-empty separator: the occurrences are taken
    from left to right and do not overlap.  [skip] counts the characters
    of an occurrence that are still to be passed over. *)
Fixpoint split_str_from (sep : string) (skip : nat) (s : string) : list string :=
  match s with
  | "" => [""]
  | String c s' =>
      match skip with
      | S n => split_str_from sep n s'
      | O =>
          if starts_with sep s
          then "" :: split_str_from sep (String.length sep - 1) s'
          else match split_str_from sep 0 s' with
               | [] => [String c ""]
               | w :: ws => String c w :: ws
               end
      end
  end.

Definition split_str (sep s : string) : list string := split_str_from sep 0 s.

(** [s.split(/\s+/)]: every maximal run of white space is one separator.
    [in_run] tells that the previous character belonged to a run. *)
Fixpoint split_ws_from (in_run : bool) (s : string) : list string :=
  match s with
  | "" => [""]
  | String c s' =>
      if is_space c
      then if in_run then split_ws_from true s' else "" :: split_ws_from true s'
      else match split_ws_from false s' with
           | [] => [String c ""]
           | w :: ws => String c w :: ws
           end
  end.

Definition split_ws (s : string) : list string := split_ws_from false s.

(** [parts.join(sep)] *)
Fixpoint join (sep : string) (parts : list string) : string :=
  match parts with
  | [] => ""
  | [p] => p
  | p :: ps => p +:+ sep +:+ join sep ps
  end.

End Str.

(** ** Regular expressions

    The backtracking matcher of ECMAScript, for the constructs the source
    uses.  A quantifier ([*], [*?], [+], [+?]) is only ever applied to a
    character class there, and [?] to a group that cannot match the empty
    string. *)

Module Regex.

Inductive regex : Type :=
| Eps
| Chr (c : ascii)                            (* a literal character *)
| Cls (p : ascii -> bool)                    (* a character class *)
| Seq (r1 r2 : regex)
| Star (greedy : bool) (p : ascii -> bool)   (* [p*] when greedy, else [p*?] *)
| Opt (r : regex)                            (* [(?:r)?] *)
| Grp (i : nat) (r : regex)                  (* capturing group number [i] *)
| Eol.                                       (* [$] *)

Declare Scope regex_scope.
Delimit Scope regex_scope with re.
Bind Scope regex_scope with regex.
Infix "·" := Seq (at level 41, right associativity) : regex_scope.

(** [p+] and [p+?] *)
Definition Plus (greedy : bool) (p : ascii -> bool) : regex :=
  Seq (Cls p) (Star greedy p).

(** A literal string. *)
Fixpoint lit (s : string) : regex :=
  match s with
  | "" => Eps
  | String c s' => Seq (Chr c) (lit s')
  end.

(** Group number ↦ captured text; a group that did not take part in the
    match has no entry ([undefined]). *)
Definition captures : Type := list (nat * string).

Fixpoint cap (i : nat) (caps : captures) : option string :=
  match caps with
  | [] => None
  | (j, s) :: caps' => if Nat.eqb i j then Some s else cap i caps'
  end.

Definition set_cap (i : nat) (s : string) (caps : captures) : captures :=
  (i, s) :: caps.

(** The text between two positions of the input, each given by the input
    that remains after it. *)
Definition consumed (before after : string) : string :=
  Str.take (String.length before - String.length after) before.

Section Matcher.
Context {R : Type}.

(** What is left to match: called with the remaining input. *)
Definition cont : Type := string -> captures -> option R.

Fixpoint star_greedy (p : ascii -> bool) (s : string) (caps : captures)
    (k : cont) : option R :=
  match s with
  | String c s' =>
      if p c
      then match star_greedy p s' caps k with
           | Some r => Some r
           | None => k s caps
           end
      else k s caps
  | "" => k s caps
  end.

Fixpoint star_lazy (p : ascii -> bool) (s : string) (caps : captures)
    (k : cont) : option R :=
  match k s caps with
  | Some r => Some r
  | None =>
      match s with
      | String c s' => if p c then star_lazy p s' caps k else None
      | "" => None
      end
  end.

Fixpoint rmatch (r : regex) (s : string) (caps : captures) (k : cont)
    : option R :=
  match r with
  | Eps => k s caps
  | Chr c =>
      match s with
      | String c' s' => if Ascii.eqb c c' then k s' caps else None
      | "" => None
      end
  | Cls p =>
      match s with
      | String c' s' => if p c' then k s' caps else None
      | "" => None
      end
  | Seq r1 r2 => rmatch r1 s caps (fun s' caps' => rmatch r2 s' caps' k)
  | Star greedy p =>
      if greedy then star_greedy p s caps k else star_lazy p s caps k
  | Opt r' =>
      match rmatch r' s caps k with
      | Some x => Some x
      | None => k s caps
      end
  | Grp i r' =>
      rmatch r' s caps (fun s' caps' => k s' (set_cap i (consumed s s') caps'))
  | Eol =>
      match s with
      | "" => k s caps
      | String _ _ => None
      end
  end.
End Matcher.

(** A match that starts at the beginning of [s]: the groups and the input
    that remains after the match. *)
Definition exec (re : regex) (s : string) : option (captures * string) :=
  rmatch re s [] (fun rest caps => Some (caps, rest)).

(** [re.test(s)] for a pattern that starts with [^]: the search is
    confined to the beginning of [s]. *)
Definition test_anchored (re : regex) (s : string) : bool :=
  match exec re s with
  | Some _ => true
  | None => false
  end.

(** [s.replace(re, cb)] for a global [re]: the matches are searched from
    left to right, each search starting where the previous match ended
    (one character further after an empty match); the text between the
    matches is kept.  [cb] receives the matched text and the groups.
    [skip] counts the characters of the last match that are still to be
    passed over. *)
Fixpoint replace_from (re : regex) (cb : string -> captures -> result string)
    (skip : nat) (s : string) {struct s} : result string :=
  match skip with
  | S n =>
      match s with
      | "" => Ok ""
      | String _ s' => replace_from re cb n s'
      end
  | O =>
      match exec re s with
      | Some (caps, rest) =>
          let len := (String.length s - String.length rest)%nat in
          out ← cb (Str.take len s) caps;
          tail ← match s with
                 | "" => Ok ""
                 | String c s' =>
                     match len with
                     | O => t ← replace_from re cb 0 s'; Ok (String c t)
                     | S n => replace_from re cb n s'
                     end
                 end;
          Ok (out +:+ tail)
      | None =>
          match s with
          | "" => Ok ""
          | String c s' => t ← replace_from re cb 0 s'; Ok (String c t)
          end
      end
  end.

Definition replace (re : regex) (cb : string -> captures -> result string)
    (s : string) : result string :=
  replace_from re cb 0 s.

End Regex.

(** ** Numbers

    A number of the program is an IEEE double.  The model names a finite
    number by a decimal notation, [Dec m e] for [m / 10^e], and covers the
    doubles that a notation of at most 15 significant digits and of a
    magnitude between [10^-300] and [10^300] names, zero and NaN.  On these
    the double determines the notation: printing gives the digits back,
    and two numbers are equal when their notations have the same value.
    Every operation declines ([None]) on a notation outside this range,
    where the double is a rounding of the decimal, an infinity or zero.
    Both zeros are [Dec 0 _]: they are equal, falsy and both print as
    "0". *)

Module Num.
Import Stdlib.Strings.String.

Inductive number : Type :=
| NaN
| Dec (m : Z) (e : nat).

Definition of_Z (z : Z) : number := Dec z 0.

Definition digit_char (d : N) : ascii := ascii_of_N (48 + d).

(** The decimal digits of [n], most significant first; [fuel] bounds the
    number of digits. *)
Fixpoint digits_from (fuel : nat) (n : N) (acc : string) : string :=
  match fuel with
  | O => acc
  | S fuel' =>
      let acc' := String (digit_char (n mod 10)) acc in
      if (n / 10 =? 0)%N then acc' else digits_from fuel' (n / 10) acc'
  end.

Definition digits (n : N) : string := digits_from (S (N.to_nat (N.log2 n))) n "".

Fixpoint zeros (k : nat) : string :=
  match k with
  | O => ""
  | S k' => String "0" (zeros k')
  end.

(** [n] without its trailing zeros, and the number of zeros taken off
    ([z] counts them); [fuel] bounds the number of digits. *)
Fixpoint strip_zeros (fuel : nat) (n : N) (z : nat) : N * nat :=
  match fuel with
  | O => (n, z)
  | S fuel' =>
      if (n =? 0)%N then (n, z)
      else if (n mod 10 =? 0)%N then strip_zeros fuel' (n / 10) (S z)
      else (n, z)
  end.

(** The shortest notation of a number that is not zero: its significant
    digits and the position [point] of the decimal point behind the first
    [point] digits, so that the magnitude is [0.digits * 10^point]. *)
Record notation : Type := {
  negative : bool;
  significant : string;
  point : Z
}.

Definition notation_of (m : Z) (e : nat) : notation :=
  let n := Z.to_N (Z.abs m) in
  let '(s, z) := strip_zeros (S (N.to_nat (N.log2 n))) n 0 in
  let ds := digits s in
  {| negative := (m <? 0)%Z;
     significant := ds;
     point := (Z.of_nat (String.length ds) + Z.of_nat z - Z.of_nat e)%Z |}.

(** The numbers the model covers. *)
Definition in_model (a : number) : bool :=
  match a with
  | NaN => true
  | Dec m e =>
      (m =? 0)%Z
      || (let nt := notation_of m e in
          (String.length (significant nt) <=? 15)%nat
          && (-300 <=? point nt)%Z && (point nt <=? 300)%Z)
  end.

(** IEEE equality, as used by [==] and [===]. *)
Definition eqb (a b : number) : option bool :=
  if in_model a && in_model b then
    Some match a, b with
         | Dec m1 e1, Dec m2 e2 => (m1 * 10 ^ Z.of_nat e2 =? m2 * 10 ^ Z.of_nat e1)%Z
         | _, _ => false
         end
  else None.

(** ToBoolean *)
Definition truthy (a : number) : option bool :=
  if in_model a then
    Some match a with
         | NaN => false
         | Dec m _ => negb (m =? 0)%Z
         end
  else None.

(** Number::toString for radix 10, from the shortest notation: [k] digits
    and the decimal point behind the first [n] of them. *)
Definition format (nt : notation) : string :=
  let ds := significant nt in
  let k := Z.of_nat (String.length ds) in
  let n := point nt in
  (if negative nt then "-" else "") +:+
  (if (k <=? n)%Z && (n <=? 21)%Z then ds +:+ zeros (Z.to_nat (n - k))
   else if (0 <? n)%Z && (n <=? 21)%Z
   then Str.take (Z.to_nat n) ds +:+ "." +:+ Str.drop (Z.to_nat n) ds
   else if (-6 <? n)%Z && (n <=? 0)%Z then "0." +:+ zeros (Z.to_nat (- n)) +:+ ds
   else
     let exponent :=
       (if (n - 1 <? 0)%Z then "-" else "+") +:+ digits (Z.to_N (Z.abs (n - 1))) in
     match ds with
     | String d "" => String d "" +:+ "e" +:+ exponent
     | String d rest => String d "" +:+ "." +:+ rest +:+ "e" +:+ exponent
     | "" => ""
     end).

(** [String(n)] *)
Definition to_string (a : number) : option string :=
  match a with
  | NaN => Some "NaN"
  | Dec m e =>
      if (m =? 0)%Z then Some "0"
      else if in_model a then Some (format (notation_of m e))
      else None
  end.

Definition digit_value (c : ascii) : Z := Z.of_N (Str.code c) - 48.

Fixpoint digits_value (s : string) (acc : Z) : Z :=
  match s with
  | "" => acc
  | String c s' => digits_value s' (10 * acc + digit_value c)
  end.

(** The value of [sign? digits (. digits)?], read as a decimal fraction. *)
Definition of_decimal (s : string) : number :=
  let '(neg, body) :=
    match s with
    | String "-" s' => (true, s')
    | String "+" s' => (false, s')
    | _ => (false, s)
    end in
  match Str.split_char "." body with
  | [int_part] =>
      let m := digits_value int_part 0 in
      Dec (if neg then - m else m) 0
  | [int_part; frac_part] =>
      let m := digits_value frac_part (digits_value int_part 0) in
      Dec (if neg then - m else m) (String.length frac_part)
  | _ => NaN
  end.

(** The number, when the model covers it. *)
Definition covered (a : number) : option number :=
  if in_model a then Some a else None.

(** [parseFloat(s)] for a text [s] that [/^-?\d+(\.\d+)?$/] matches: the
    double next to the decimal. *)
Definition parse_float (s : string) : option number := covered (of_decimal s).

Definition is_decimal_body (s : string) : bool :=
  match Str.split_char "." s with
  | [int_part] => negb (String.eqb int_part "") && Str.all Str.is_digit int_part
  | [int_part; frac_part] =>
      negb (String.eqb (int_part +:+ frac_part) "")
      && Str.all Str.is_digit int_part && Str.all Str.is_digit frac_part
  | _ => false
  end.

(** ToNumber of a string, as [==] applies it: white space is trimmed, the
    empty string is 0, a decimal numeral without exponent is its value.  A
    text that begins, behind its sign, with anything but a digit, a point
    or the letter I is no numeral and gives NaN.  On the other texts (the
    numerals with an exponent or a radix prefix, [Infinity], and what only
    begins like a numeral) the model declines. *)
Definition of_string (s : string) : option number :=
  let t := Str.trim s in
  let body :=
    match t with
    | String "-" s' => s'
    | String "+" s' => s'
    | _ => t
    end in
  if String.eqb t "" then Some (Dec 0 0)
  else if is_decimal_body body then covered (of_decimal t)
  else match body with
       | "" => Some NaN
       | String c _ =>
           if Str.is_digit c || Ascii.eqb c "." || Ascii.eqb c "I" then None
           else Some NaN
       end.

End Num.

(** ** Values

    The data a render context holds: primitives, plain objects and arrays.
    An object or an array carries the identity of its allocation ([ref]),
    which is what [==] compares on two of them.  An object has the
    prototype of an object literal and an array that of an array literal.

    A read also reaches the members that a value inherits from its
    prototype.  For a plain object these are the twelve members of
    [Object.prototype]; what such a read gives is a built-in function or
    object, [VNative], of which the model knows that it is truthy, that it
    is no array, the [name] of a function, and that reading [caller] or
    [arguments] of a built-in function throws.  The model declines on every
    other use of a built-in (its text, its other properties, [==]) and on
    reading a property that a string, a number, a boolean or an array does
    not own. *)

Module Value.

#[warnings="-register-all"] Inductive value : Type :=
| VUndefined
| VNull
| VBool (b : bool)
| VNum (n : Num.number)
| VStr (s : string)
| VObj (ref : nat) (props : list (string * value))
| VArr (ref : nat) (items : list value)
| VNative (callable : bool) (name : string).

Definition int (z : Z) : value := VNum (Num.of_Z z).

(** An optional result of the number model as a result of the program. *)
Definition covered {A} (x : option A) : result A :=
  match x with
  | Some a => Ok a
  | None => Err OutsideModel
  end.

Definition is_undefined (v : value) : bool :=
  match v with
  | VUndefined => true
  | _ => false
  end.

(** ToBoolean *)
Definition truthy (v : value) : result bool :=
  match v with
  | VUndefined | VNull => Ok false
  | VBool b => Ok b
  | VNum n => covered (Num.truthy n)
  | VStr s => Ok (negb (String.eqb s ""))
  | VObj _ _ | VArr _ _ | VNative _ _ => Ok true
  end.

(** Own properties of an object, first binding of a key. *)
Fixpoint assoc (key : string) (props : list (string * value)) : option value :=
  match props with
  | [] => None
  | (k, v) :: props' => if String.eqb key k then Some v else assoc key props'
  end.

Definition is_native (v : value) : bool :=
  match v with
  | VNative _ _ => true
  | _ => false
  end.

(** [String(v)].  An array prints its elements separated by commas, with
    nothing for [undefined] and [null].  A plain object prints through the
    inherited [toString].  An own property of that name hides it: when it
    holds data, which cannot be called, [valueOf] is tried, the inherited
    one returns the object itself, and the conversion throws. *)
Fixpoint to_string (v : value) : result string :=
  match v with
  | VUndefined => Ok "undefined"
  | VNull => Ok "null"
  | VBool true => Ok "true"
  | VBool false => Ok "false"
  | VNum n => covered (Num.to_string n)
  | VStr s => Ok s
  | VObj _ props =>
      match assoc "toString" props with
      | None => Ok "[object Object]"
      | Some f =>
          if is_native f then Err OutsideModel
          else match assoc "valueOf" props with
               | Some g => if is_native g then Err OutsideModel else Err TypeError
               | None => Err TypeError
               end
      end
  | VArr _ items =>
      parts ← (fix each (xs : list value) : result (list string) :=
                 match xs with
                 | [] => Ok []
                 | x :: xs' =>
                     part ← match x with
                            | VUndefined | VNull => Ok ""
                            | _ => to_string x
                            end;
                     rest ← each xs';
                     Ok (part :: rest)
                 end) items;
      Ok (Str.join "," parts)
  | VNative _ _ => Err OutsideModel
  end.

(** [obj[key] = v] on the property list: the binding of an existing key is
    replaced where it stands, a new key is added at the end. *)
Fixpoint assoc_set (key : string) (v : value) (props : list (string * value))
    : list (string * value) :=
  match props with
  | [] => [(key, v)]
  | (k, w) :: props' =>
      if String.eqb key k then (k, v) :: props'
      else (k, w) :: assoc_set key v props'
  end.

(** A canonical array index: decimal digits without a leading zero. *)
Definition parse_index (key : string) : option nat :=
  match key with
  | "" => None
  | String "0" "" => Some O
  | String "0" _ => None
  | _ => if Str.all Str.is_digit key
         then Some (Z.to_nat (Num.digits_value key 0))
         else None
  end.

Definition char_at (i : nat) (s : string) : value :=
  match String.get i s with
  | Some c => VStr (String c "")
  | None => VUndefined
  end.

(** The functions of [Object.prototype]. *)
Definition object_methods : list string :=
  ["__defineGetter__"; "__defineSetter__"; "hasOwnProperty"; "__lookupGetter__";
   "__lookupSetter__"; "isPrototypeOf"; "propertyIsEnumerable"; "toString";
   "valueOf"; "toLocaleString"].

(** What a plain object inherits under [key]: [None] when [Object.prototype]
    has no such member.  A function is [VNative true] with its [name]. *)
Definition inherited (key : string) : option value :=
  if String.eqb key "constructor" then Some (VNative true "Object")
  else if String.eqb key "__proto__" then Some (VNative false "Object.prototype")
  else if List.existsb (String.eqb key) object_methods
  then Some (VNative true key)
  else None.

(** [obj[key]]: throws on [undefined] and [null]. *)
Definition get_prop (obj : value) (key : string) : result value :=
  match obj with
  | VUndefined | VNull => Err TypeError
  | VBool _ | VNum _ => Err OutsideModel
  | VStr s =>
      if String.eqb key "length" then Ok (int (Z.of_nat (String.length s)))
      else match parse_index key with
           | Some i => Ok (char_at i s)
           | None => Err OutsideModel
           end
  | VObj _ props =>
      match assoc key props with
      | Some v => Ok v
      | None =>
          match inherited key with
          | Some member => Ok member
          | None => Ok VUndefined
          end
      end
  | VArr _ items =>
      if String.eqb key "length" then Ok (int (Z.of_nat (List.length items)))
      else match parse_index key with
           | Some i => Ok (List.nth i items VUndefined)
           | None => Err OutsideModel
           end
  | VNative true name =>
      if String.eqb key "caller" || String.eqb key "arguments"
      then Err TypeError           (* a built-in function is a strict one *)
      else if String.eqb key "name" then Ok (VStr name)
      else Err OutsideModel
  | VNative false _ => Err OutsideModel
  end.

(** ToPrimitive, then ToNumber on a boolean: the operand [==] compares once
    neither side is [undefined] or [null] and the two are not both objects.
    An object is asked for [valueOf] first; the inherited one returns the
    object itself, and [toString] decides. *)
Definition to_prim (v : value) : result value :=
  match v with
  | VBool b => Ok (VNum (Num.of_Z (if b then 1 else 0)))
  | VObj _ props =>
      match assoc "valueOf" props with
      | Some g => if is_native g then Err OutsideModel
                  else s ← to_string v; Ok (VStr s)
      | None => s ← to_string v; Ok (VStr s)
      end
  | VArr _ _ => s ← to_string v; Ok (VStr s)
  | VNative _ _ => Err OutsideModel
  | _ => Ok v
  end.

Definition obj_ref (v : value) : option nat :=
  match v with
  | VObj r _ | VArr r _ => Some r
  | _ => None
  end.

(** [x == y] *)
Definition loose_eq (x y : value) : result bool :=
  match x, y with
  | (VUndefined | VNull), (VUndefined | VNull) => Ok true
  | (VUndefined | VNull), _ => Ok false
  | _, (VUndefined | VNull) => Ok false
  | _, _ =>
      if is_native x || is_native y then Err OutsideModel
      else
        match obj_ref x, obj_ref y with
        | Some r1, Some r2 => Ok (Nat.eqb r1 r2)
        | _, _ =>
            px ← to_prim x;
            py ← to_prim y;
            match px, py with
            | VNum a, VNum b => covered (Num.eqb a b)
            | VStr a, VStr b => Ok (String.eqb a b)
            | VNum a, VStr b => b' ← covered (Num.of_string b); covered (Num.eqb a b')
            | VStr a, VNum b => a' ← covered (Num.of_string a); covered (Num.eqb a' b)
            | _, _ => Ok false
            end
        end
  end.

(** [Array.isArray(v)] *)
Definition as_array (v : value) : option (list value) :=
  match v with
  | VArr _ items => Some items
  | _ => None
  end.

End Value.

(** ** TemplateEngine *)

Module TemplateEngine.
Import Regex Value.

(** [Record<string, any>]: the own properties of the context object. *)
Definition context : Type := list (string * value).

(** A helper function; [None] when the call throws. *)
Definition helper : Type := list value -> option string.

(** The two private maps of the class. *)
Record t : Type := mk {
  templates : gmap string string;
  helpers : gmap string helper
}.

(** [new TemplateEngine()] *)
Definition new : t := {| templates := ∅; helpers := ∅ |}.

Definition registerTemplate (name template : string) (e : t) : t :=
  {| templates := <[name := template]> (templates e); helpers := helpers e |}.

Definition registerHelper (name : string) (h : helper) (e : t) : t :=
  {| templates := templates e; helpers := <[name := h]> (helpers e) |}.

(** [(obj, key) => obj && obj[key] !== undefined ? obj[key] : undefined] *)
Definition path_step (obj : value) (key : string) : result value :=
  t ← truthy obj;
  if (t : bool) then
    v ← get_prop obj key;
    if is_undefined v then Ok VUndefined else get_prop obj key
  else Ok VUndefined.

Fixpoint reduce (keys : list string) (obj : value) : result value :=
  match keys with
  | [] => Ok obj
  | key :: keys' => obj' ← path_step obj key; reduce keys' obj'
  end.

(** [path.split('.').reduce(..., context)] *)
Definition resolve_path (path : string) (ctx : context) : result value :=
  reduce (Str.split_char "." path) (VObj 0 ctx).

(** [/\{\{\s*([^}]+?)\s*\}\}/g] *)
Definition variable_regex : regex :=
  (lit "{{" · Star true Str.is_space · Grp 1 (Plus false Str.not_close)
   · Star true Str.is_space · lit "}}")%re.

(** [/\{\{#if\s+([^}]+?)\s*\}\}([\s\S]*?)(?:\{\{#else\}\}([\s\S]*?))?\{\{\/if\}\}/g] *)
Definition conditionalRegex : regex :=
  (lit "{{#if" · Plus true Str.is_space · Grp 1 (Plus false Str.not_close)
   · Star true Str.is_space · lit "}}" · Grp 2 (Star false Str.any)
   · Opt (lit "{{#else}}" · Grp 3 (Star false Str.any)) · lit "{{/if}}")%re.

(** [/\{\{#each\s+([^}]+?)\s*\}\}([\s\S]*?)\{\{\/each\}\}/g] *)
Definition loopRegex : regex :=
  (lit "{{#each" · Plus true Str.is_space · Grp 1 (Plus false Str.not_close)
   · Star true Str.is_space · lit "}}" · Grp 2 (Star false Str.any)
   · lit "{{/each}}")%re.

(** [/\{\{(\w+)(?:\s+([^}]+?))?\}\}/g] *)
Definition helperRegex : regex :=
  (lit "{{" · Grp 1 (Plus true Str.is_word)
   · Opt (Plus true Str.is_space · Grp 2 (Plus false Str.not_close))
   · lit "}}")%re.

(** [/^-?\d+(\.\d+)?$/] *)
Definition number_regex : regex :=
  (Opt (Chr "-") · Plus true Str.is_digit
   · Opt (Grp 1 (Chr "." · Plus true Str.is_digit)) · Eol)%re.

(** A group of the match, the empty string when it did not take part. *)
Definition group (i : nat) (caps : captures) : string :=
  match cap i caps with
  | Some s => s
  | None => ""
  end.

Definition replaceVariables (template : string) (ctx : context) : result string :=
  replace variable_regex
    (fun _ caps =>
       value ← resolve_path (group 1 caps) ctx;
       if is_undefined value then Ok "" else to_string value)
    template.

Definition resolveValue (value : string) (ctx : context) : result Value.value :=
  let value := Str.trim value in
  if Str.starts_with Str.double_quote value && Str.ends_with Str.double_quote value
  then Ok (VStr (Str.slice_1_m1 value))
  else if test_anchored number_regex value
  then covered (option_map VNum (Num.parse_float value))
  else if String.eqb value "true" then Ok (VBool true)
  else if String.eqb value "false" then Ok (VBool false)
  else if String.eqb value "null" then Ok VNull
  else if String.eqb value "undefined" then Ok VUndefined
  else resolve_path value ctx.

Definition processConditionals (template : string) (ctx : context) : result string :=
  replace conditionalRegex
    (fun _ caps =>
       let condition := group 1 caps in
       let ifContent := group 2 caps in
       let elseContent := group 3 caps in
       conditionValue ←
         (if Str.includes "==" condition then
            match List.map Str.trim (Str.split_str "==" condition) with
            | lhs :: rhs :: _ =>
                leftValue ← resolveValue lhs ctx;
                rightValue ← resolveValue rhs ctx;
                loose_eq leftValue rightValue
            | _ => Err TypeError
            end
          else
            v ← resolveValue condition ctx; truthy v);
       Ok (if (conditionValue : bool) then ifContent else elseContent))
    template.

(** [items.map((item, index) => ...)] of [processLoops]. *)
Fixpoint render_items (content : string) (ctx : context) (index : nat)
    (items : list value) : result (list string) :=
  match items with
  | [] => Ok []
  | item :: items' =>
      let itemContext :=
        assoc_set "index" (int (Z.of_nat index)) (assoc_set "item" item ctx) in
      itemContent ← replaceVariables content itemContext;
      itemContent ← processConditionals itemContent itemContext;
      rest ← render_items content ctx (S index) items';
      Ok (itemContent :: rest)
  end.

Definition processLoops (template : string) (ctx : context) : result string :=
  replace loopRegex
    (fun _ caps =>
       let itemsPath := group 1 caps in
       let content := group 2 caps in
       items ← resolve_path itemsPath ctx;
       match as_array items with
       | None => Ok ""
       | Some items =>
           parts ← render_items content ctx 0 items;
           Ok (Str.join "" parts)
       end)
    template.

Fixpoint resolve_args (args : list string) (ctx : context) : result (list value) :=
  match args with
  | [] => Ok []
  | arg :: args' =>
      v ← resolveValue arg ctx;
      vs ← resolve_args args' ctx;
      Ok (v :: vs)
  end.

Definition processHelpers (e : t) (template : string) (ctx : context) : result string :=
  replace helperRegex
    (fun matched caps =>
       let helperName := group 1 caps in
       let argsString := group 2 caps in
       match helpers e !! helperName with
       | None => Ok matched
       | Some h =>
           args ← resolve_args (Str.split_ws argsString) ctx;
           match h args with
           | Some out => Ok out
           | None => Ok ""
           end
       end)
    template.

Definition render (e : t) (templateName : string) (ctx : context) : result string :=
  match templates e !! templateName with
  | None => Err (TemplateNotFoundError templateName)
  | Some template =>
      if String.eqb template "" (* [!template] also holds of the empty string *)
      then Err (TemplateNotFoundError templateName)
      else
        result ← replaceVariables template ctx;
        result ← processConditionals result ctx;
        result ← processLoops result ctx;
        processHelpers e result ctx
  end.

End TemplateEngine.

(** ** Maps that remember the order of insertion

    A JavaScript [Map] whose keys are enumerated ([keys()]): setting an
    existing key keeps its place, a new key goes last. *)

Module OrderedMap.
Section Defs.
Context {V : Type}.

Definition t : Type := list (string * V).

Fixpoint get (key : string) (m : t) : option V :=
  match m with
  | [] => None
  | (k, v) :: m' => if String.eqb key k then Some v else get key m'
  end.

Definition has (key : string) (m : t) : bool :=
  match get key m with
  | Some _ => true
  | None => false
  end.

Fixpoint set (key : string) (v : V) (m : t) : t :=
  match m with
  | [] => [(key, v)]
  | (k, w) :: m' =>
      if String.eqb key k then (k, v) :: m' else (k, w) :: set key v m'
  end.

Definition keys (m : t) : list string := List.map fst m.
End Defs.
Arguments t V : clear implicits.
End OrderedMap.

(** ** CodeGenerator *)

Module CodeGenerator.
Import Value.

Inductive framework : Type := react | vue | angular | svelte.
Inductive language : Type := javascript | typescript.

Record template_set : Type := {
  component : string;
  page : string;
  styles : string;
  index : string
}.

Record TemplateConfig : Type := {
  name : string;
  config_framework : framework;
  config_language : language;
  config_templates : template_set;
  config_helpers : option (list (string * TemplateEngine.helper))
}.

#[warnings="-register-all"] Inductive ComponentSchema : Type := Component {
  id : string;
  type : string;
  props : list (string * value);
  style : list (string * value);
  children : list ComponentSchema
}.

Record GenerateOptions : Type := {
  componentName : option string;
  description : option string;
  isModule : option bool
}.

(** [{}], the default of the [options] parameter. *)
Definition no_options : GenerateOptions :=
  {| componentName := None; description := None; isModule := None |}.

Record artifact : Type := { content : string; filename : string }.

Record GeneratedCode : Type := {
  main : artifact;
  code_styles : artifact;
  code_index : artifact
}.

(** The private fields of the class. *)
Record t : Type := mk {
  templateEngine : TemplateEngine.t;
  templates : OrderedMap.t TemplateConfig;
  activeTemplate : option string        (* [None] is [null] *)
}.

(** [new CodeGenerator()]; [registerCoreHelpers] registers nothing. *)
Definition new : t :=
  {| templateEngine := TemplateEngine.new; templates := []; activeTemplate := None |}.

(** [Object.entries(config.templates)] *)
Definition template_entries (ts : template_set) : list (string * string) :=
  [("component", component ts); ("page", page ts);
   ("styles", styles ts); ("index", index ts)].

Definition registerTemplate (config : TemplateConfig) (g : t) : t :=
  let engine :=
    List.fold_left
      (fun e '(key, template) =>
         TemplateEngine.registerTemplate (name config +:+ ":" +:+ key) template e)
      (template_entries (config_templates config)) (templateEngine g) in
  let engine :=
    match config_helpers config with
    | Some hs =>
        List.fold_left
          (fun e '(hname, h) => TemplateEngine.registerHelper hname h e) hs engine
    | None => engine
    end in
  {| templateEngine := engine;
     templates := OrderedMap.set (name config) config (templates g);
     activeTemplate := activeTemplate g |}.

Definition setActiveTemplate (name : string) (g : t) : result t :=
  if OrderedMap.has name (templates g)
  then Ok {| templateEngine := templateEngine g;
             templates := templates g;
             activeTemplate := Some name |}
  else Err (TemplateNotFoundError name).

(** [Array.from(this.templates.keys())[0]]; [None] is [undefined]. *)
Definition getDefaultTemplateName (g : t) : option string :=
  List.head (OrderedMap.keys (templates g)).

(** [a || b] on an optional string: [null], [undefined] and the empty
    string are falsy. *)
Definition or_else {A} (a : option string) (b : A) (inj : string -> A) : A :=
  match a with
  | Some s => if String.eqb s "" then b else inj s
  | None => b
  end.

(** [`${x}`] for a string or [undefined]. *)
Definition interpolate (x : option string) : string :=
  match x with
  | Some s => s
  | None => "undefined"
  end.

(** [{...analysis, ...options}]: the options that are present override. *)
Definition spread_options (o : GenerateOptions) (ctx : TemplateEngine.context)
    : TemplateEngine.context :=
  let ctx := match componentName o with
             | Some s => assoc_set "componentName" (VStr s) ctx
             | None => ctx
             end in
  let ctx := match description o with
             | Some s => assoc_set "description" (VStr s) ctx
             | None => ctx
             end in
  match isModule o with
  | Some b => assoc_set "isModule" (VBool b) ctx
  | None => ctx
  end.

Section Generate.
(** The analysis methods of the class that the source leaves out
    ([analyzeComponent] calls [extractState], [extractEffects], ...; and
    [generateComponentName]). *)
Variable analyzeComponent : ComponentSchema -> TemplateEngine.context.
Variable generateComponentName : ComponentSchema -> string.

Definition generateComponent (g : t) (component : ComponentSchema)
    (options : GenerateOptions) : result GeneratedCode :=
  let templateName : option string :=
    or_else (activeTemplate g) (getDefaultTemplateName g) Some in
  let templateConfig : option TemplateConfig :=
    match templateName with
    | Some n => OrderedMap.get n (templates g)
    | None => None
    end in
  let componentAnalysis := analyzeComponent component in
  let the_name :=
    or_else (componentName options) (generateComponentName component) (fun s => s) in
  let context :=
    assoc_set "componentDescription"
      (VStr (or_else (description options) (type component +:+ " component")
               (fun s => s)))
      (assoc_set "componentName" (VStr the_name)
         (spread_options options componentAnalysis)) in
  let engine := templateEngine g in
  mainCode ← TemplateEngine.render engine (interpolate templateName +:+ ":component") context;
  styleCode ← TemplateEngine.render engine (interpolate templateName +:+ ":styles") context;
  indexCode ← TemplateEngine.render engine (interpolate templateName +:+ ":index") context;
  match templateConfig with
  | None => Err TypeError      (* [templateConfig.language] on [undefined] *)
  | Some cfg =>
      let ts := match config_language cfg with typescript => true | javascript => false end in
      Ok {| main := {| content := mainCode;
                       filename := the_name +:+ "." +:+ (if ts then "tsx" else "jsx") |};
            code_styles := {| content := styleCode;
                              filename := match isModule options with
                                          | Some true => the_name +:+ ".module.css"
                                          | _ => the_name +:+ ".css"
                                          end |};
            code_index := {| content := indexCode;
                             filename := "index." +:+ (if ts then "ts" else "js") |} |}
  end.
End Generate.

End CodeGenerator.

(** ** DynamicImportManager

    A usage weight is a finite double; the model takes its exact value as
    a rational, and so it takes the constant [0.8] of the source.  On
    finite doubles [a > b], [a <= b] and the sign of [b - a] are exact, so
    the comparisons below are those of the source. *)

Module DynamicImportManager.

Record import_entry : Type := { path : string; weight : Q }.

(** The element the source builds with [{ name, ...this.importMap.get(name) }]. *)
Record component : Type := {
  c_name : string;
  c_path : string;
  c_weight : Q
}.

(** The private [importMap]. *)
Definition t : Type := gmap string import_entry.

Definition new : t := ∅.

(** [weight] defaults to 1. *)
Definition registerComponent (name path : string) (w : option Q) (m : t) : t :=
  <[name := {| path := path; weight := match w with Some q => q | None => 1%Q end |}]> m.

(** [a > b] *)
Definition gtb (a b : Q) : bool := negb (Qle_bool a b).

(** [[...xs].sort(cmp)]: the sort of the language is stable, and [cmp a b > 0]
    puts [a] after [b]. *)
Fixpoint sort_insert {A} (cmp : A -> A -> Q) (a : A) (sorted : list A) : list A :=
  match sorted with
  | [] => [a]
  | b :: rest =>
      if gtb (cmp a b) 0 then b :: sort_insert cmp a rest else a :: sorted
  end.

Fixpoint sort {A} (cmp : A -> A -> Q) (xs : list A) : list A :=
  match xs with
  | [] => []
  | a :: rest => sort_insert cmp a (sort cmp rest)
  end.

(** [usedComponents.filter(has).map(name => ({ name, ...get(name) }))] *)
Fixpoint used_components (m : t) (usedComponents : list string) : list component :=
  match usedComponents with
  | [] => []
  | name :: rest =>
      match m !! name with
      | Some e =>
          {| c_name := name; c_path := path e; c_weight := weight e |}
            :: used_components m rest
      | None => used_components m rest
      end
  end.

(** [(a, b) => b.weight - a.weight] *)
Definition by_weight (a b : component) : Q := (c_weight b - c_weight a)%Q.

Definition sortedComponents (m : t) (usedComponents : list string) : list component :=
  sort by_weight (used_components m usedComponents).

(** The double that the literal [0.8] denotes; it lies above 8/10. *)
Definition threshold : Q := 3602879701896397 # 4503599627370496.

Definition eager_import (c : component) : string :=
  "import " +:+ c_name c +:+ " from '" +:+ c_path c +:+ "';".

Definition lazy_import (c : component) : string :=
  "const " +:+ c_name c +:+ " = React.lazy(() => import('" +:+ c_path c +:+ "'));".

Definition import_line (c : component) : string :=
  if gtb (c_weight c) threshold then eager_import c else lazy_import c.

Definition react_lazy_import : string := "import React, { lazy, Suspense } from 'react';".
Definition react_plain_import : string := "import React from 'react';".

(** [sortedComponents.some(c => c.weight <= 0.8)] *)
Definition hasLazy (cs : list component) : bool :=
  List.existsb (fun c => Qle_bool (c_weight c) threshold) cs.

(** The array that is joined: [[reactImport, ...imports]]. *)
Definition import_lines (m : t) (usedComponents : list string) : list string :=
  let sorted := sortedComponents m usedComponents in
  let imports := List.map import_line sorted in
  let reactImport := if hasLazy sorted then react_lazy_import else react_plain_import in
  reactImport :: imports.



End DynamicImportManager.

(** ** CodeOptimizer

    Each pass is the composition of two private methods.  The repository
    holds none of the six, so they are parameters here. *)

Module CodeOptimizer.
Section Passes.
Variables patterns imports : Type.
Variable findRepeatingPatterns : string -> patterns.
Variable extractPatterns : string -> patterns -> string.
Variable analyzeImports : string -> imports.
Variable removeUnusedImports : string -> imports -> string.
Variable mergeStyles : string -> string.
Variable removeUnusedStyles : string -> string.

Definition deduplicate (code : string) : string :=
  extractPatterns code (findRepeatingPatterns code).

Definition optimizeImports (code : string) : string :=
  removeUnusedImports code (analyzeImports code).

Definition optimizeStyles (styles : string) : string :=
  removeUnusedStyles (mergeStyles styles).
End Passes.
End CodeOptimizer.

(** * Vocabulary of the statements *)

(** ** Templates as sequences of text and markers *)

Module Markers.
Import Str Regex Value TemplateEngine.

(** [s] does not contain the character [a]. *)
Definition lacks (a : ascii) (s : string) : bool :=
  all (fun c => negb (Ascii.eqb a c)) s.

(** A pattern that can only match at an occurrence of the character [a]. *)
Definition starts_at (a : ascii) (re : regex) : Prop :=
  exec re "" = None /\
  forall c s, Ascii.eqb a c = false -> exec re (String c s) = None.

Fixpoint last_char (s : string) : string :=
  match s with
  | "" => ""
  | String c "" => s
  | String _ s' => last_char s'
  end.

(** The path that [variable_regex] captures in a marker [{{body}}]: the body
    without the white space around it, and the last character of a body that
    is nothing but white space. *)
Definition marker_path (body : string) : string :=
  match trim body with
  | "" => last_char body
  | t => t
  end.

(** The same path, the way the matcher finds it: [\s*] gives back its last
    character when nothing else is left for the group. *)
Fixpoint captured (body : string) : option string :=
  match body with
  | "" => None
  | String c body' =>
      if is_space c
      then match captured body' with
           | Some p => Some p
           | None => Some (String c (drop_while_end is_space body'))
           end
      else Some (String c (drop_while_end is_space body'))
  end.

(** The continuations of [variable_regex] once [{{] is read: [body_k] is
    the group and what follows it, [tail_k] is [\s*\}\}]. *)
Definition final_k : @cont (captures * string) :=
  fun rest caps => Some (caps, rest).
Definition close_k : @cont (captures * string) :=
  fun s caps => rmatch (lit "}}") s caps final_k.
Definition tail_k : @cont (captures * string) :=
  fun s caps => star_greedy is_space s caps close_k.
Definition group_k (start : string) : @cont (captures * string) :=
  fun s caps => tail_k s (set_cap 1 (consumed start s) caps).
Definition body_k : @cont (captures * string) :=
  fun s caps => rmatch (Plus false not_close) s caps (group_k s).

Inductive segment : Type :=
| Text (t : string)
| Marker (body : string).

Fixpoint flatten (segs : list segment) : string :=
  match segs with
  | [] => ""
  | Text t :: segs' => t +:+ flatten segs'
  | Marker body :: segs' => "{{" +:+ body +:+ "}}" +:+ flatten segs'
  end.

(** What a value prints as in the place of a marker: nothing for
    [undefined], [String(v)] otherwise. *)
Definition shown (v : value) : result string :=
  if is_undefined v then Ok "" else to_string v.

(** What variable interpolation puts in the place of a segment: the text
    itself, and for a marker what the value of its path prints as. *)
Definition substitute (ctx : context) (sg : segment) : result string :=
  match sg with
  | Text t => Ok t
  | Marker body => v ← resolve_path (marker_path body) ctx; shown v
  end.

Fixpoint expand (ctx : context) (segs : list segment) : result string :=
  match segs with
  | [] => Ok ""
  | sg :: segs' =>
      first ← substitute ctx sg;
      rest ← expand ctx segs';
      Ok (first +:+ rest)
  end.

(** Some position of [s] starts a marker [{{ ... }}]. *)
Fixpoint has_marker (s : string) : bool :=
  match exec variable_regex s with
  | Some _ => true
  | None =>
      match s with
      | "" => false
      | String _ s' => has_marker s'
      end
  end.

(** An engine with the single template [tpl], registered as "t". *)
Definition engine_with (tpl : string) : t := registerTemplate "t" tpl new.

End Markers.

(** ** Imports *)

Module Imports.
Import Str DynamicImportManager.




Definition line_break : ascii := ascii_of_nat 10.


(** The lines of a text. *)
Definition lines (s : string) : list string := split_char line_break s.


(** The double that the literal [0.9] denotes. *)
Definition double_0_9 : Q := 8106479329266893 # 9007199254740992.

(** The components of the specification's example, X of weight 0.9 and Y of
    weight 0.5, and a component Z of weight 0.8. *)
Definition sample_imports : t :=
  registerComponent "Y" "./Y" (Some 0.5%Q)
    (registerComponent "X" "./X" (Some double_0_9) new).




End Imports.

(** ** Generators *)

Module Generators.
Import CodeGenerator.

(** The generators a program can build with the public methods. *)
Inductive reachable : t -> Prop :=
| reachable_new : reachable new
| reachable_register (config : TemplateConfig) (g : t) :
    reachable g -> reachable (registerTemplate config g)
| reachable_activate (name : string) (g g' : t) :
    reachable g -> setActiveTemplate name g = Ok g' -> reachable g'.

(** The value of [templateName] in [generateComponent]. *)
Definition selected (g : t) : option string :=
  or_else (activeTemplate g) (getDefaultTemplateName g) Some.

Definition sample_component : ComponentSchema :=
  Component "1" "div" [] [] [].

(** A configuration whose component template carries the name of the
    configuration. *)
Definition sample_config (n : string) : TemplateConfig :=
  {| name := n; config_framework := react; config_language := typescript;
     config_templates := {| component := "/* " +:+ n +:+ " */ const {{componentName}} = 1;";
                            page := "<h1>{{pageTitle}}</h1>"; styles := "/* css */";
                            index := "export {{componentName}};" |};
     config_helpers := None |}.

(** The same in JavaScript, with a component template that reads a
    property of a function. *)
Definition throwing_config (n : string) : TemplateConfig :=
  {| name := n; config_framework := react; config_language := javascript;
     config_templates := {| component := "{{constructor.caller}}";
                            page := "{{constructor.caller}}"; styles := "/* css */";
                            index := "export {{componentName}};" |};
     config_helpers := None |}.

(** [setActiveTemplate(name)] on a generator that has the configuration. *)
Definition activate (name : string) (g : t) : t :=
  match setActiveTemplate name g with
  | Ok g' => g'
  | Err _ => g
  end.

End Generators.

(** ** Blocks and helper calls of a template *)

Module Blocks.
Import Str Regex Value TemplateEngine.

(** [s.indexOf(t)] *)
Fixpoint index_of (t s : string) : option nat :=
  if starts_with t s then Some O
  else match s with
       | "" => None
       | String _ s' => option_map S (index_of t s')
       end.

(** The text of a helper call: [{{name}}] or [{{name args}}], [gap] being
    the white space between the two. *)
Definition helper_call (name gap args : string) : string :=
  "{{" +:+ name +:+ gap +:+ args +:+ "}}".

(** The text of a directive that opens a block: [{{#if cond}}],
    [{{#each path}}]. *)
Definition opening (keyword gap body : string) : string :=
  keyword +:+ gap +:+ body +:+ "}}".

(** A run of white space that is not empty. *)
Definition is_gap (gap : string) : bool :=
  negb (String.eqb gap "") && all is_space gap.

(** The body of an opening directive: it starts with a character that is
    not white space and holds no closing brace. *)
Definition is_body (body : string) : bool :=
  match body with
  | "" => false
  | String c _ => negb (is_space c) && all not_close body
  end.

(** [(...args) => args.join(',')] *)
Definition sample_helper : helper :=
  fun args =>
    match to_string (VArr 0 args) with
    | Ok s => Some s
    | Err _ => None
    end.

(** [(...args) => String(args.length)] *)
Definition count_helper : helper :=
  fun args => Some (Num.digits (N.of_nat (List.length args))).

End Blocks.

Module IfBlocks.
Import Str Regex Blocks.

(** [{{#if cond}}A{{/if}}] and [{{#if cond}}A{{#else}}B{{/if}}]. *)
Definition if_block (gap cond a : string) (alt : option string) : string :=
  opening "{{#if" gap cond +:+ a +:+
  match alt with
  | Some b => "{{#else}}" +:+ b
  | None => ""
  end +:+ "{{/if}}".

(** The branch that is dropped when there is no [{{#else}}]. *)
Definition alternative (alt : option string) : string :=
  match alt with
  | Some b => b
  | None => ""
  end.

(** [{{#each path}}content{{/each}}] *)
Definition each_block (gap path content : string) : string :=
  opening "{{#each" gap path +:+ content +:+ "{{/each}}".

(** The part of [conditionalRegex] behind the opening directive. *)
Definition branches_re : regex :=
  (Grp 2 (Star false any)
   · Opt (lit "{{#else}}" · Grp 3 (Star false any)) · lit "{{/if}}")%re.

(** The part of [loopRegex] behind the opening directive. *)
Definition content_re : regex := (Grp 2 (Star false any) · lit "{{/each}}")%re.

End IfBlocks.

Module LoopBlocks.
Import Str Value TemplateEngine.

(** The strings of a list, one after the other. *)
Definition concat_all (parts : list string) : string := join "" parts.

End LoopBlocks.

(** ** The helpers of the React template

    [capitalize], [kebabCase] and [camelCase] of [reactTsTemplate.helpers].
    The case mappings are those of the ASCII letters; on the other code
    units the mappings of the runtime are not modelled, and the statements
    about these helpers are about ASCII text. *)

Module ReactTemplate.
Import Str Regex Value TemplateEngine.

(** [[a-z]] *)
Definition is_lower (c : ascii) : bool :=
  let n := code c in ((97 <=? n) && (n <=? 122))%N.

(** [[A-Z]] *)
Definition is_upper (c : ascii) : bool :=
  let n := code c in ((65 <=? n) && (n <=? 90))%N.

Definition is_ascii (s : string) : bool := all (fun c => (code c <? 128)%N) s.

Definition to_upper_char (c : ascii) : ascii :=
  if is_lower c then ascii_of_N (code c - 32) else c.

Definition to_lower_char (c : ascii) : ascii :=
  if is_upper c then ascii_of_N (code c + 32) else c.

Fixpoint map_chars (f : ascii -> ascii) (s : string) : string :=
  match s with
  | "" => ""
  | String c s' => String (f c) (map_chars f s')
  end.

(** [s.toUpperCase()] *)
Definition toUpperCase (s : string) : string := map_chars to_upper_char s.

(** [s.toLowerCase()] *)
Definition toLowerCase (s : string) : string := map_chars to_lower_char s.

(** [str.charAt(0).toUpperCase() + str.slice(1)] *)
Definition capitalize (str : string) : string :=
  toUpperCase (take 1 str) +:+ drop 1 str.

(** [/([a-z])([A-Z])/g] *)
Definition hump_regex : regex := (Grp 1 (Cls is_lower) · Grp 2 (Cls is_upper))%re.

(** [/\s+/g] *)
Definition spaces_regex : regex := Plus true is_space.

(** [/-([a-z])/g] *)
Definition dash_regex : regex := (Chr "-" · Grp 1 (Cls is_lower))%re.

(** The replacement ['$1-$2']. *)
Definition hump_replacement : string -> captures -> result string :=
  fun _ caps => Ok (group 1 caps +:+ "-" +:+ group 2 caps).

(** [str.replace(/([a-z])([A-Z])/g, '$1-$2').replace(/\s+/g, '-').toLowerCase()] *)
Definition kebabCase (str : string) : result string :=
  s1 ← replace hump_regex hump_replacement str;
  s2 ← replace spaces_regex (fun _ _ => Ok "-") s1;
  Ok (toLowerCase s2).

(** [str.replace(/-([a-z])/g, (g) => g[1].toUpperCase())] *)
Definition camelCase (str : string) : result string :=
  replace dash_regex
    (fun g _ =>
       match String.get 1 g with
       | Some c => Ok (toUpperCase (String c ""))
       | None => Err TypeError
       end) str.

(** A helper of one string parameter, as the engine calls it: on a first
    argument that is not a string the method lookup fails and the call
    throws. *)
Definition on_string (f : string -> result string) : helper :=
  fun args =>
    match args with
    | VStr s :: _ =>
        match f s with
        | Ok out => Some out
        | Err _ => None
        end
    | _ => None
    end.

(** [reactTsTemplate.helpers] *)
Definition helpers : list (string * helper) :=
  [("capitalize", on_string (fun s => Ok (capitalize s)));
   ("kebabCase", on_string kebabCase);
   ("camelCase", on_string camelCase)].

(** The lines of a template literal. *)
Definition lines (ls : list string) : string := join (String (ascii_of_nat 10) "") ls.

(** [reactTsTemplate.templates] *)
Definition component_template : string :=
  lines
    ["";
     "import React, { {{#if hasState}}useState{{/if}}{{#if hasEffect}}, useEffect{{/if}} } from 'react';";
     "{{#each imports}}";
     "import { {{item.elements}} } from '{{item.source}}';";
     "{{/each}}";
     "";
     "{{#if hasProps}}";
     "interface {{componentName}}Props {";
     "  {{#each props}}";
     "  {{item.name}}{{#if item.optional}}?{{/if}}: {{item.type}};";
     "  {{/each}}";
     "}";
     "{{/if}}";
     "";
     "/**";
     " * {{componentDescription}}";
     " */";
     "const {{componentName}} = ({{#if hasProps}}props: {{componentName}}Props{{/if}}) => {";
     "  {{#if hasProps}}";
     "  const { {{#each props}}{{item.name}}{{#if item.default}} = {{item.default}}{{/if}}{{#unless @last}}, {{/unless}}{{/each}} } = props;";
     "  {{/if}}";
     "  ";
     "  {{#each state}}";
     "  const [{{item.name}}, set{{capitalize item.name}}] = useState{{#if item.type}}<{{item.type}}>{{/if}}({{item.initialValue}});";
     "  {{/each}}";
     "  ";
     "  {{#each effects}}";
     "  useEffect(() => {";
     "    {{item.code}}";
     "    ";
     "    {{#if item.cleanup}}";
     "    return () => {";
     "      {{item.cleanup}}";
     "    };";
     "    {{/if}}";
     "  }, [{{item.dependencies}}]);";
     "  {{/each}}";
     "  ";
     "  {{#each functions}}";
     "  const {{item.name}} = {{#if item.params}}({{item.params}}){{/if}} => {";
     "    {{item.body}}";
     "  };";
     "  {{/each}}";
     "  ";
     "  return (";
     "    {{jsxContent}}";
     "  );";
     "};";
     "";
     "export default {{componentName}};";
     ""].

Definition page_template : string :=
  lines
    ["";
     "import React from 'react';";
     "{{#each imports}}";
     "import { {{item.elements}} } from '{{item.source}}';";
     "{{/each}}";
     "";
     "/**";
     " * {{pageDescription}}";
     " */";
     "const {{pageName}}Page = () => {";
     "  return (";
     "    <div className=" +:+ double_quote +:+ "page-container" +:+ double_quote +:+ ">";
     "      <h1>{{pageTitle}}</h1>";
     "      <div className=" +:+ double_quote +:+ "page-content" +:+ double_quote +:+ ">";
     "        {{jsxContent}}";
     "      </div>";
     "    </div>";
     "  );";
     "};";
     "";
     "export default {{pageName}}Page;";
     ""].

Definition styles_template : string :=
  lines
    ["";
     "{{#if isModule}}";
     "/* {{componentName}}.module.css */";
     ".container {";
     "  {{#each styles}}";
     "  {{item.property}}: {{item.value}};";
     "  {{/each}}";
     "}";
     "{{else}}";
     "/* {{componentName}}.css */";
     ".{{kebabCase componentName}}-container {";
     "  {{#each styles}}";
     "  {{item.property}}: {{item.value}};";
     "  {{/each}}";
     "}";
     "{{/if}}";
     ""].

Definition index_template : string :=
  lines
    ["";
     "export { default as {{componentName}} } from './{{componentName}}';";
     ""].

(** [reactTsTemplate] *)
Definition reactTsTemplate : CodeGenerator.TemplateConfig :=
  {| CodeGenerator.name := "React TypeScript";
     CodeGenerator.config_framework := CodeGenerator.react;
     CodeGenerator.config_language := CodeGenerator.typescript;
     CodeGenerator.config_templates :=
       {| CodeGenerator.component := component_template;
          CodeGenerator.page := page_template;
          CodeGenerator.styles := styles_template;
          CodeGenerator.index := index_template |};
     CodeGenerator.config_helpers := Some helpers |}.

(** An identifier in camel case: ASCII, without dash or white space, every
    capital right behind a small letter. *)
Fixpoint camel_shaped_from (after_lower : bool) (s : string) : bool :=
  match s with
  | "" => true
  | String c s' =>
      negb (Ascii.eqb c "-") && negb (is_space c) && (code c <? 128)%N
      && (negb (is_upper c) || after_lower)
      && camel_shaped_from (is_lower c) s'
  end.

Definition camel_shaped (s : string) : bool := camel_shaped_from false s.

(** Neither a capital nor white space. *)
Definition plain (c : ascii) : bool := negb (is_upper c) && negb (is_space c).

(** A dash before every capital. *)
Fixpoint dashed (s : string) : string :=
  match s with
  | "" => ""
  | String c s' => if is_upper c then String "-" (String c (dashed s')) else String c (dashed s')
  end.

End ReactTemplate.

(** Templates of code: the text between the markers may hold single
    braces. *)
Module CodeTemplates.
Import Str Regex Value TemplateEngine Markers.

(** No two opening braces in a row, and no opening brace at the end. *)
Definition code_text (t : string) : bool :=
  negb (includes "{{" t) && negb (String.eqb (last_char t) "{").

Definition code_formed (sg : segment) : bool :=
  match sg with
  | Text t => code_text t
  | Marker body => negb (String.eqb body "") && all not_close body
  end.

(** A pattern that can only match where two opening braces stand. *)
Definition starts_pair (re : regex) : Prop :=
  forall s, starts_with "{{" s = false -> exec re s = None.

(** The context in which [processLoops] renders the content for one
    element: [{...context, item, index}]. *)
Definition item_context (ctx : context) (index : nat) (item : value) : context :=
  assoc_set "index" (int (Z.of_nat index)) (assoc_set "item" item ctx).

(** The content [segs] with its markers replaced, once for every element. *)
Fixpoint expand_items (segs : list segment) (ctx : context) (index : nat)
    (items : list value) : result (list string) :=
  match items with
  | [] => Ok []
  | item :: items' =>
      first ← expand (item_context ctx index item) segs;
      rest ← expand_items segs ctx (S index) items';
      Ok (first :: rest)
  end.

(** [ReactTemplate.index_template], cut into text and markers. *)
Definition index_segments : list segment :=
  [Text (String (ascii_of_nat 10) "export { default as "); Marker "componentName";
   Text " } from './"; Marker "componentName";
   Text ("';" +:+ String (ascii_of_nat 10) "")].

(** What [index_template] renders to for the component name [n]. *)
Definition index_code (n : string) : string :=
  String (ascii_of_nat 10) "export { default as " +:+ n +:+ " } from './" +:+ n
  +:+ "';" +:+ String (ascii_of_nat 10) "".

End CodeTemplates.

(** ** CodeGenerator.generatePage *)

Module CodeGeneratorPages.
Import Value CodeGenerator.

(** The options that [generatePage] reads. *)
Record GeneratePageOptions : Type := {
  pageName : option string;
  pageTitle : option string;
  page_description : option string       (* [description] *)
}.

(** [{}], the default of the [options] parameter. *)
Definition no_page_options : GeneratePageOptions :=
  {| pageName := None; pageTitle := None; page_description := None |}.

(** The object that [generatePage] returns has the one property [main]. *)
Record GeneratedPage : Type := { page_main : artifact }.

(** [{...analysis, ...options}] *)
Definition spread_page_options (o : GeneratePageOptions) (ctx : TemplateEngine.context)
    : TemplateEngine.context :=
  let ctx := match pageName o with
             | Some s => assoc_set "pageName" (VStr s) ctx
             | None => ctx
             end in
  let ctx := match pageTitle o with
             | Some s => assoc_set "pageTitle" (VStr s) ctx
             | None => ctx
             end in
  match page_description o with
  | Some s => assoc_set "description" (VStr s) ctx
  | None => ctx
  end.

Section Generate.
(** [analyzePage] is a method the source leaves out. *)
Variable analyzePage : list ComponentSchema -> TemplateEngine.context.

Definition generatePage (g : t) (components : list ComponentSchema)
    (options : GeneratePageOptions) : result GeneratedPage :=
  let templateName : option string :=
    or_else (activeTemplate g) (getDefaultTemplateName g) Some in
  let pageAnalysis := analyzePage components in
  let the_name := or_else (pageName options) "Default" (fun s => s) in
  let the_title :=
    or_else (pageTitle options)
      (or_else (pageName options) "Default Page" (fun s => s)) (fun s => s) in
  let context :=
    assoc_set "pageDescription"
      (VStr (or_else (page_description options) "Generated page" (fun s => s)))
      (assoc_set "pageTitle" (VStr the_title)
         (assoc_set "pageName" (VStr the_name)
            (spread_page_options options pageAnalysis))) in
  pageCode ← TemplateEngine.render (templateEngine g)
                (interpolate templateName +:+ ":page") context;
  Ok {| page_main := {| content := pageCode; filename := the_name +:+ "Page.tsx" |} |}.
End Generate.

End CodeGeneratorPages.

(** Vocabulary of the statements about the generator. *)
Module GeneratorNames.
Import Value CodeGenerator Generators.

(** The name under which the template [key] of the configuration [n] is
    registered with the engine. *)
Definition engine_name (n key : string) : string := n +:+ ":" +:+ key.

(** The value of [context.componentName] in [generateComponent]. *)
Definition component_name (generateComponentName : ComponentSchema -> string)
    (c : ComponentSchema) (o : GenerateOptions) : string :=
  or_else (componentName o) (generateComponentName c) (fun s => s).

(** The value of [context] in [generateComponent]. *)
Definition component_context (analyzeComponent : ComponentSchema -> TemplateEngine.context)
    (generateComponentName : ComponentSchema -> string)
    (c : ComponentSchema) (o : GenerateOptions) : TemplateEngine.context :=
  assoc_set "componentDescription"
    (VStr (or_else (description o) (type c +:+ " component") (fun s => s)))
    (assoc_set "componentName" (VStr (component_name generateComponentName c o))
       (spread_options o (analyzeComponent c))).

(** The value of [context.pageName] and of [context.pageTitle] in
    [generatePage]. *)
Definition page_name (o : CodeGeneratorPages.GeneratePageOptions) : string :=
  or_else (CodeGeneratorPages.pageName o) "Default" (fun s => s).

Definition page_title (o : CodeGeneratorPages.GeneratePageOptions) : string :=
  or_else (CodeGeneratorPages.pageTitle o)
    (or_else (CodeGeneratorPages.pageName o) "Default Page" (fun s => s)) (fun s => s).

(** The value of [context] in [generatePage]. *)
Definition page_context (analyzePage : list ComponentSchema -> TemplateEngine.context)
    (components : list ComponentSchema) (o : CodeGeneratorPages.GeneratePageOptions)
    : TemplateEngine.context :=
  assoc_set "pageDescription"
    (VStr (or_else (CodeGeneratorPages.page_description o) "Generated page" (fun s => s)))
    (assoc_set "pageTitle" (VStr (page_title o))
       (assoc_set "pageName" (VStr (page_name o))
          (CodeGeneratorPages.spread_page_options o (analyzePage components)))).

(** [Object.keys(config.templates)] *)
Definition template_keys : list string := ["component"; "page"; "styles"; "index"].

(** What holds of every generator that the public methods build: the active
    name is that of a registered configuration, and the templates of every
    registered configuration are the ones the engine holds under its name. *)
Definition consistent (g : t) : Prop :=
  (forall n, activeTemplate g = Some n -> OrderedMap.has n (templates g) = true) /\
  (forall n config,
     OrderedMap.get n (templates g) = Some config ->
     name config = n /\
     forall key tpl,
       In (key, tpl) (template_entries (config_templates config)) ->
       TemplateEngine.templates (templateEngine g) !! engine_name n key = Some tpl).

(** A configuration with the helpers [hs]. *)
Definition with_helpers (hs : list (string * TemplateEngine.helper))
    (config : TemplateConfig) : TemplateConfig :=
  {| name := name config; config_framework := config_framework config;
     config_language := config_language config;
     config_templates := config_templates config;
     config_helpers := Some hs |}.

Definition main_extension (config : TemplateConfig) : string :=
  match config_language config with typescript => "tsx" | javascript => "jsx" end.

Definition index_extension (config : TemplateConfig) : string :=
  match config_language config with typescript => "ts" | javascript => "js" end.

End GeneratorNames.

(** ** DynamicImportManager.optimizeBundles

    A usage, like a weight, is a finite number that the model takes as its
    exact value. *)

Module DynamicImportBundles.
Import DynamicImportManager.

(** A [Set<string>]: its elements in the order of their first insertion. *)
Definition string_set : Type := list string.

Definition set_has (x : string) (s : string_set) : bool := List.existsb (String.eqb x) s.

(** [s.add(x)] *)
Definition set_add (x : string) (s : string_set) : string_set :=
  if set_has x s then s else (s ++ [x])%list.

(** The private [bundles]. *)
Definition bundles : Type := OrderedMap.t string_set.

(** The three local sets of [optimizeBundles]. *)
Record usage_sets : Type := {
  highUsage : string_set;
  mediumUsage : string_set;
  lowUsage : string_set
}.

Definition high_threshold : Q := 0.7%Q.
Definition medium_threshold : Q := 0.3%Q.

(** The callback of [forEach]. *)
Definition classify (sets : usage_sets) (entry : string * Q) : usage_sets :=
  let '(component, usage) := entry in
  if gtb usage high_threshold
  then {| highUsage := set_add component (highUsage sets);
          mediumUsage := mediumUsage sets; lowUsage := lowUsage sets |}
  else if gtb usage medium_threshold
  then {| highUsage := highUsage sets;
          mediumUsage := set_add component (mediumUsage sets);
          lowUsage := lowUsage sets |}
  else {| highUsage := highUsage sets; mediumUsage := mediumUsage sets;
          lowUsage := set_add component (lowUsage sets) |}.

(** [usageData] is given by [Object.entries(usageData)]; the bundles that
    were there are cleared first. *)
Definition optimizeBundles (usageData : list (string * Q)) (b : bundles) : bundles :=
  let cleared : bundles := [] in
  let sets :=
    List.fold_left classify usageData
      {| highUsage := []; mediumUsage := []; lowUsage := [] |} in
  OrderedMap.set "low-priority" (lowUsage sets)
    (OrderedMap.set "medium-priority" (mediumUsage sets)
       (OrderedMap.set "high-priority" (highUsage sets) cleared)).

(** The components of [usageData] whose usage satisfies [p], in order. *)
Definition components_where (p : Q -> bool) (usageData : list (string * Q)) : list string :=
  List.map fst (List.filter (fun entry => p (snd entry)) usageData).

Definition is_high (usage : Q) : bool := gtb usage high_threshold.
Definition is_medium (usage : Q) : bool :=
  negb (gtb usage high_threshold) && gtb usage medium_threshold.
Definition is_low (usage : Q) : bool :=
  negb (gtb usage high_threshold) && negb (gtb usage medium_threshold).

End DynamicImportBundles.

(** ** VersionManagementService

    The source declares neither [Project] nor [Version]; the records hold
    the properties that the two methods read and write, and [other] stands
    for the remaining properties of a project, which [{...project}] copies.
    A schema is plain data: [structuredClone] gives an equal value, and the
    identity of objects is not modelled.  The texts of the label and of the
    error are kept as their UTF-8 bytes. *)

Module VersionManagementService.
Section Service.
Variables Schema Other : Type.

Record Version : Type := {
  version_id : string;                 (* [id] *)
  projectId : string;
  timestamp : Z;
  version_schema : Schema;             (* [schema] *)
  label : string;
  createdBy : string
}.

Record Project : Type := {
  id : string;
  schema : Schema;
  versions : list Version;
  other : Other
}.

(** What one call of [createVersion] gets from outside: the results of
    [generateUUID()], [Date.now()] and [getCurrentUser().id]. *)
Record environment : Type := {
  generateUUID : string;
  now : Z;
  currentUser : string
}.

Definition structuredClone (s : Schema) : Schema := s.

(** [`${n}`] for the length of an array, which prints as its decimal
    digits. *)
Definition count_to_string (n : nat) : string := Num.digits (N.of_nat n).

Definition createVersion (env : environment) (project : Project) : Version :=
  {| version_id := generateUUID env;
     projectId := id project;
     timestamp := now env;
     version_schema := structuredClone (schema project);
     label := "版本 " +:+ count_to_string (List.length (versions project) + 1);
     createdBy := currentUser env |}.

(** [restoreVersion] returns the project or throws
    [Error(`版本不存在: ${versionId}`)]. *)
Inductive restored : Type :=
| Restored (project : Project)
| VersionNotFoundError (versionId : string).

Definition restoreVersion (env : environment) (project : Project) (versionId : string)
    : restored :=
  match List.find (fun v => String.eqb (version_id v) versionId) (versions project) with
  | None => VersionNotFoundError versionId
  | Some version =>
      let currentVersion := createVersion env project in
      Restored {| id := id project;
                  schema := structuredClone (version_schema version);
                  versions := (versions project ++ [currentVersion])%list;
                  other := other project |}
  end.

End Service.
Arguments version_id {Schema}.
Arguments projectId {Schema}.
Arguments timestamp {Schema}.
Arguments version_schema {Schema}.
Arguments label {Schema}.
Arguments createdBy {Schema}.
Arguments id {Schema Other}.
Arguments schema {Schema Other}.
Arguments versions {Schema Other}.
Arguments other {Schema Other}.
Arguments Restored {Schema Other}.
Arguments VersionNotFoundError {Schema Other}.
Arguments createVersion {Schema Other}.
Arguments restoreVersion {Schema Other}.
End VersionManagementService.

(** * Properties *)

#[local] Arguments String.append : simpl nomatch.

Example num_to_string_examples :
  Num.to_string (Num.of_Z 3) = Some "3" /\
  Num.to_string (Num.of_Z (-120)) = Some "-120" /\
  Num.to_string (Num.Dec 1250 3) = Some "1.25" /\
  Num.to_string (Num.Dec (-5) 2) = Some "-0.05" /\
  Num.to_string (Num.Dec 0 0) = Some "0" /\
  Num.to_string (Num.Dec 1 6) = Some "0.000001" /\
  Num.to_string (Num.Dec 1 7) = Some "1e-7" /\
  Num.to_string (Num.Dec (10 ^ 20) 0) = Some "100000000000000000000" /\
  Num.to_string (Num.Dec (10 ^ 21) 0) = Some "1e+21" /\
  Num.to_string (Num.Dec (12345 * 10 ^ 21) 0) = Some "1.2345e+25" /\
  Num.to_string (Num.Dec 9007199254740993 0) = None /\
  Num.parse_float "-12.50" = Some (Num.Dec (-1250) 2) /\
  Num.parse_float "9007199254740993" = None /\
  Num.of_string " 4.0 " = Some (Num.Dec 40 1) /\
  Num.of_string "four" = Some Num.NaN /\
  Num.of_string "1e3" = None /\
  Num.eqb (Num.Dec 40 1) (Num.of_Z 4) = Some true.
Proof. repeat split; reflexivity. Qed.

Example split_examples :
  Str.split_char "." "user.name" = ["user"; "name"] /\
  Str.split_str "==" "a == b" = ["a "; " b"] /\
  Str.split_ws " a  b" = [""; "a"; "b"] /\
  Str.split_ws "" = [""].
Proof. repeat split; reflexivity. Qed.

Example regex_examples :
  Regex.exec TemplateEngine.variable_regex "{{  a b  }}x" = Some ([(1%nat, "a b")], "x") /\
  Regex.exec TemplateEngine.variable_regex "{{}}" = None /\
  Regex.exec TemplateEngine.helperRegex "{{up 1 q}}!"
    = Some ([(2%nat, "1 q"); (1%nat, "up")], "!") /\
  Regex.exec TemplateEngine.conditionalRegex "{{#if a}}X{{/if}}{{/if}}"
    = Some ([(2%nat, "X"); (1%nat, "a")], "{{/if}}") /\
  Regex.test_anchored TemplateEngine.number_regex "-12.50" = true /\
  Regex.test_anchored TemplateEngine.number_regex "12." = false /\
  Regex.test_anchored TemplateEngine.number_regex "1a" = false.
Proof. repeat split; reflexivity. Qed.

Example resolveValue_examples :
  TemplateEngine.resolveValue " 42 " [] = Ok (Value.int 42) /\
  TemplateEngine.resolveValue "true" [] = Ok (Value.VBool true) /\
  TemplateEngine.resolveValue "a.length" [("a", Value.VStr "xyz")] = Ok (Value.int 3) /\
  TemplateEngine.resolveValue "a.b" [("a", Value.VNull)] = Ok Value.VUndefined /\
  TemplateEngine.resolveValue "a" [("a", Value.VNull)] = Ok Value.VNull /\
  TemplateEngine.resolveValue "a.b" [] = Ok Value.VUndefined /\
  TemplateEngine.resolveValue "constructor" [] = Ok (Value.VNative true "Object") /\
  TemplateEngine.resolveValue "constructor.caller" [] = Err TypeError /\
  TemplateEngine.resolveValue "constructor.name" [] = Ok (Value.VStr "Object") /\
  TemplateEngine.resolveValue "valueOf.name" [] = Ok (Value.VStr "valueOf") /\
  TemplateEngine.resolveValue "valueOf.length" [] = Err OutsideModel /\
  TemplateEngine.resolveValue "9007199254740993" [] = Err OutsideModel.
Proof. repeat split; reflexivity. Qed.

Example to_string_examples :
  Value.to_string (Value.VArr 1 [Value.int 1; Value.VNull; Value.VArr 2 [Value.VStr "x"]])
    = Ok "1,,x" /\
  Value.to_string (Value.VObj 1 [("a", Value.int 1)]) = Ok "[object Object]" /\
  Value.to_string (Value.VObj 1 [("toString", Value.int 1)]) = Err TypeError /\
  Value.to_string (Value.VObj 1 [("valueOf", Value.int 1)]) = Ok "[object Object]" /\
  Value.to_string (Value.VNative true "Object") = Err OutsideModel /\
  Value.loose_eq (Value.int 1) (Value.VStr "1") = Ok true /\
  Value.loose_eq (Value.VArr 1 [Value.int 1]) (Value.int 1) = Ok true /\
  Value.loose_eq (Value.VStr "1e3") (Value.int 1000) = Err OutsideModel /\
  Value.loose_eq Value.VNull Value.VUndefined = Ok true /\
  Value.loose_eq Value.VNull (Value.int 0) = Ok false.
Proof. repeat split; reflexivity. Qed.

Example marker_path_examples :
  Markers.marker_path " user.name " = "user.name" /\
  Markers.marker_path "#if a == b" = "#if a == b" /\
  Markers.marker_path "   " = " ".
Proof. repeat split; reflexivity. Qed.

Module StrFacts.
Import Str.

Lemma bind_Ok {A B} (a : A) (f : A -> result B) : (Ok a ≫= f) = f a.
Proof. reflexivity. Qed.

(** A sequence fails with the exception of its first step, or with the one
    of the rest after a first step that returned. *)
Lemma bind_error {A B} (m : result A) (f : A -> result B) (e : error) :
  (m ≫= f) = Err e -> m = Err e \/ exists a, m = Ok a /\ f a = Err e.
Proof. destruct m as [a|e']; cbn; [eauto | intros [= <-]; now left]. Qed.

Lemma bind_result {A B} (m : result A) (f : A -> result B) (b : B) :
  (m ≫= f) = Ok b -> exists a, m = Ok a /\ f a = Ok b.
Proof. destruct m as [a|e']; cbn; [eauto | discriminate]. Qed.

Lemma includes_cons (p : string) (c : ascii) (s : string) :
  includes p (String c s) = starts_with p (String c s) || includes p s.
Proof. reflexivity. Qed.

Lemma app_cons (c : ascii) (s t : string) : String c s +:+ t = String c (s +:+ t).
Proof. reflexivity. Qed.

Lemma app_nil_l (s : string) : "" +:+ s = s.
Proof. reflexivity. Qed.

Lemma app_nil_r (s : string) : s +:+ "" = s.
Proof. induction s as [|c s IH]; simpl; [reflexivity | now rewrite IH]. Qed.

Lemma app_assoc (a b c : string) : (a +:+ b) +:+ c = a +:+ (b +:+ c).
Proof. induction a as [|x a IH]; simpl; [reflexivity | now rewrite IH]. Qed.

Lemma length_app (a b : string) :
  String.length (a +:+ b) = (String.length a + String.length b)%nat.
Proof. induction a as [|x a IH]; simpl; [reflexivity | now rewrite IH]. Qed.

Lemma take_app (x rest : string) : take (String.length x) (x +:+ rest) = x.
Proof. induction x as [|c x IH]; simpl; [now destruct rest | now rewrite IH]. Qed.

Lemma all_app (p : ascii -> bool) (a b : string) :
  all p (a +:+ b) = all p a && all p b.
Proof.
  induction a as [|x a IH]; simpl; [reflexivity |].
  rewrite IH. now destruct (p x).
Qed.

End StrFacts.

Module RegexFacts.
Import Str Regex Markers StrFacts.

Lemma consumed_app (x rest : string) : consumed (x +:+ rest) rest = x.
Proof.
  unfold consumed. rewrite length_app.
  replace (String.length x + String.length rest - String.length rest)%nat
    with (String.length x) by lia.
  apply take_app.
Qed.

Lemma consumed_cons_app (c : ascii) (x rest : string) :
  consumed (String c (x +:+ rest)) rest = String c x.
Proof. apply (consumed_app (String c x) rest). Qed.

Section Replace.
Variable re : regex.
Variable cb : string -> captures -> result string.

Lemma replace_from_unfold (s : string) :
  replace_from re cb 0 s =
  match exec re s with
  | Some (caps, rest) =>
      let len := (String.length s - String.length rest)%nat in
      out ← cb (take len s) caps;
      tail ← match s with
             | "" => Ok ""
             | String c s' =>
                 match len with
                 | O => t ← replace_from re cb 0 s'; Ok (String c t)
                 | S n => replace_from re cb n s'
                 end
             end;
      Ok (out +:+ tail)
  | None =>
      match s with
      | "" => Ok ""
      | String c s' => t ← replace_from re cb 0 s'; Ok (String c t)
      end
  end.
Proof. destruct s; reflexivity. Qed.

(** Passing over the rest of a match. *)
Lemma replace_from_skip (x rest : string) :
  replace_from re cb (String.length x) (x +:+ rest) = replace_from re cb 0 rest.
Proof.
  induction x as [|c x IH]; simpl.
  - destruct rest; reflexivity.
  - exact IH.
Qed.

(** A non-empty match at the beginning of the input. *)
Lemma replace_match (c : ascii) (m rest : string) (caps : captures) :
  exec re (String c m +:+ rest) = Some (caps, rest) ->
  replace re cb (String c m +:+ rest) =
  (out ← cb (String c m) caps; tail ← replace re cb rest; Ok (out +:+ tail)).
Proof.
  intros Hexec. unfold replace. rewrite replace_from_unfold, Hexec.
  cbv zeta.
  rewrite length_app.
  replace (String.length (String c m) + String.length rest - String.length rest)%nat
    with (String.length (String c m)) by lia.
  rewrite take_app. cbn [String.length append].
  now rewrite replace_from_skip.
Qed.

(** No match at the beginning of the input: its first character is kept. *)
Lemma replace_nomatch (c : ascii) (s : string) :
  exec re (String c s) = None ->
  replace re cb (String c s) = (t ← replace re cb s; Ok (String c t)).
Proof.
  intros Hexec. unfold replace. now rewrite replace_from_unfold, Hexec.
Qed.

Lemma replace_empty : exec re "" = None -> replace re cb "" = Ok "".
Proof. intros Hexec. unfold replace. now rewrite replace_from_unfold, Hexec. Qed.

(** The replacement never throws when the callback does not. *)
Lemma replace_from_total :
  (forall m caps, exists out, cb m caps = Ok out) ->
  forall s skip, exists out, replace_from re cb skip s = Ok out.
Proof.
  intros Hcb. induction s as [|c s IH]; intros skip.
  - destruct skip; [|eexists; reflexivity].
    rewrite replace_from_unfold.
    destruct (exec re "") as [[caps rest]|]; [|eexists; reflexivity].
    cbv zeta. destruct (Hcb (take (String.length "" - String.length rest) "") caps) as [out ->].
    eexists; reflexivity.
  - destruct skip as [|n]; [|apply IH].
    rewrite replace_from_unfold.
    destruct (exec re (String c s)) as [[caps rest]|].
    + cbv zeta.
      destruct (Hcb (take (String.length (String c s) - String.length rest) (String c s)) caps)
        as [out ->].
      destruct (String.length (String c s) - String.length rest)%nat as [|n].
      * destruct (IH 0%nat) as [t Ht]. rewrite Ht. eexists; reflexivity.
      * destruct (IH n) as [t Ht]. cbn. rewrite Ht. eexists; reflexivity.
    + destruct (IH 0%nat) as [t Ht]. rewrite Ht. eexists; reflexivity.
Qed.

(** An exception of the replacement is one of the callback. *)
Lemma replace_from_error (e : error) :
  forall s skip,
    replace_from re cb skip s = Err e -> exists m caps, cb m caps = Err e.
Proof.
  induction s as [|c s IH]; intros skip.
  - destruct skip; [|discriminate].
    rewrite replace_from_unfold.
    destruct (exec re "") as [[caps rest]|]; [|discriminate].
    cbv zeta.
    destruct (cb (take (String.length "" - String.length rest) "") caps) eqn:Hcb;
      [discriminate|].
    intros H. injection H as <-. eauto.
  - destruct skip as [|n]; [|apply IH].
    rewrite replace_from_unfold.
    destruct (exec re (String c s)) as [[caps rest]|].
    + cbv zeta.
      destruct (cb (take (String.length (String c s) - String.length rest) (String c s)) caps)
        eqn:Hcb.
      * destruct (String.length (String c s) - String.length rest)%nat as [|n].
        -- destruct (replace_from re cb 0 s) eqn:Hrest; [discriminate|].
           intros H. injection H as <-. now apply (IH 0%nat).
        -- cbn. destruct (replace_from re cb n s) eqn:Hrest; [discriminate|].
           intros H. injection H as <-. now apply (IH n).
      * intros H. injection H as <-. eauto.
    + destruct (replace_from re cb 0 s) eqn:Hrest; [discriminate|].
      intros H. injection H as <-. now apply (IH 0%nat).
Qed.

End Replace.

Lemma replace_lacks_app (a : ascii) (re : regex) cb (x rest : string) :
  starts_at a re -> lacks a x = true ->
  replace re cb (x +:+ rest) = (t ← replace re cb rest; Ok (x +:+ t)).
Proof.
  intros [_ Hre]. induction x as [|c x IH]; intros Hx.
  - change ("" +:+ rest) with rest.
    destruct (replace re cb rest); reflexivity.
  - cbn in Hx. apply andb_prop in Hx as [Hc Hx].
    apply negb_true_iff in Hc.
    cbn [append]. rewrite replace_nomatch by now apply Hre.
    rewrite (IH Hx). destruct (replace re cb rest); reflexivity.
Qed.

Lemma replace_lacks (a : ascii) (re : regex) cb (x : string) :
  starts_at a re -> lacks a x = true -> replace re cb x = Ok x.
Proof.
  intros Hre Hx. rewrite <- (app_nil_r x) at 1.
  rewrite (replace_lacks_app a) by assumption.
  rewrite replace_empty by apply Hre.
  change (Ok (x +:+ "") = Ok x). now rewrite app_nil_r.
Qed.

End RegexFacts.

Module VariableRegexFacts.
Import Str Regex TemplateEngine Markers StrFacts RegexFacts.

Lemma exec_variable_regex (s : string) :
  exec variable_regex ("{{" +:+ s) = star_greedy is_space s [] body_k.
Proof. reflexivity. Qed.

Lemma space_not_close (c : ascii) : is_space c = true -> not_close c = true.
Proof.
  unfold not_close. destruct (Ascii.eqb_spec c "}") as [->|]; [discriminate | reflexivity].
Qed.

Lemma close_k_fail (c : ascii) (s : string) (caps : captures) :
  not_close c = true -> close_k (String c s) caps = None.
Proof.
  unfold not_close, close_k. intros Hc. cbn [lit rmatch].
  rewrite Ascii.eqb_sym. now destruct (Ascii.eqb c "}").
Qed.

(** [\s*\}\}] after the group: succeeds exactly when only white space is
    left before the closing braces. *)
Lemma tail_k_spec (x rest : string) (caps : captures) :
  all not_close x = true ->
  tail_k (x +:+ "}}" +:+ rest) caps =
  if all is_space x then Some (caps, rest) else None.
Proof.
  induction x as [|c x IH]; intros Hx.
  - reflexivity.
  - cbn in Hx. apply andb_prop in Hx as [Hc Hx].
    unfold tail_k in *. rewrite app_cons. cbn [star_greedy all].
    destruct (is_space c) eqn:Hs; cbn [andb].
    + rewrite (IH Hx). destruct (all is_space x); [reflexivity|].
      now apply close_k_fail.
    + now apply close_k_fail.
Qed.

(** [[^}]*?] inside the group: the shortest extension after which only white
    space is left. *)
Lemma star_lazy_unfold {R} (p : ascii -> bool) (s : string) (caps : captures)
    (k : @cont R) :
  star_lazy p s caps k =
  match k s caps with
  | Some r => Some r
  | None =>
      match s with
      | String c s' => if p c then star_lazy p s' caps k else None
      | "" => None
      end
  end.
Proof. destruct s; reflexivity. Qed.

Lemma star_lazy_spec (pre x rest : string) (caps : captures) :
  all not_close x = true ->
  star_lazy not_close (x +:+ "}}" +:+ rest) caps
    (group_k (pre +:+ x +:+ "}}" +:+ rest)) =
  Some (set_cap 1 (pre +:+ drop_while_end is_space x) caps, rest).
Proof.
  revert pre. induction x as [|c x IH]; intros pre Hx;
    rewrite star_lazy_unfold; unfold group_k at 1;
    rewrite consumed_app, (tail_k_spec _ rest) by exact Hx.
  - cbn [all drop_while_end]. now rewrite app_nil_r.
  - cbn [drop_while_end].
    destruct (all is_space (String c x)) eqn:Hall; [now rewrite app_nil_r|].
    cbn in Hx. apply andb_prop in Hx as [Hc Hx].
    rewrite app_cons, Hc.
    specialize (IH (pre +:+ String c "") Hx).
    rewrite !app_assoc in IH. exact IH.
Qed.

Lemma body_k_spec (c : ascii) (x rest : string) (caps : captures) :
  not_close c = true -> all not_close x = true ->
  body_k (String c x +:+ "}}" +:+ rest) caps =
  Some (set_cap 1 (String c (drop_while_end is_space x)) caps, rest).
Proof.
  intros Hc Hx. unfold body_k, Plus. rewrite app_cons. cbn [rmatch]. rewrite Hc.
  exact (star_lazy_spec (String c "") x rest caps Hx).
Qed.

Lemma star_greedy_body (body rest : string) :
  all not_close body = true ->
  star_greedy is_space (body +:+ "}}" +:+ rest) [] body_k =
  option_map (fun p => ([(1%nat, p)], rest)) (captured body).
Proof.
  induction body as [|c body IH]; intros Hb.
  - reflexivity.
  - cbn in Hb. apply andb_prop in Hb as [Hc Hb].
    rewrite app_cons. cbn [star_greedy captured]. rewrite <- app_cons.
    rewrite (body_k_spec c body rest [] Hc Hb).
    destruct (is_space c); [|reflexivity].
    rewrite (IH Hb). now destruct (captured body).
Qed.

Lemma captured_nonempty (c : ascii) (body : string) :
  exists p, captured (String c body) = Some p.
Proof.
  cbn. destruct (is_space c); [destruct (captured body)|]; eexists; reflexivity.
Qed.

Lemma drop_while_end_all (p : ascii -> bool) (s : string) :
  all p s = true -> drop_while_end p s = "".
Proof. destruct s; cbn; [reflexivity|]. now intros ->. Qed.

Lemma captured_cons (c : ascii) (body : string) :
  captured (String c body) =
  if is_space c
  then match captured body with
       | Some p => Some p
       | None => Some (String c (drop_while_end is_space body))
       end
  else Some (String c (drop_while_end is_space body)).
Proof. reflexivity. Qed.

Lemma trim_cons (c : ascii) (s : string) :
  trim (String c s) =
  if is_space c then trim s else String c (drop_while_end is_space s).
Proof.
  unfold trim. cbn [drop_while]. destruct (is_space c) eqn:Hc; [reflexivity|].
  cbn [drop_while_end all]. now rewrite Hc.
Qed.

Lemma captured_marker_path (c : ascii) (body : string) :
  captured (String c body) = Some (marker_path (String c body)).
Proof.
  revert c. induction body as [|d body IH]; intros c;
    rewrite captured_cons; unfold marker_path; rewrite trim_cons.
  - now destruct (is_space c).
  - rewrite (IH d). destruct (is_space c); reflexivity.
Qed.

(** The match of [variable_regex] at a marker: it ends with the first [}}]
    and its group is [marker_path body]. *)
Lemma exec_marker (c : ascii) (body rest : string) :
  all not_close (String c body) = true ->
  exec variable_regex ("{{" +:+ String c body +:+ "}}" +:+ rest) =
  Some ([(1%nat, marker_path (String c body))], rest).
Proof.
  intros Hb. rewrite exec_variable_regex, (star_greedy_body _ _ Hb).
  now rewrite captured_marker_path.
Qed.

End VariableRegexFacts.

Module MatcherFacts.
Import Str Regex Markers StrFacts RegexFacts VariableRegexFacts Blocks.

Section Continuations.
Context {R : Type}.
Implicit Types (k : @cont R) (caps : captures).

Lemma rmatch_seq (r1 r2 : regex) (s : string) caps k :
  rmatch (Seq r1 r2) s caps k = rmatch r1 s caps (fun s' caps' => rmatch r2 s' caps' k).
Proof. reflexivity. Qed.

(** A literal matches exactly its own text. *)
Lemma rmatch_lit (t s : string) caps k :
  rmatch (lit t) s caps k =
  if starts_with t s then k (drop (String.length t) s) caps else None.
Proof.
  revert s. induction t as [|a t IH]; intros s.
  - now destruct s.
  - cbn [lit]. rewrite rmatch_seq. cbn [rmatch].
    destruct s as [|c s]; [reflexivity|].
    cbn [starts_with String.length drop].
    destruct (Ascii.eqb a c); [apply IH | reflexivity].
Qed.

Lemma starts_with_app (t u : string) : starts_with t (t +:+ u) = true.
Proof.
  induction t as [|a t IH]; [reflexivity|].
  rewrite app_cons. cbn. now rewrite Ascii.eqb_refl.
Qed.

Lemma drop_length_app (x y : string) : drop (String.length x) (x +:+ y) = y.
Proof. induction x as [|c x IH]; [now destruct y | exact IH]. Qed.

Lemma rmatch_lit_app (t u : string) caps k :
  rmatch (lit t) (t +:+ u) caps k = k u caps.
Proof. now rewrite rmatch_lit, starts_with_app, drop_length_app. Qed.

Lemma rmatch_lit_reject (a c : ascii) (t u : string) caps k :
  Ascii.eqb a c = false -> rmatch (lit (String a t)) (String c u) caps k = None.
Proof. intros H. rewrite rmatch_lit. cbn. now rewrite H. Qed.

(** A greedy run that is followed by something it cannot take, when what
    follows the run matches. *)
Lemma star_greedy_run (p : ascii -> bool) (w s : string) caps k (r : R) :
  all p w = true ->
  k s caps = Some r ->
  match s with "" => True | String c _ => p c = false end ->
  star_greedy p (w +:+ s) caps k = Some r.
Proof.
  intros Hw Hk Hs. induction w as [|c w IH].
  - cbn [append]. destruct s as [|c s]; cbn [star_greedy]; [exact Hk|].
    now rewrite Hs.
  - cbn in Hw. apply andb_prop in Hw as [Hc Hw].
    rewrite app_cons. cbn [star_greedy]. now rewrite Hc, (IH Hw).
Qed.

Lemma star_greedy_unfold (p : ascii -> bool) (s : string) caps k :
  star_greedy p s caps k =
  match s with
  | String c s' =>
      if p c
      then match star_greedy p s' caps k with
           | Some r => Some r
           | None => k s caps
           end
      else k s caps
  | "" => k s caps
  end.
Proof. destruct s; reflexivity. Qed.

(** [\s*\}\}] followed by [rest_re]. *)
Lemma close_after_space (rest_re : regex) (x rest : string) caps k :
  all not_close x = true ->
  star_greedy is_space (x +:+ "}}" +:+ rest) caps
    (fun s c => rmatch (Seq (lit "}}") rest_re) s c k) =
  if all is_space x then rmatch rest_re rest caps k else None.
Proof.
  induction x as [|a x IH]; intros Hx.
  - change ("" +:+ "}}" +:+ rest) with ("}}" +:+ rest).
    rewrite star_greedy_unfold.
    change ("}}" +:+ rest) with (String "}" (String "}" rest)) at 1.
    cbn [is_space code]. cbn [all].
    rewrite rmatch_seq. apply rmatch_lit_app.
  - cbn in Hx. apply andb_prop in Hx as [Ha Hx].
    assert (Hfail : rmatch (Seq (lit "}}") rest_re)
                      (String a (x +:+ "}}" +:+ rest)) caps k = None).
    { rewrite rmatch_seq. apply rmatch_lit_reject.
      unfold not_close in Ha. apply negb_true_iff in Ha.
      now rewrite Ascii.eqb_sym. }
    rewrite app_cons, star_greedy_unfold. cbn [all].
    destruct (is_space a); cbn [andb]; [|exact Hfail].
    rewrite (IH Hx). destruct (all is_space x); [|exact Hfail].
    now destruct (rmatch rest_re rest caps k).
Qed.

(** The group [([^}]+?)] of an opening directive and the [\s*\}\}] behind
    it: the group takes the body without the white space at its end. *)
Lemma lazy_body (rest_re : regex) (i : nat) (pre x rest : string) caps k (r : R) :
  all not_close x = true ->
  rmatch rest_re rest (set_cap i (pre +:+ drop_while_end is_space x) caps) k = Some r ->
  star_lazy not_close (x +:+ "}}" +:+ rest) caps
    (fun s c =>
       star_greedy is_space s
         (set_cap i (consumed (pre +:+ x +:+ "}}" +:+ rest) s) c)
         (fun s' c' => rmatch (Seq (lit "}}") rest_re) s' c' k)) = Some r.
Proof.
  revert pre. induction x as [|a x IH]; intros pre Hx Hr;
    rewrite star_lazy_unfold, consumed_app, (close_after_space rest_re _ rest) by exact Hx.
  - cbn [all]. cbn [drop_while_end] in Hr. rewrite app_nil_r in Hr. now rewrite Hr.
  - cbn [drop_while_end] in Hr.
    destruct (all is_space (String a x)) eqn:Hall.
    + rewrite app_nil_r in Hr. now rewrite Hr.
    + cbn in Hx. apply andb_prop in Hx as [Ha Hx].
      rewrite app_cons, Ha.
      specialize (IH (pre +:+ String a "") Hx).
      rewrite !app_assoc in IH. apply IH. exact Hr.
Qed.

Lemma opening_body (rest_re : regex) (i : nat) (body rest : string) caps k (r : R) :
  is_body body = true ->
  rmatch rest_re rest (set_cap i (drop_while_end is_space body) caps) k = Some r ->
  rmatch (Seq (Grp i (Plus false not_close))
            (Seq (Star true is_space) (Seq (lit "}}") rest_re)))
    (body +:+ "}}" +:+ rest) caps k = Some r.
Proof.
  destruct body as [|c x]; [discriminate|]. intros Hb Hr.
  cbn [is_body] in Hb. apply andb_prop in Hb as [Hsp Hb]. apply negb_true_iff in Hsp.
  pose proof Hb as Hb'. cbn [all] in Hb'. apply andb_prop in Hb' as [Hc Hx].
  cbn [drop_while_end all] in Hr. rewrite Hsp in Hr. cbn [andb] in Hr.
  rewrite rmatch_seq. cbn [rmatch]. unfold Plus. rewrite rmatch_seq.
  rewrite app_cons. cbn [rmatch]. rewrite Hc.
  rewrite <- app_cons.
  exact (lazy_body rest_re i (String c "") x rest caps k r Hx Hr).
Qed.

(** [[\s\S]*?] skips text in which what follows cannot begin. *)
Lemma lazy_any_skip (a : ascii) (x s : string) caps k :
  (forall c u, Ascii.eqb a c = false -> k (String c u) caps = None) ->
  lacks a x = true ->
  star_lazy any (x +:+ s) caps k = star_lazy any s caps k.
Proof.
  intros Hk. induction x as [|c x IH]; intros Hx; [reflexivity|].
  cbn in Hx. apply andb_prop in Hx as [Hc Hx]. apply negb_true_iff in Hc.
  rewrite app_cons, star_lazy_unfold, (Hk c _ Hc). cbn [any]. now apply IH.
Qed.

End Continuations.

(** [[\s\S]*?] in a group that is followed by a literal and the end of the
    pattern: the group ends where the literal occurs first. *)
Lemma lazy_any_find (i : nat) (t pre x rest : string) (caps : captures) :
  index_of t (x +:+ t +:+ rest) = Some (String.length x) ->
  star_lazy any (x +:+ t +:+ rest) caps
    (fun s c => rmatch (lit t) s (set_cap i (consumed (pre +:+ x +:+ t +:+ rest) s) c) final_k)
  = Some (set_cap i (pre +:+ x) caps, rest).
Proof.
  revert pre. induction x as [|c x IH]; intros pre Hidx;
    rewrite star_lazy_unfold, rmatch_lit, consumed_app.
  - change ("" +:+ t +:+ rest) with (t +:+ rest).
    rewrite starts_with_app, drop_length_app, app_nil_r. reflexivity.
  - rewrite app_cons in *. cbn [index_of] in Hidx.
    destruct (starts_with t (String c (x +:+ t +:+ rest))); [discriminate Hidx|].
    cbn [any].
    destruct (index_of t (x +:+ t +:+ rest)) as [n|] eqn:Hn; [|discriminate Hidx].
    cbn in Hidx. injection Hidx as ->.
    specialize (IH (pre +:+ String c "") eq_refl).
    rewrite !app_assoc in IH. exact IH.
Qed.

End MatcherFacts.

Module EngineFacts.
Import Str Regex Num Value TemplateEngine Markers CodeTemplates StrFacts RegexFacts
  VariableRegexFacts MatcherFacts.

(** *** The exceptions of the engine

    Apart from the one for the template name, the stages raise nothing but
    what the run-time system raises. *)

Lemma covered_error {A} (x : option A) (e : error) :
  Value.covered x = Err e -> from_runtime e = true.
Proof. destruct x; [discriminate | now intros [= <-]]. Qed.

Lemma truthy_error (v : value) (e : error) :
  truthy v = Err e -> from_runtime e = true.
Proof. destruct v; cbn; try discriminate. apply covered_error. Qed.

(** Induction on a value, with the elements of an array at hand. *)
Lemma value_elements_ind (P : value -> Prop) :
  (forall v, as_array v = None -> P v) ->
  (forall r items, List.Forall P items -> P (VArr r items)) ->
  forall v, P v.
Proof.
  intros Hflat Harr. fix IH 1. intros v.
  destruct v as [| |b|n|s|r props|r items|c nm]; try (now apply Hflat).
  apply Harr. revert items. fix IHitems 1. intros [|x xs].
  - constructor.
  - constructor; [apply IH | apply IHitems].
Qed.

Lemma to_string_error (v : value) (e : error) :
  to_string v = Err e -> from_runtime e = true.
Proof.
  revert e. induction v as [v Hv|r items IH] using value_elements_ind; intros e.
  - destruct v as [| |b|n|s|r props|r items|c nm]; cbn [to_string];
      try discriminate.
    + destruct b; discriminate.
    + apply covered_error.
    + destruct (assoc "toString" props) as [f|]; [|discriminate].
      destruct (is_native f); [now intros [= <-]|].
      destruct (assoc "valueOf" props) as [g|]; [|now intros [= <-]].
      destruct (is_native g); now intros [= <-].
    + now intros [= <-].
  - cbn [to_string]. intros H.
    apply bind_error in H as [H|(parts & _ & H)]; [|discriminate H].
    revert e H. induction IH as [|x xs Hx _ IHxs]; intros e H; [discriminate H|].
    apply bind_error in H as [H|(part & _ & H)].
    + destruct x; try discriminate H; exact (Hx _ H).
    + apply bind_error in H as [H|(rest & _ & H)]; [|discriminate H].
      exact (IHxs _ H).
Qed.

Lemma get_prop_error (obj : value) (key : string) (e : error) :
  get_prop obj key = Err e -> from_runtime e = true.
Proof.
  destruct obj as [| |b|n|s|r props|r items|c nm]; cbn [get_prop];
    try (now intros [= <-]).
  - destruct (String.eqb key "length"); [discriminate|].
    destruct (parse_index key); [discriminate | now intros [= <-]].
  - destruct (assoc key props); [discriminate|].
    destruct (inherited key); discriminate.
  - destruct (String.eqb key "length"); [discriminate|].
    destruct (parse_index key); [discriminate | now intros [= <-]].
  - destruct c; [|now intros [= <-]].
    destruct (String.eqb key "caller" || String.eqb key "arguments");
      [now intros [= <-]|].
    destruct (String.eqb key "name"); [discriminate | now intros [= <-]].
Qed.

Lemma path_step_error (obj : value) (key : string) (e : error) :
  path_step obj key = Err e -> from_runtime e = true.
Proof.
  unfold path_step. intros H.
  apply bind_error in H as [H|(t & _ & H)]; [exact (truthy_error _ _ H)|].
  destruct t; [|discriminate H].
  apply bind_error in H as [H|(v & _ & H)]; [exact (get_prop_error _ _ _ H)|].
  destruct (is_undefined v); [discriminate H | exact (get_prop_error _ _ _ H)].
Qed.

Lemma reduce_error (keys : list string) (e : error) :
  forall obj, reduce keys obj = Err e -> from_runtime e = true.
Proof.
  induction keys as [|key keys IH]; intros obj H; [discriminate H|].
  cbn [reduce] in H.
  apply bind_error in H as [H|(v & _ & H)];
    [exact (path_step_error _ _ _ H) | exact (IH _ H)].
Qed.

Lemma resolve_path_error (path : string) (ctx : context) (e : error) :
  resolve_path path ctx = Err e -> from_runtime e = true.
Proof. apply reduce_error. Qed.

Lemma resolveValue_error (text : string) (ctx : context) (e : error) :
  resolveValue text ctx = Err e -> from_runtime e = true.
Proof.
  unfold resolveValue.
  destruct (_ && _); [discriminate|].
  destruct (test_anchored _ _); [apply covered_error|].
  repeat match goal with
         | |- context [if ?b then _ else _] => destruct b; [discriminate|]
         end.
  apply resolve_path_error.
Qed.

Lemma to_prim_error (v : value) (e : error) :
  to_prim v = Err e -> from_runtime e = true.
Proof.
  assert (Hs : forall w, (s ← to_string w; Ok (VStr s)) = Err e ->
                         from_runtime e = true).
  { intros w H. apply bind_error in H as [H|(s & _ & H)];
      [exact (to_string_error _ _ H) | discriminate H]. }
  destruct v as [| |b|n|s|r props|r items|c nm]; cbn [to_prim]; try discriminate.
  - destruct (assoc "valueOf" props) as [g|]; [|apply Hs].
    destruct (is_native g); [now intros [= <-] | apply Hs].
  - apply Hs.
  - now intros [= <-].
Qed.

Lemma compare_error (px py : value) (e : error) :
  match px, py with
  | VNum a, VNum b => Value.covered (Num.eqb a b)
  | VStr a, VStr b => Ok (String.eqb a b)
  | VNum a, VStr b => b' ← Value.covered (Num.of_string b); Value.covered (Num.eqb a b')
  | VStr a, VNum b => a' ← Value.covered (Num.of_string a); Value.covered (Num.eqb a' b)
  | _, _ => Ok false
  end = Err e -> from_runtime e = true.
Proof.
  destruct px, py; try discriminate; try apply covered_error.
  - intros H. apply bind_error in H as [H|(x & _ & H)]; exact (covered_error _ _ H).
  - intros H. apply bind_error in H as [H|(x & _ & H)]; exact (covered_error _ _ H).
Qed.

Lemma prims_error (x y : value) (e : error) :
  (px ← to_prim x; py ← to_prim y;
   match px, py with
   | VNum a, VNum b => Value.covered (Num.eqb a b)
   | VStr a, VStr b => Ok (String.eqb a b)
   | VNum a, VStr b => b' ← Value.covered (Num.of_string b); Value.covered (Num.eqb a b')
   | VStr a, VNum b => a' ← Value.covered (Num.of_string a); Value.covered (Num.eqb a' b)
   | _, _ => Ok false
   end) = Err e -> from_runtime e = true.
Proof.
  intros H. apply bind_error in H as [H|(px & _ & H)]; [exact (to_prim_error _ _ H)|].
  apply bind_error in H as [H|(py & _ & H)]; [exact (to_prim_error _ _ H)|].
  exact (compare_error _ _ _ H).
Qed.

Lemma loose_eq_error (x y : value) (e : error) :
  loose_eq x y = Err e -> from_runtime e = true.
Proof.
  unfold loose_eq.
  destruct x, y; try discriminate;
    cbn [is_native orb obj_ref]; try (now intros [= <-]); try discriminate;
    apply prims_error.
Qed.

Lemma replaceVariables_error (template : string) (ctx : context) (e : error) :
  replaceVariables template ctx = Err e -> from_runtime e = true.
Proof.
  intros H. apply replace_from_error in H as (m & caps & H).
  apply bind_error in H as [H|(v & _ & H)]; [exact (resolve_path_error _ _ _ H)|].
  destruct (is_undefined v); [discriminate H | exact (to_string_error _ _ H)].
Qed.

Lemma processConditionals_error (template : string) (ctx : context) (e : error) :
  processConditionals template ctx = Err e -> from_runtime e = true.
Proof.
  intros H. apply replace_from_error in H as (m & caps & H). cbv zeta in H.
  apply bind_error in H as [H|(b & _ & H)]; [|discriminate H].
  destruct (includes "==" (group 1 caps)).
  - destruct (List.map trim (split_str "==" (group 1 caps))) as [|lhs [|rhs rest]];
      try (now injection H as <-).
    apply bind_error in H as [H|(lv & _ & H)]; [exact (resolveValue_error _ _ _ H)|].
    apply bind_error in H as [H|(rv & _ & H)]; [exact (resolveValue_error _ _ _ H)|].
    exact (loose_eq_error _ _ _ H).
  - apply bind_error in H as [H|(v & _ & H)];
      [exact (resolveValue_error _ _ _ H) | exact (truthy_error _ _ H)].
Qed.

Lemma render_items_error (content : string) (ctx : context) (e : error)
    (items : list value) :
  forall index, render_items content ctx index items = Err e -> from_runtime e = true.
Proof.
  induction items as [|item items IH]; intros index H; [discriminate H|].
  cbn [render_items] in H. cbv zeta in H.
  apply bind_error in H as [H|(r1 & _ & H)]; [exact (replaceVariables_error _ _ _ H)|].
  apply bind_error in H as [H|(r2 & _ & H)]; [exact (processConditionals_error _ _ _ H)|].
  apply bind_error in H as [H|(r3 & _ & H)]; [exact (IH _ H) | discriminate H].
Qed.

Lemma processLoops_error (template : string) (ctx : context) (e : error) :
  processLoops template ctx = Err e -> from_runtime e = true.
Proof.
  intros H. apply replace_from_error in H as (m & caps & H). cbv zeta in H.
  apply bind_error in H as [H|(v & _ & H)]; [exact (resolve_path_error _ _ _ H)|].
  destruct (as_array v) as [items|]; [|discriminate H].
  apply bind_error in H as [H|(parts & _ & H)];
    [exact (render_items_error _ _ _ _ _ H) | discriminate H].
Qed.

Lemma resolve_args_error (args : list string) (ctx : context) (e : error) :
  resolve_args args ctx = Err e -> from_runtime e = true.
Proof.
  induction args as [|arg args IH]; intros H; [discriminate H|].
  cbn [resolve_args] in H.
  apply bind_error in H as [H|(v & _ & H)]; [exact (resolveValue_error _ _ _ H)|].
  apply bind_error in H as [H|(vs & _ & H)]; [exact (IH H) | discriminate H].
Qed.

Lemma processHelpers_error (e : t) (template : string) (ctx : context) (err : error) :
  processHelpers e template ctx = Err err -> from_runtime err = true.
Proof.
  intros H. apply replace_from_error in H as (m & caps & H). cbv zeta in H.
  destruct (helpers e !! group 1 caps) as [h|]; [|discriminate H].
  apply bind_error in H as [H|(vs & _ & H)]; [exact (resolve_args_error _ _ _ H)|].
  destruct (h vs); discriminate H.
Qed.

(** The exception for the template name is raised for a name that is not
    registered, or registered with the empty template, and for no other. *)
Lemma render_error (e : t) (name : string) (ctx : context) (err : error) :
  render e name ctx = Err err ->
  (err = TemplateNotFoundError name /\
   forall tpl, templates e !! name = Some tpl -> tpl = "") \/
  (from_runtime err = true /\
   exists tpl, templates e !! name = Some tpl /\ tpl <> "").
Proof.
  unfold render. destruct (templates e !! name) as [tpl|] eqn:Hreg.
  - destruct (String.eqb tpl "") eqn:Hne.
    + apply String.eqb_eq in Hne. intros [= <-]. left. split; [reflexivity|].
      now intros tpl' [= <-].
    + apply String.eqb_neq in Hne. intros H. right. split; [|eauto].
      apply bind_error in H as [H|(r1 & _ & H)]; [exact (replaceVariables_error _ _ _ H)|].
      apply bind_error in H as [H|(r2 & _ & H)];
        [exact (processConditionals_error _ _ _ H)|].
      apply bind_error in H as [H|(r3 & _ & H)]; [exact (processLoops_error _ _ _ H)|].
      exact (processHelpers_error _ _ _ _ H).
  - intros [= <-]. left. split; [reflexivity | discriminate].
Qed.

(** *** Where the patterns can match *)

Lemma lacks_cons (a c : ascii) (x : string) :
  lacks a (String c x) = negb (Ascii.eqb a c) && lacks a x.
Proof. reflexivity. Qed.

Lemma starts_at_lit (a : ascii) (s : string) (r : regex) :
  starts_at a (Seq (lit (String a s)) r).
Proof.
  split; [reflexivity|]. intros c x Hc. unfold exec. cbn [rmatch lit]. now rewrite Hc.
Qed.

Lemma starts_at_variable : starts_at "{" variable_regex.
Proof. apply starts_at_lit. Qed.

Lemma starts_at_conditional : starts_at "{" conditionalRegex.
Proof. apply starts_at_lit. Qed.

Lemma starts_at_loop : starts_at "{" loopRegex.
Proof. apply starts_at_lit. Qed.

Lemma starts_at_helper : starts_at "{" helperRegex.
Proof. apply starts_at_lit. Qed.

Lemma starts_pair_lit (t : string) (r : regex) :
  starts_pair (Seq (lit (String "{" (String "{" t))) r).
Proof.
  intros s Hs. unfold exec. rewrite rmatch_seq, rmatch_lit.
  destruct s as [|c [|d s]];
    [reflexivity | cbn [starts_with]; now destruct (Ascii.eqb "{" c) |].
  cbn [starts_with] in *.
  destruct (Ascii.eqb "{" c); [|reflexivity].
  destruct (Ascii.eqb "{" d); [discriminate Hs | reflexivity].
Qed.

Lemma starts_pair_variable : starts_pair variable_regex.
Proof. apply starts_pair_lit. Qed.

Lemma starts_pair_conditional : starts_pair conditionalRegex.
Proof. apply starts_pair_lit. Qed.

Lemma starts_pair_loop : starts_pair loopRegex.
Proof. apply starts_pair_lit. Qed.

Lemma starts_pair_helper : starts_pair helperRegex.
Proof. apply starts_pair_lit. Qed.

(** The three later stages keep a text without any opening brace. *)
Lemma later_stages_lacks (e : t) (s : string) (ctx : context) :
  lacks "{" s = true ->
  processConditionals s ctx = Ok s /\
  processLoops s ctx = Ok s /\
  processHelpers e s ctx = Ok s.
Proof.
  intros Hs. repeat split.
  - apply (replace_lacks "{"); [apply starts_at_conditional | exact Hs].
  - apply (replace_lacks "{"); [apply starts_at_loop | exact Hs].
  - apply (replace_lacks "{"); [apply starts_at_helper | exact Hs].
Qed.

(** A text without two opening braces in a row holds no marker. *)
Lemma has_marker_no_pair (s : string) : includes "{{" s = false -> has_marker s = false.
Proof.
  induction s as [|c s IH]; intros Hs; cbn [has_marker].
  - now rewrite (starts_pair_variable "" eq_refl).
  - rewrite includes_cons in Hs. apply orb_false_elim in Hs as [Hc Hs].
    rewrite (starts_pair_variable _ Hc). now apply IH.
Qed.

(** Text without a pair of opening braces is kept. *)
Lemma replace_no_pair (re : regex) cb (s : string) :
  starts_pair re -> includes "{{" s = false -> replace re cb s = Ok s.
Proof.
  intros Hre. induction s as [|c s IH]; intros Hs.
  - apply replace_empty. now apply Hre.
  - rewrite includes_cons in Hs. apply orb_false_elim in Hs as [Hc Hs].
    rewrite replace_nomatch by now apply Hre.
    now rewrite (IH Hs).
Qed.

Lemma replace_code_text_app (re : regex) cb (t rest : string) :
  starts_pair re -> code_text t = true ->
  replace re cb (t +:+ rest) = (tail ← replace re cb rest; Ok (t +:+ tail)).
Proof.
  intros Hre. unfold code_text. induction t as [|c t IH]; intros Ht.
  - change ("" +:+ rest) with rest. now destruct (replace re cb rest).
  - apply andb_prop in Ht as [Hinc Hlast].
    apply negb_true_iff in Hinc, Hlast.
    rewrite includes_cons in Hinc. apply orb_false_elim in Hinc as [Hc Hinc].
    rewrite app_cons. rewrite replace_nomatch.
    + rewrite IH.
      * now destruct (replace re cb rest).
      * rewrite Hinc. cbn [negb andb]. apply negb_true_iff.
        destruct t as [|d t]; [reflexivity | exact Hlast].
    + apply Hre. destruct t as [|d t].
      * cbn [last_char] in Hlast. cbn [starts_with].
        destruct (Ascii.eqb "{" c) eqn:Hb; [|reflexivity].
        apply Ascii.eqb_eq in Hb. subst c. discriminate Hlast.
      * rewrite app_cons. exact Hc.
Qed.

Lemma later_stages_no_pair (e : t) (s : string) (ctx : context) :
  includes "{{" s = false ->
  processConditionals s ctx = Ok s /\
  processLoops s ctx = Ok s /\
  processHelpers e s ctx = Ok s.
Proof.
  intros Hs. repeat split.
  - apply replace_no_pair; [apply starts_pair_conditional | exact Hs].
  - apply replace_no_pair; [apply starts_pair_loop | exact Hs].
  - apply replace_no_pair; [apply starts_pair_helper | exact Hs].
Qed.

(** *** Variable interpolation on text and markers *)

(** Stage 1 at a marker. *)
Lemma replaceVariables_marker (body rest : string) (ctx : context) :
  body <> "" -> all not_close body = true ->
  replaceVariables ("{{" +:+ body +:+ "}}" +:+ rest) ctx =
  (first ← substitute ctx (Marker body);
   tail ← replaceVariables rest ctx;
   Ok (first +:+ tail)).
Proof.
  intros Hne Hb. destruct body as [|c body]; [contradiction|].
  assert (Hshape : "{{" +:+ String c body +:+ "}}" +:+ rest =
                   String "{" (String "{" (String c body +:+ "}}")) +:+ rest).
  { rewrite !app_cons, app_assoc. reflexivity. }
  unfold replaceVariables. rewrite Hshape.
  rewrite (replace_match _ _ _ _ rest [(1%nat, marker_path (String c body))]).
  - unfold group. cbn [cap Nat.eqb]. unfold substitute, shown.
    destruct (resolve_path (marker_path (String c body)) ctx) as [v|err];
      reflexivity.
  - rewrite <- Hshape. exact (exec_marker c body rest Hb).
Qed.

Lemma replaceVariables_text (t rest : string) (ctx : context) :
  lacks "{" t = true ->
  replaceVariables (t +:+ rest) ctx =
  (tail ← replaceVariables rest ctx; Ok (t +:+ tail)).
Proof. intros Ht. apply (replace_lacks_app "{"); [apply starts_at_variable | exact Ht]. Qed.

(** Stage 1 on a template of text and markers: one segment after the other,
    with the exception of the first one that raises. *)
Lemma replaceVariables_code_segments (segs : list segment) (ctx : context) :
  forallb code_formed segs = true ->
  replaceVariables (flatten segs) ctx = expand ctx segs.
Proof.
  induction segs as [|sg segs IH]; intros Hwf.
  - reflexivity.
  - cbn [forallb] in Hwf. apply andb_prop in Hwf as [Hsg Hwf].
    destruct sg as [t|body]; cbn [flatten expand].
    + unfold replaceVariables.
      rewrite (replace_code_text_app _ _ t _ starts_pair_variable Hsg).
      fold (replaceVariables (flatten segs) ctx). now rewrite (IH Hwf).
    + cbn in Hsg. apply andb_prop in Hsg as [Hne Hb].
      apply negb_true_iff, String.eqb_neq in Hne.
      rewrite (replaceVariables_marker body _ ctx Hne Hb), (IH Hwf). reflexivity.
Qed.

Lemma render_code_segments (e : t) (name : string) (ctx : context)
    (segs : list segment) (out : string) :
  forallb code_formed segs = true ->
  templates e !! name = Some (flatten segs) -> flatten segs <> "" ->
  expand ctx segs = Ok out ->
  includes "{{" out = false ->
  render e name ctx = Ok out.
Proof.
  intros Hwf Hreg Hne Hexp Hout. unfold render. rewrite Hreg.
  apply String.eqb_neq in Hne. rewrite Hne.
  rewrite (replaceVariables_code_segments segs ctx Hwf), Hexp, bind_Ok.
  destruct (later_stages_no_pair e out ctx Hout) as (Hc & Hl & Hh).
  now rewrite Hc, bind_Ok, Hl, bind_Ok.
Qed.

End EngineFacts.

Module PathFacts.
Import Str Regex Value TemplateEngine Markers StrFacts RegexFacts VariableRegexFacts EngineFacts.

Lemma split_char_app (sep : ascii) (k rest : string) :
  lacks sep k = true ->
  split_char sep (k +:+ String sep rest) = k :: split_char sep rest.
Proof.
  induction k as [|c k IH]; intros Hk.
  - cbn. now rewrite Ascii.eqb_refl.
  - cbn in Hk. apply andb_prop in Hk as [Hc Hk]. apply negb_true_iff in Hc.
    rewrite app_cons. cbn [split_char]. rewrite Ascii.eqb_sym, Hc, (IH Hk). reflexivity.
Qed.

Lemma split_char_lacks (sep : ascii) (k : string) :
  lacks sep k = true -> split_char sep k = [k].
Proof.
  induction k as [|c k IH]; intros Hk; [reflexivity|].
  cbn in Hk. apply andb_prop in Hk as [Hc Hk]. apply negb_true_iff in Hc.
  cbn [split_char]. rewrite Ascii.eqb_sym, Hc, (IH Hk). reflexivity.
Qed.

Lemma split_char_cons (sep : ascii) (s : string) :
  exists k keys, split_char sep s = k :: keys.
Proof.
  induction s as [|c s (k & keys & IH)]; cbn; [eauto|].
  destruct (Ascii.eqb c sep); [eauto|]. rewrite IH. eauto.
Qed.

Lemma reduce_falsy (keys : list string) (obj : value) :
  truthy obj = Ok false -> keys <> [] -> reduce keys obj = Ok VUndefined.
Proof.
  revert obj. induction keys as [|key keys IH]; intros obj Hf Hne; [contradiction|].
  cbn [reduce]. unfold path_step. rewrite Hf, !bind_Ok.
  destruct keys as [|key' keys]; [reflexivity|].
  apply IH; [reflexivity | discriminate].
Qed.

Lemma reduce_ref (keys : list string) (r r' : nat) (props : list (string * value)) :
  keys <> [] -> reduce keys (VObj r props) = reduce keys (VObj r' props).
Proof. destruct keys; [contradiction | reflexivity]. Qed.

Lemma path_step_own (r : nat) (props : list (string * value)) (k : string) (v : value) :
  assoc k props = Some v -> path_step (VObj r props) k = Ok v.
Proof.
  intros Hv. unfold path_step. cbn [truthy get_prop]. rewrite bind_Ok, Hv, bind_Ok.
  now destruct v.
Qed.

Lemma path_step_inherited (r : nat) (props : list (string * value)) (k : string) :
  assoc k props = None ->
  path_step (VObj r props) k =
  Ok (match inherited k with Some member => member | None => VUndefined end).
Proof.
  intros Hv. unfold path_step. cbn [truthy get_prop]. rewrite bind_Ok, Hv.
  unfold inherited.
  repeat match goal with
         | |- context [if ?b then _ else _] => destruct b; [reflexivity|]
         end.
  reflexivity.
Qed.

Lemma drop_while_end_snoc (p : ascii -> bool) (x : string) (c : ascii) :
  p c = false -> drop_while_end p (x +:+ String c "") = x +:+ String c "".
Proof.
  intros Hc. induction x as [|a x IH].
  - cbn. now rewrite Hc.
  - rewrite app_cons. cbn [drop_while_end]. rewrite IH.
    change (all p (String a (x +:+ String c ""))) with (p a && all p (x +:+ String c "")).
    rewrite all_app. cbn [all]. rewrite Hc. now rewrite !andb_false_r.
Qed.

Lemma drop_app (x y : string) : drop (String.length x) (x +:+ y) = y.
Proof. induction x as [|c x IH]; [now destruct y | exact IH]. Qed.

Lemma quoted_shape (s : string) :
  double_quote +:+ s +:+ double_quote =
  String (ascii_of_nat 34) (s +:+ double_quote).
Proof. reflexivity. Qed.

Lemma resolve_path_key (ctx : context) (k : string) (v : value) :
  lacks "." k = true -> assoc k ctx = Some v -> resolve_path k ctx = Ok v.
Proof.
  intros Hk Hv. unfold resolve_path. rewrite (split_char_lacks "." k Hk). cbn [reduce].
  now rewrite (path_step_own _ _ _ _ Hv).
Qed.

(** A path whose first key the context neither owns nor inherits. *)
Lemma resolve_path_missing (ctx : context) (k : string) :
  lacks "." k = true -> assoc k ctx = None -> inherited k = None ->
  resolve_path k ctx = Ok VUndefined /\
  forall more, resolve_path (k +:+ "." +:+ more) ctx = Ok VUndefined.
Proof.
  intros Hk Hv Hi. unfold resolve_path. split.
  - rewrite (split_char_lacks "." k Hk). cbn [reduce].
    now rewrite (path_step_inherited _ _ _ Hv), Hi.
  - intros more. change ("." +:+ more) with (String "." more).
    rewrite (split_char_app "." k more Hk). cbn [reduce].
    rewrite (path_step_inherited _ _ _ Hv), Hi, bind_Ok.
    destruct (split_char_cons "." more) as (k' & keys & ->).
    apply reduce_falsy; [reflexivity | discriminate].
Qed.

End PathFacts.

Module EngineExtras.
Import Str Regex Value TemplateEngine Markers StrFacts RegexFacts VariableRegexFacts
  EngineFacts PathFacts.

(** X1.  A path is resolved key by key from the context, a plain object.
    A key without a dot gives the own property of that name; without one it
    gives what a plain object inherits under the name ([constructor],
    [toString], ...), and [undefined] when nothing is inherited.  Behind a
    key that is bound to an object the rest of the path is resolved in that
    object; behind a key that is bound to a falsy value (the empty string,
    zero, [null], [false]), or that is neither bound nor inherited, every
    longer path gives [undefined] and nothing is thrown. *)
Theorem resolve_path_chain (ctx : context) (k : string) :
  lacks "." k = true ->
  (forall v, assoc k ctx = Some v -> resolve_path k ctx = Ok v) /\
  (assoc k ctx = None ->
   resolve_path k ctx =
   Ok (match inherited k with Some member => member | None => VUndefined end)) /\
  (forall rest r props,
      assoc k ctx = Some (VObj r props) ->
      resolve_path (k +:+ "." +:+ rest) ctx = resolve_path rest props) /\
  (forall rest v,
      assoc k ctx = Some v -> truthy v = Ok false ->
      resolve_path (k +:+ "." +:+ rest) ctx = Ok VUndefined) /\
  (forall rest,
      assoc k ctx = None -> inherited k = None ->
      resolve_path (k +:+ "." +:+ rest) ctx = Ok VUndefined).
Proof.
  intros Hk. unfold resolve_path. split; [|split; [|split; [|split]]].
  - intros v Hv. rewrite (split_char_lacks "." k Hk). cbn [reduce].
    now rewrite (path_step_own _ _ _ _ Hv).
  - intros Hv. rewrite (split_char_lacks "." k Hk). cbn [reduce].
    rewrite (path_step_inherited _ _ _ Hv). reflexivity.
  - intros rest r props Hv. change ("." +:+ rest) with (String "." rest).
    rewrite (split_char_app "." k rest Hk). cbn [reduce].
    rewrite (path_step_own _ _ _ _ Hv), bind_Ok.
    destruct (split_char_cons "." rest) as (k' & keys & ->).
    apply reduce_ref. discriminate.
  - intros rest v Hv Hf. change ("." +:+ rest) with (String "." rest).
    rewrite (split_char_app "." k rest Hk). cbn [reduce].
    rewrite (path_step_own _ _ _ _ Hv), bind_Ok.
    destruct (split_char_cons "." rest) as (k' & keys & ->).
    apply reduce_falsy; [exact Hf | discriminate].
  - intros rest Hv Hi. change ("." +:+ rest) with (String "." rest).
    rewrite (split_char_app "." k rest Hk). cbn [reduce].
    rewrite (path_step_inherited _ _ _ Hv), Hi, bind_Ok.
    destruct (split_char_cons "." rest) as (k' & keys & ->).
    apply reduce_falsy; [reflexivity | discriminate].
Qed.

Lemma resolve_path_chain_witness :
  resolve_path "user.name.length" [("user", VObj 1 [("name", VStr "")])] = Ok VUndefined /\
  resolve_path "constructor" [("user", VStr "u")] = Ok (VNative true "Object") /\
  resolve_path "missing.name" [("user", VStr "u")] = Ok VUndefined.
Proof.
  split; [|split].
  - transitivity (resolve_path "name.length" [("name", VStr "")]).
    + exact (proj1 (proj2 (proj2 (resolve_path_chain
               [("user", VObj 1 [("name", VStr "")])] "user" eq_refl)))
               "name.length" 1%nat [("name", VStr "")] eq_refl).
    + exact (proj1 (proj2 (proj2 (proj2
               (resolve_path_chain [("name", VStr "")] "name" eq_refl))))
               "length" (VStr "") eq_refl eq_refl).
  - exact (proj1 (proj2 (resolve_path_chain [("user", VStr "u")] "constructor" eq_refl))
             eq_refl).
  - exact (proj2 (proj2 (proj2 (proj2
             (resolve_path_chain [("user", VStr "u")] "missing" eq_refl))))
             "name" eq_refl eq_refl).
Defined.

(** X2.  Registering a template under one name changes the result of
    [render] for no other name and leaves the helpers alone; registering a
    helper leaves the templates and the helpers of other names alone. *)
Theorem register_other_name (e : t) (name other tpl : string) (h : helper)
    (ctx : context) :
  name <> other ->
  render (registerTemplate name tpl e) other ctx = render e other ctx /\
  helpers (registerTemplate name tpl e) = helpers e /\
  templates (registerHelper name h e) = templates e /\
  helpers (registerHelper name h e) !! other = helpers e !! other.
Proof.
  intros Hne. repeat split.
  - unfold render, registerTemplate. cbn [templates].
    rewrite lookup_insert_ne by exact Hne. reflexivity.
  - unfold registerHelper. cbn [helpers]. now rewrite lookup_insert_ne.
Qed.

Lemma register_other_name_witness :
  render (registerTemplate "b" "B" (engine_with "A")) "t" [] = render (engine_with "A") "t" [].
Proof.
  apply (register_other_name (engine_with "A") "b" "t" "B" (fun _ => None) []).
  discriminate.
Defined.

(** X3.  Whatever the context binds, [resolveValue] reads a text in double
    quotes as the string between the quotes, and the words true, false,
    null and undefined as the values they name. *)
Theorem resolveValue_literals (ctx : context) :
  (forall s, resolveValue (double_quote +:+ s +:+ double_quote) ctx = Ok (VStr s)) /\
  resolveValue "true" ctx = Ok (VBool true) /\
  resolveValue "false" ctx = Ok (VBool false) /\
  resolveValue "null" ctx = Ok VNull /\
  resolveValue "undefined" ctx = Ok VUndefined.
Proof.
  split; [|repeat split].
  intros s. unfold resolveValue.
  assert (Htrim : trim (double_quote +:+ s +:+ double_quote) =
                  double_quote +:+ s +:+ double_quote).
  { rewrite quoted_shape. unfold trim. cbn [drop_while is_space code].
    change (String (ascii_of_nat 34) (s +:+ double_quote))
      with (String (ascii_of_nat 34) s +:+ String (ascii_of_nat 34) "").
    apply drop_while_end_snoc. reflexivity. }
  rewrite Htrim.
  assert (Hstart : starts_with double_quote (double_quote +:+ s +:+ double_quote) = true)
    by reflexivity.
  assert (Hend : ends_with double_quote (double_quote +:+ s +:+ double_quote) = true).
  { unfold ends_with.
    rewrite <- app_assoc. rewrite length_app.
    replace (String.length (double_quote +:+ s) + String.length double_quote
             - String.length double_quote)%nat
      with (String.length (double_quote +:+ s)) by lia.
    rewrite drop_app. rewrite String.eqb_refl. cbn. reflexivity. }
  rewrite Hstart, Hend. cbn [andb]. f_equal. f_equal.
  unfold slice_1_m1. rewrite quoted_shape. cbn [drop].
  cbn [String.length]. rewrite length_app.
  replace (S (String.length s + String.length double_quote) - 2)%nat
    with (String.length s) by (cbn; lia).
  apply take_app.
Qed.

(** X23.  Variable interpolation at a marker whose path does not resolve:
    when the first key of the path is neither a property of the context
    nor a member that a plain object inherits, the marker is replaced by
    the empty string, whatever follows the key in the path, and the text
    behind the marker is processed in the same way.  The path of a marker
    is its body without the white space around it. *)
Theorem replaceVariables_missing_path (body rest k : string) (ctx : context) :
  body <> "" -> all not_close body = true ->
  lacks "." k = true -> assoc k ctx = None -> inherited k = None ->
  (marker_path body = k \/ exists more, marker_path body = k +:+ "." +:+ more) ->
  replaceVariables ("{{" +:+ body +:+ "}}" +:+ rest) ctx = replaceVariables rest ctx.
Proof.
  intros Hne Hbody Hk Hv Hi Hpath.
  rewrite (replaceVariables_marker body rest ctx Hne Hbody). cbn [substitute].
  destruct (resolve_path_missing ctx k Hk Hv Hi) as [Hkey Hmore].
  assert (Hres : resolve_path (marker_path body) ctx = Ok VUndefined).
  { destruct Hpath as [-> | [more ->]]; [exact Hkey | apply Hmore]. }
  rewrite Hres, bind_Ok. cbn [shown is_undefined]. rewrite bind_Ok.
  now destruct (replaceVariables rest ctx).
Qed.

Lemma replaceVariables_missing_path_witness :
  replaceVariables "{{ user.name }}, {{title}}{{user}}!" [("title", VStr "Dr")] = Ok ", Dr!".
Proof.
  refine (eq_trans
            (replaceVariables_missing_path " user.name " ", {{title}}{{user}}!" "user"
               [("title", VStr "Dr")] ltac:(discriminate) eq_refl eq_refl eq_refl eq_refl
               (or_intror (ex_intro _ "name" eq_refl)))
            eq_refl).
Defined.

End EngineExtras.

Module EngineClaims.
Import Str Regex Value TemplateEngine Markers CodeTemplates StrFacts RegexFacts
  VariableRegexFacts EngineFacts.

(** The conditional stage on its own chooses the branch. *)
Lemma processConditionals_example :
  processConditionals "{{#if a == b}}X{{#else}}Y{{/if}}" [("a", int 1); ("b", int 1)] = Ok "X" /\
  processConditionals "{{#if a == b}}X{{#else}}Y{{/if}}" [("a", int 1); ("b", int 2)] = Ok "Y".
Proof. split; vm_compute; reflexivity. Qed.

(** C1.  Claimed: for the template [{{#if a == b}}X{{#else}}Y{{/if}}],
    [render] returns "X" under [{a: 1, b: 1}] and "Y" under [{a: 1, b: 2}].
    The code returns "XY" under both contexts: variable interpolation runs
    first, its pattern also matches [{{#if a == b}}], [{{#else}}] and
    [{{/if}}], none of these bodies is a key of the context, so the three
    markers are replaced by the empty string and the conditional stage finds
    no block. *)
Theorem render_conditional_keeps_both_branches :
  render (engine_with "{{#if a == b}}X{{#else}}Y{{/if}}") "t"
    [("a", int 1); ("b", int 1)] = Ok "XY" /\
  render (engine_with "{{#if a == b}}X{{#else}}Y{{/if}}") "t"
    [("a", int 1); ("b", int 2)] = Ok "XY" /\
  replaceVariables "{{#if a == b}}X{{#else}}Y{{/if}}"
    [("a", int 1); ("b", int 1)] = Ok "XY".
Proof. repeat split; vm_compute; reflexivity. Qed.

(** The loop stage on its own expands the block. *)
Lemma processLoops_example :
  processLoops "{{#each items}}[{{item}}]{{/each}}"
    [("items", VArr 1 [int 1; int 2; int 3])] = Ok "[1][2][3]" /\
  processLoops "{{#each items}}[{{item}}]{{/each}}" [] = Ok "".
Proof. split; vm_compute; reflexivity. Qed.

(** C2.  Claimed: for the template [{{#each items}}[{{item}}]{{/each}}],
    [render] returns "[1][2][3]" under [{items: [1, 2, 3]}] and "" when the
    context has no [items].  The code returns "[]" in both cases: variable
    interpolation erases [{{#each items}}], [{{item}}] and [{{/each}}] before
    the loop stage runs. *)
Theorem render_loop_keeps_empty_brackets :
  render (engine_with "{{#each items}}[{{item}}]{{/each}}") "t"
    [("items", VArr 1 [int 1; int 2; int 3])] = Ok "[]" /\
  render (engine_with "{{#each items}}[{{item}}]{{/each}}") "t" [] = Ok "[]" /\
  replaceVariables "{{#each items}}[{{item}}]{{/each}}"
    [("items", VArr 1 [int 1; int 2; int 3])] = Ok "[]".
Proof. repeat split; vm_compute; reflexivity. Qed.

(** The helper stage on its own keeps the marker of an unknown helper. *)
Lemma processHelpers_unknown_example :
  processHelpers new "{{unknownHelper x}}" [("x", int 1)] = Ok "{{unknownHelper x}}".
Proof. vm_compute; reflexivity. Qed.

(** C3.  Claimed: rendering the template [{{unknownHelper x}}], with no
    helper of that name registered, returns the marker unchanged.  Under the
    context [{x: 1}] the code returns the empty string: variable
    interpolation takes the whole body "unknownHelper x" for a path, which
    does not resolve. *)
Theorem render_unknown_helper_is_erased :
  render (engine_with "{{unknownHelper x}}") "t" [("x", int 1)] = Ok "" /\
  replaceVariables "{{unknownHelper x}}" [("x", int 1)] = Ok "".
Proof. split; vm_compute; reflexivity. Qed.

(** [render] raises its own exception exactly when the name has no template
    or its template is the empty string. *)
Lemma render_not_found_iff (e : t) (name : string) (ctx : context) :
  render e name ctx = Err (TemplateNotFoundError name) <->
  templates e !! name = None \/ templates e !! name = Some "".
Proof.
  split.
  - intros Hr. destruct (templates e !! name) as [tpl|] eqn:Hreg; [|now left].
    right. f_equal.
    destruct (render_error e name ctx _ Hr) as [[_ Hempty]|[Hrun _]];
      [now apply Hempty | discriminate Hrun].
  - unfold render. intros [-> | ->]; reflexivity.
Qed.

(** C5.  Claimed: [render] fails with the template-not-found error exactly
    for the names that are not registered.  A name registered with the empty
    string as its template is registered, and [render] still fails with that
    error: the test [!template] holds of the empty string too. *)
Theorem render_registered_empty_template_not_found :
  templates (registerTemplate "empty" "" new) !! "empty" = Some "" /\
  render (registerTemplate "empty" "" new) "empty" [] = Err (TemplateNotFoundError "empty").
Proof. split; vm_compute; reflexivity. Qed.

(** C4.  Claimed: [render] never raises an error because of a context path
    that is missing or undefined, and every marker whose path fails to
    resolve is replaced by the empty string.  The guard of the path walk,
    [obj && obj[key] !== undefined], also sees what an object inherits.
    Under the empty context the path [constructor.caller] has no binding;
    its first key reaches the function [Object], reading [caller] of that
    function throws a TypeError, and [render] throws it for the template
    [{{constructor.caller}}]; the marker [{{constructor.name}}] is replaced
    by the text "Object".  A path whose first key is neither bound nor
    inherited is replaced by the empty string, as claimed. *)
Theorem render_inherited_path_throws :
  assoc "constructor" [] = None /\
  resolve_path "constructor" [] = Ok (VNative true "Object") /\
  resolve_path "constructor.caller" [] = Err TypeError /\
  replaceVariables "{{constructor.caller}}" [] = Err TypeError /\
  render (engine_with "{{constructor.caller}}") "t" [] = Err TypeError /\
  render (engine_with "{{constructor.name}}") "t" [] = Ok "Object" /\
  render (engine_with "Hello {{ user.name }}!") "t" [] = Ok "Hello !".
Proof. repeat split; vm_compute; reflexivity. Qed.

(** C9, as claimed, fails: a marker remains in the result of [render] when a
    substituted value holds one, and when the removal of a marker joins the
    text around it into one. *)
Lemma render_marker_remains :
  render (engine_with "{{a}}") "t" [("a", VStr "{{b}}")] = Ok "{{b}}" /\
  has_marker "{{b}}" = true /\
  render (engine_with "{{a}{{b}}}") "t" [] = Ok "{{a}}" /\
  has_marker "{{a}}" = true.
Proof. repeat split; vm_compute; reflexivity. Qed.

(** C9, amended.  Take any context and any template made of pieces of text
    that hold no two opening braces in a row and do not end in an opening
    brace, and of markers [{{body}}] whose body is not empty and has no
    closing brace (directive and helper markers included).  Variable
    interpolation handles the markers from left to right.  The path of a
    marker is its body without the white space around it, and the last
    character of a body that is nothing but white space.  The marker is
    replaced by the string of the value its path resolves to, and by the
    empty string when that value is [undefined]; where resolving or printing
    throws, the stage throws the same.  When the stage returns a string
    without two opening braces in a row, the conditional, loop and helper
    stages leave that string as it is, [render] returns it, and no marker is
    left in it. *)
Theorem render_code_template (e : t) (name : string) (ctx : context)
    (segs : list segment) :
  forallb code_formed segs = true ->
  templates e !! name = Some (flatten segs) -> flatten segs <> "" ->
  replaceVariables (flatten segs) ctx = expand ctx segs /\
  (forall out,
      expand ctx segs = Ok out -> includes "{{" out = false ->
      render e name ctx = Ok out /\ has_marker out = false) /\
  (forall err,
      expand ctx segs = Err err -> render e name ctx = Err err).
Proof.
  intros Hwf Hreg Hne. split; [|split].
  - exact (replaceVariables_code_segments segs ctx Hwf).
  - intros out Hexp Hout. split; [|exact (has_marker_no_pair _ Hout)].
    exact (render_code_segments e name ctx segs out Hwf Hreg Hne Hexp Hout).
  - intros err Hexp. unfold render. rewrite Hreg.
    apply String.eqb_neq in Hne. rewrite Hne.
    now rewrite (replaceVariables_code_segments segs ctx Hwf), Hexp.
Qed.

Lemma render_code_template_witness :
  replaceVariables "{{#if a}}{ n: {{ user.age }}, s: {{user.name}}{{ }}{{/if}}"
    [("user", VObj 1 [("name", VStr "Ann"); ("age", VNum (Num.Dec 305 1))])]
    = Ok "{ n: 30.5, s: Ann" /\
  render
    (engine_with "{{#if a}}{ n: {{ user.age }}, s: {{user.name}}{{ }}{{/if}}") "t"
    [("user", VObj 1 [("name", VStr "Ann"); ("age", VNum (Num.Dec 305 1))])]
    = Ok "{ n: 30.5, s: Ann" /\
  has_marker "{ n: 30.5, s: Ann" = false.
Proof.
  destruct (render_code_template
              (engine_with "{{#if a}}{ n: {{ user.age }}, s: {{user.name}}{{ }}{{/if}}")
              "t"
              [("user", VObj 1 [("name", VStr "Ann"); ("age", VNum (Num.Dec 305 1))])]
              [Marker "#if a"; Text "{ n: "; Marker " user.age "; Text ", s: ";
               Marker "user.name"; Marker " "; Marker "/if"]
              eq_refl eq_refl ltac:(discriminate)) as (Hstage & Hrender & _).
  split; [exact Hstage|].
  exact (Hrender "{ n: 30.5, s: Ann" eq_refl eq_refl).
Defined.


End EngineClaims.

Module HelperFacts.
Import Str Regex Value TemplateEngine Markers StrFacts RegexFacts VariableRegexFacts
  EngineFacts Blocks MatcherFacts.

Lemma space_not_word (c : ascii) : is_space c = true -> is_word c = false.
Proof.
  unfold is_space, is_word. generalize (code c). intros n H.
  repeat match goal with
         | |- context [N.leb ?a ?b] => destruct (N.leb_spec a b)
         | |- context [N.eqb ?a ?b] => destruct (N.eqb_spec a b)
         | H : context [N.leb ?a ?b] |- _ => destruct (N.leb_spec a b)
         | H : context [N.eqb ?a ?b] |- _ => destruct (N.eqb_spec a b)
         end; cbn in *; try reflexivity; try discriminate; lia.
Qed.

(** [[^}]+?] in a group that is followed by [}}] and the end of the pattern. *)
Lemma lazy_close (i : nat) (pre x rest : string) (caps : captures) :
  all not_close x = true ->
  star_lazy not_close (x +:+ "}}" +:+ rest) caps
    (fun s c =>
       rmatch (lit "}}") s (set_cap i (consumed (pre +:+ x +:+ "}}" +:+ rest) s) c) final_k)
  = Some (set_cap i (pre +:+ x) caps, rest).
Proof.
  revert pre. induction x as [|a x IH]; intros pre Hx;
    rewrite star_lazy_unfold, consumed_app.
  - change ("" +:+ "}}" +:+ rest) with ("}}" +:+ rest).
    now rewrite rmatch_lit_app, app_nil_r.
  - cbn in Hx. apply andb_prop in Hx as [Ha Hx].
    rewrite app_cons, rmatch_lit_reject, Ha.
    + specialize (IH (pre +:+ String a "") Hx). rewrite !app_assoc in IH. exact IH.
    + unfold not_close in Ha. apply negb_true_iff in Ha. now rewrite Ascii.eqb_sym.
Qed.

Lemma is_gap_inv (gap : string) :
  is_gap gap = true ->
  exists c w, gap = String c w /\ is_space c = true /\ all is_space w = true.
Proof.
  unfold is_gap. destruct gap as [|c w]; [discriminate|]. cbn.
  intros H. apply andb_prop in H. eauto.
Qed.

Lemma exec_helper_call_args (name gap args rest : string) :
  name <> "" -> all is_word name = true -> is_gap gap = true -> is_body args = true ->
  exec helperRegex (helper_call name gap args +:+ rest) =
  Some ([(2%nat, args); (1%nat, name)], rest).
Proof.
  intros Hne Hname Hgap Hargs.
  destruct name as [|n0 n']; [contradiction|].
  cbn in Hname. apply andb_prop in Hname as [Hn0 Hn'].
  destruct (is_gap_inv gap Hgap) as (g0 & g' & -> & Hg0 & Hg').
  destruct args as [|a0 a']; [discriminate|].
  pose proof Hargs as Hargs'. cbn [is_body all] in Hargs'.
  apply andb_prop in Hargs' as [Ha0s Ha]. apply negb_true_iff in Ha0s.
  apply andb_prop in Ha as [Ha0 Ha'].
  unfold exec, helperRegex, helper_call.
  rewrite !app_assoc, rmatch_seq, rmatch_lit_app, rmatch_seq.
  cbn [rmatch]. unfold Plus at 1. rewrite rmatch_seq, app_cons. cbn [rmatch].
  rewrite Hn0.
  apply star_greedy_run; [exact Hn' | | rewrite app_cons; now apply space_not_word].
  rewrite <- (app_cons n0 n').
  rewrite consumed_app.
  match goal with
  | |- match ?X with Some _ => _ | None => _ end = ?r =>
      assert (Hopt : X = r); [|now rewrite Hopt]
  end.
  unfold Plus at 1. rewrite rmatch_seq, app_cons. cbn [rmatch]. rewrite Hg0.
  apply star_greedy_run; [exact Hg' | | rewrite app_cons; exact Ha0s].
  unfold Plus. rewrite rmatch_seq, app_cons. cbn [rmatch]. rewrite Ha0.
  rewrite <- (app_cons a0 a').
  exact (lazy_close 2 (String a0 "") a' rest [(1%nat, String n0 n')] Ha').
Qed.

Lemma exec_helper_call_bare (name rest : string) :
  name <> "" -> all is_word name = true ->
  exec helperRegex (helper_call name "" "" +:+ rest) = Some ([(1%nat, name)], rest).
Proof.
  intros Hne Hname.
  destruct name as [|n0 n']; [contradiction|].
  cbn in Hname. apply andb_prop in Hname as [Hn0 Hn'].
  unfold exec, helperRegex, helper_call.
  rewrite !app_assoc, rmatch_seq, rmatch_lit_app, rmatch_seq.
  cbn [rmatch]. unfold Plus at 1. rewrite rmatch_seq, app_cons. cbn [rmatch].
  rewrite Hn0.
  apply star_greedy_run; [exact Hn' | | reflexivity].
  rewrite <- (app_cons n0 n'), consumed_app.
  reflexivity.
Qed.

Lemma helper_call_shape (name gap args rest : string) :
  helper_call name gap args +:+ rest =
  String "{" (String "{" (name +:+ gap +:+ args +:+ "}}")) +:+ rest.
Proof. unfold helper_call. now rewrite !app_cons, !app_assoc. Qed.

End HelperFacts.

Module HelperExtras.
Import Str Regex Value TemplateEngine Markers StrFacts RegexFacts VariableRegexFacts
  EngineFacts PathFacts Blocks MatcherFacts HelperFacts.

(** X4.  The helper stage at a call [{{name args}}].  A call of a name
    that is not registered stays as it is.  For a registered helper the
    words of [args] are resolved from left to right, each as a literal or a
    path, and what resolving a word throws the stage throws; the helper is
    called with the values, and the call is replaced by what it returns, by
    the empty string when it throws.  The text behind the call is processed
    in the same way. *)
Theorem processHelpers_call (e : t) (name gap args rest : string) (ctx : context) :
  name <> "" -> all is_word name = true -> is_gap gap = true -> is_body args = true ->
  processHelpers e (helper_call name gap args +:+ rest) ctx =
  match helpers e !! name with
  | None =>
      tail ← processHelpers e rest ctx;
      Ok (helper_call name gap args +:+ tail)
  | Some h =>
      vs ← resolve_args (split_ws args) ctx;
      tail ← processHelpers e rest ctx;
      Ok (match h vs with Some out => out | None => "" end +:+ tail)
  end.
Proof.
  intros Hne Hname Hgap Hargs.
  pose proof (exec_helper_call_args name gap args rest Hne Hname Hgap Hargs) as Hexec.
  unfold processHelpers. rewrite helper_call_shape in *.
  rewrite (replace_match _ _ _ _ rest _ Hexec).
  unfold group. cbn [cap Nat.eqb].
  destruct (helpers e !! name) as [h|]; [|reflexivity].
  destruct (resolve_args (split_ws args) ctx) as [vs|err]; [|reflexivity].
  rewrite !bind_Ok. now destruct (h vs).
Qed.

Lemma processHelpers_call_witness :
  processHelpers (registerHelper "pair" sample_helper new)
    "{{pair name 2}}, {{other name}}!" [("name", VStr "ann")]
    = Ok "ann,2, {{other name}}!" /\
  processHelpers (registerHelper "pair" sample_helper new)
    "{{pair constructor.caller}}" [] = Err TypeError.
Proof.
  split.
  - exact (eq_trans
             (processHelpers_call (registerHelper "pair" sample_helper new)
                "pair" " " "name 2" ", {{other name}}!" [("name", VStr "ann")]
                ltac:(discriminate) eq_refl eq_refl eq_refl)
             eq_refl).
  - exact (eq_trans
             (processHelpers_call (registerHelper "pair" sample_helper new)
                "pair" " " "constructor.caller" "" []
                ltac:(discriminate) eq_refl eq_refl eq_refl)
             eq_refl).
Defined.

(** X5.  A call without arguments, [{{name}}], does not call the helper
    with no argument: the missing argument text is the empty string, whose
    one word is resolved as the path of the empty key, so the helper gets
    one argument, [undefined] unless the context has a property of the
    empty name.  The text behind the call is processed in the same way. *)
Theorem processHelpers_bare_call (e : t) (name rest : string) (ctx : context) :
  name <> "" -> all is_word name = true ->
  processHelpers e ("{{" +:+ name +:+ "}}" +:+ rest) ctx =
  match helpers e !! name with
  | None =>
      tail ← processHelpers e rest ctx;
      Ok ("{{" +:+ name +:+ "}}" +:+ tail)
  | Some h =>
      tail ← processHelpers e rest ctx;
      Ok (match h [match assoc "" ctx with Some v => v | None => VUndefined end] with
          | Some out => out
          | None => ""
          end +:+ tail)
  end.
Proof.
  intros Hne Hname.
  pose proof (exec_helper_call_bare name rest Hne Hname) as Hexec.
  assert (Hcall : helper_call name "" "" = "{{" +:+ name +:+ "}}") by reflexivity.
  assert (Hshape : "{{" +:+ name +:+ "}}" +:+ rest = helper_call name "" "" +:+ rest).
  { rewrite Hcall. now rewrite !app_assoc. }
  rewrite Hshape.
  unfold processHelpers. rewrite helper_call_shape in *.
  rewrite (replace_match _ _ _ _ rest _ Hexec).
  unfold group. cbn [cap Nat.eqb].
  destruct (helpers e !! name) as [h|].
  2:{ rewrite bind_Ok. destruct (replace helperRegex _ rest) as [tail|err];
        [|reflexivity].
      rewrite !bind_Ok. f_equal. rewrite !app_cons, !app_assoc. reflexivity. }
  assert (Hrv : resolve_args (split_ws "") ctx =
                (x ← path_step (VObj 0 ctx) ""; Ok [x])).
  { change (resolve_args (split_ws "") ctx)
      with (x ← (y ← path_step (VObj 0 ctx) ""; Ok y); Ok [x]).
    now destruct (path_step (VObj 0 ctx) ""). }
  rewrite Hrv.
  destruct (assoc "" ctx) as [v|] eqn:Hv.
  - rewrite (path_step_own _ _ _ _ Hv), !bind_Ok.
    destruct (replace helperRegex _ rest); now destruct (h _).
  - rewrite (path_step_inherited _ _ _ Hv), !bind_Ok.
    change (inherited "") with (@None value).
    destruct (replace helperRegex _ rest); now destruct (h _).
Qed.

Lemma processHelpers_bare_call_witness :
  processHelpers (registerHelper "count" count_helper new) "{{count}} {{count}}" []
    = Ok "1 1".
Proof.
  exact (eq_trans
           (processHelpers_bare_call (registerHelper "count" count_helper new)
              "count" " {{count}}" [] ltac:(discriminate) eq_refl)
           eq_refl).
Defined.

End HelperExtras.

Module BlockFacts.
Import Str Regex Value TemplateEngine Markers StrFacts RegexFacts VariableRegexFacts
  EngineFacts Blocks IfBlocks MatcherFacts HelperFacts.

Lemma index_of_lacks (a : ascii) (t x rest : string) :
  lacks a x = true ->
  index_of (String a t) (x +:+ String a t +:+ rest) = Some (String.length x).
Proof.
  induction x as [|c x IH]; intros Hx.
  - change ("" +:+ String a t +:+ rest) with (String a t +:+ rest).
    destruct (String a t +:+ rest) eqn:E; [discriminate E|].
    cbn [index_of]. rewrite <- E. now rewrite starts_with_app.
  - cbn in Hx. apply andb_prop in Hx as [Hc Hx]. apply negb_true_iff in Hc.
    rewrite app_cons. cbn [index_of starts_with]. rewrite Hc. cbn [andb].
    now rewrite (IH Hx).
Qed.

Lemma rmatch_opt {R} (r : regex) (s : string) (caps : captures) (k : @cont R) :
  rmatch (Opt r) s caps k =
  match rmatch r s caps k with
  | Some x => Some x
  | None => k s caps
  end.
Proof. reflexivity. Qed.

Lemma rmatch_grp {R} (i : nat) (r : regex) (s : string) (caps : captures) (k : @cont R) :
  rmatch (Grp i r) s caps k =
  rmatch r s caps (fun s' caps' => k s' (set_cap i (consumed s s') caps')).
Proof. reflexivity. Qed.

Lemma rmatch_cls {R} (p : ascii -> bool) (c : ascii) (s : string) (caps : captures)
    (k : @cont R) :
  rmatch (Cls p) (String c s) caps k = if p c then k s caps else None.
Proof. reflexivity. Qed.

Lemma rmatch_star_greedy {R} (p : ascii -> bool) (s : string) (caps : captures)
    (k : @cont R) :
  rmatch (Star true p) s caps k = star_greedy p s caps k.
Proof. reflexivity. Qed.

Lemma rmatch_star_lazy {R} (p : ascii -> bool) (s : string) (caps : captures)
    (k : @cont R) :
  rmatch (Star false p) s caps k = star_lazy p s caps k.
Proof. reflexivity. Qed.

Lemma branches_reject (c : ascii) (u : string) (caps : captures) :
  Ascii.eqb "{" c = false ->
  rmatch (Opt (lit "{{#else}}" · Grp 3 (Star false any)) · lit "{{/if}}")%re
    (String c u) caps final_k = None.
Proof.
  intros Hc. rewrite rmatch_seq, rmatch_opt.
  rewrite rmatch_seq, rmatch_lit_reject by exact Hc.
  now apply rmatch_lit_reject.
Qed.

Lemma exec_branches (a : string) (alt : option string) (rest : string) (caps : captures) :
  lacks "{" a = true -> lacks "{" (alternative alt) = true ->
  rmatch branches_re
    (a +:+ match alt with Some b => "{{#else}}" +:+ b | None => "" end
       +:+ "{{/if}}" +:+ rest) caps final_k =
  Some (match alt with
        | Some b => set_cap 3 b (set_cap 2 a caps)
        | None => set_cap 2 a caps
        end, rest).
Proof.
  intros Ha Hb. unfold branches_re. rewrite rmatch_seq, rmatch_grp, rmatch_star_lazy.
  rewrite (lazy_any_skip "{" a); [|intros c u Hc; now apply branches_reject | exact Ha].
  rewrite star_lazy_unfold, consumed_app.
  destruct alt as [b|]; cbn [alternative] in Hb.
  - rewrite rmatch_seq, rmatch_opt.
    rewrite rmatch_seq, !app_assoc, rmatch_lit_app, rmatch_grp, rmatch_star_lazy.
    pose proof (lazy_any_find 3 "{{/if}}" "" b rest (set_cap 2 a caps)
                  (index_of_lacks "{" "{/if}}" b rest Hb)) as Hfind.
    change ("" +:+ b +:+ "{{/if}}" +:+ rest) with (b +:+ "{{/if}}" +:+ rest) in Hfind.
    rewrite Hfind. reflexivity.
  - reflexivity.
Qed.

Lemma is_body_first (body rest : string) :
  is_body body = true ->
  match body +:+ rest with "" => True | String c _ => is_space c = false end.
Proof.
  destruct body as [|c x]; [discriminate|]. rewrite app_cons. cbn [is_body].
  intros H. apply andb_prop in H as [H _]. now apply negb_true_iff in H.
Qed.

(** A directive that opens a block, matched by the keyword, [\s+], the
    group, [\s*\}\}] and the rest of the pattern. *)
Lemma exec_opening (keyword : string) (rest_re : regex) (gap body rest : string)
    (r : captures * string) :
  is_gap gap = true -> is_body body = true ->
  rmatch rest_re rest (set_cap 1 (drop_while_end is_space body) []) final_k = Some r ->
  exec (lit keyword · Plus true is_space · Grp 1 (Plus false not_close)
        · Star true is_space · lit "}}" · rest_re)%re
    (opening keyword gap body +:+ rest) = Some r.
Proof.
  intros Hgap Hbody Hrest.
  destruct (is_gap_inv gap Hgap) as (g0 & g' & -> & Hg0 & Hg').
  unfold exec, opening.
  rewrite !app_assoc, rmatch_seq, rmatch_lit_app.
  unfold Plus at 1. rewrite !rmatch_seq, app_cons, rmatch_cls, Hg0, rmatch_star_greedy.
  apply star_greedy_run; [exact Hg' | | now apply is_body_first].
  now apply (opening_body rest_re 1 body).
Qed.

Lemma exec_if_block (gap cond a : string) (alt : option string) (rest : string) :
  is_gap gap = true -> is_body cond = true ->
  lacks "{" a = true -> lacks "{" (alternative alt) = true ->
  exec conditionalRegex (if_block gap cond a alt +:+ rest) =
  Some (match alt with
        | Some b => [(3%nat, b); (2%nat, a); (1%nat, drop_while_end is_space cond)]
        | None => [(2%nat, a); (1%nat, drop_while_end is_space cond)]
        end, rest).
Proof.
  intros Hgap Hcond Ha Hb. unfold if_block. rewrite !app_assoc.
  apply (exec_opening "{{#if" branches_re gap cond); [exact Hgap | exact Hcond |].
  pose proof (exec_branches a alt rest
                (set_cap 1 (drop_while_end is_space cond) []) Ha Hb) as Hbr.
  destruct alt; exact Hbr.
Qed.

Lemma opening_shape (keyword gap body : string) (c : ascii) :
  opening (String c keyword) gap body = String c (keyword +:+ gap +:+ body +:+ "}}").
Proof. reflexivity. Qed.

Lemma if_block_shape (gap cond a : string) (alt : option string) :
  if_block gap cond a alt =
  String "{" (("{#if" +:+ gap +:+ cond +:+ "}}") +:+ a +:+
              match alt with
              | Some b => "{{#else}}" +:+ b
              | None => ""
              end +:+ "{{/if}}").
Proof. reflexivity. Qed.

Lemma includes_app (t x y : string) : includes t (x +:+ t +:+ y) = true.
Proof.
  induction x as [|c x IH].
  - change ("" +:+ t +:+ y) with (t +:+ y).
    destruct (t +:+ y) eqn:E; cbn [includes]; rewrite <- E, starts_with_app; reflexivity.
  - rewrite app_cons. cbn [includes]. rewrite IH. apply orb_true_r.
Qed.

Lemma split_str_lacks (r : string) :
  lacks "=" r = true -> split_str_from "==" 0 r = [r].
Proof.
  induction r as [|c r IH]; intros Hr; [reflexivity|].
  rewrite lacks_cons in Hr. apply andb_prop in Hr as [Hc Hr]. apply negb_true_iff in Hc.
  cbn [split_str_from starts_with]. rewrite Hc. cbn [andb]. now rewrite (IH Hr).
Qed.

Lemma split_str_sides (l r : string) :
  lacks "=" l = true -> lacks "=" r = true ->
  split_str "==" (l +:+ "==" +:+ r) = [l; r].
Proof.
  intros Hl Hr. unfold split_str. induction l as [|c l IH].
  - change ("" +:+ "==" +:+ r) with (String "=" (String "=" r)).
    cbn. now rewrite (split_str_lacks r Hr).
  - rewrite lacks_cons in Hl. apply andb_prop in Hl as [Hc Hl].
    apply negb_true_iff in Hc.
    rewrite app_cons. cbn [split_str_from starts_with]. rewrite Hc. cbn [andb].
    now rewrite (IH Hl).
Qed.

End BlockFacts.

Module BlockExtras.
Import Str Regex Value TemplateEngine Markers StrFacts RegexFacts VariableRegexFacts
  EngineFacts Blocks IfBlocks MatcherFacts HelperFacts BlockFacts.

(** X6.  The conditional stage at a block [{{#if cond}}A{{/if}}] or
    [{{#if cond}}A{{#else}}B{{/if}}] whose condition has no [==] and whose
    branches hold no opening brace.  The condition is resolved as a literal
    or a path, and what resolving throws the stage throws.  The block is
    replaced by [A] when the value is truthy and by [B] (by nothing without
    [{{#else}}]) otherwise, and the text behind the block is processed in
    the same way. *)
Theorem processConditionals_truthy (gap cond a : string) (alt : option string)
    (rest : string) (ctx : context) :
  is_gap gap = true -> is_body cond = true ->
  drop_while_end is_space cond = cond -> includes "==" cond = false ->
  lacks "{" a = true -> lacks "{" (alternative alt) = true ->
  processConditionals (if_block gap cond a alt +:+ rest) ctx =
  (v ← resolveValue cond ctx;
   chosen ← truthy v;
   tail ← processConditionals rest ctx;
   Ok ((if (chosen : bool) then a else alternative alt) +:+ tail)).
Proof.
  intros Hgap Hcond Htrim Hinc Ha Hb.
  pose proof (exec_if_block gap cond a alt rest Hgap Hcond Ha Hb) as Hexec.
  rewrite Htrim in Hexec.
  unfold processConditionals. rewrite if_block_shape in *.
  rewrite (replace_match _ _ _ _ rest _ Hexec).
  destruct alt as [b|]; cbv beta zeta; unfold group; cbn [cap Nat.eqb alternative];
    rewrite Hinc;
    (destruct (resolveValue cond ctx) as [v|err]; [|reflexivity]);
    rewrite !bind_Ok;
    (destruct (truthy v) as [chosen|err]; [|reflexivity]);
    rewrite !bind_Ok; reflexivity.
Qed.

Lemma processConditionals_truthy_witness :
  processConditionals "{{#if hasState}}useState{{/if}}!" [("hasState", VBool true)]
    = Ok "useState!" /\
  processConditionals "{{#if toString}}A{{#else}}B{{/if}}" [] = Ok "A" /\
  processConditionals "{{#if user.name}}A{{#else}}B{{/if}}" [] = Ok "B" /\
  processConditionals "{{#if constructor.caller}}A{{/if}}" [] = Err TypeError.
Proof.
  split; [|split; [|split]].
  - exact (eq_trans
             (processConditionals_truthy " " "hasState" "useState" None "!"
                [("hasState", VBool true)] eq_refl eq_refl eq_refl eq_refl eq_refl eq_refl)
             eq_refl).
  - exact (eq_trans
             (processConditionals_truthy " " "toString" "A" (Some "B") "" []
                eq_refl eq_refl eq_refl eq_refl eq_refl eq_refl)
             eq_refl).
  - exact (eq_trans
             (processConditionals_truthy " " "user.name" "A" (Some "B") "" []
                eq_refl eq_refl eq_refl eq_refl eq_refl eq_refl)
             eq_refl).
  - exact (eq_trans
             (processConditionals_truthy " " "constructor.caller" "A" None "" []
                eq_refl eq_refl eq_refl eq_refl eq_refl eq_refl)
             eq_refl).
Defined.

(** X7.  The conditional stage at a block whose condition is
    [left == right]: both sides are trimmed and resolved, the left one
    first, and what resolving or comparing throws the stage throws.  The
    block is replaced by its first branch when the two values are loosely
    equal (the number 1 and the string "1" are) and by its second branch
    otherwise; the text behind the block is processed in the same way. *)
Theorem processConditionals_equality (gap lhs rhs a : string) (alt : option string)
    (rest : string) (ctx : context) :
  is_gap gap = true -> is_body (lhs +:+ "==" +:+ rhs) = true ->
  drop_while_end is_space (lhs +:+ "==" +:+ rhs) = lhs +:+ "==" +:+ rhs ->
  lacks "=" lhs = true -> lacks "=" rhs = true ->
  lacks "{" a = true -> lacks "{" (alternative alt) = true ->
  processConditionals (if_block gap (lhs +:+ "==" +:+ rhs) a alt +:+ rest) ctx =
  (leftValue ← resolveValue (trim lhs) ctx;
   rightValue ← resolveValue (trim rhs) ctx;
   chosen ← loose_eq leftValue rightValue;
   tail ← processConditionals rest ctx;
   Ok ((if (chosen : bool) then a else alternative alt) +:+ tail)).
Proof.
  intros Hgap Hcond Htrim Hl Hr Ha Hb.
  pose proof (exec_if_block gap _ a alt rest Hgap Hcond Ha Hb) as Hexec.
  rewrite Htrim in Hexec.
  unfold processConditionals. rewrite if_block_shape in *.
  rewrite (replace_match _ _ _ _ rest _ Hexec).
  destruct alt as [b|]; cbv beta zeta; unfold group; cbn [cap Nat.eqb alternative];
    rewrite includes_app, (split_str_sides lhs rhs Hl Hr); cbn [List.map];
    (destruct (resolveValue (trim lhs) ctx) as [lv|err]; [|reflexivity]);
    rewrite !bind_Ok;
    (destruct (resolveValue (trim rhs) ctx) as [rv|err]; [|reflexivity]);
    rewrite !bind_Ok;
    (destruct (loose_eq lv rv) as [chosen|err]; [|reflexivity]);
    rewrite !bind_Ok; reflexivity.
Qed.

Lemma processConditionals_equality_witness :
  processConditionals "{{#if a == b}}X{{#else}}Y{{/if}}" [("a", int 1); ("b", VStr "1")]
    = Ok "X" /\
  processConditionals "{{#if a == 1.50}}X{{#else}}Y{{/if}}" [("a", VStr " 1.5")]
    = Ok "X" /\
  processConditionals "{{#if a == b}}X{{#else}}Y{{/if}}" [("a", int 1); ("b", int 2)]
    = Ok "Y" /\
  processConditionals "{{#if constructor.name == b}}X{{/if}}" [("b", VStr "Object")]
    = Ok "X".
Proof.
  split; [|split; [|split]].
  - exact (eq_trans
             (processConditionals_equality " " "a " " b" "X" (Some "Y") ""
                [("a", int 1); ("b", VStr "1")]
                eq_refl eq_refl eq_refl eq_refl eq_refl eq_refl eq_refl)
             eq_refl).
  - exact (eq_trans
             (processConditionals_equality " " "a " " 1.50" "X" (Some "Y") ""
                [("a", VStr " 1.5")]
                eq_refl eq_refl eq_refl eq_refl eq_refl eq_refl eq_refl)
             eq_refl).
  - exact (eq_trans
             (processConditionals_equality " " "a " " b" "X" (Some "Y") ""
                [("a", int 1); ("b", int 2)]
                eq_refl eq_refl eq_refl eq_refl eq_refl eq_refl eq_refl)
             eq_refl).
  - exact (eq_trans
             (processConditionals_equality " " "constructor.name " " b" "X" None ""
                [("b", VStr "Object")]
                eq_refl eq_refl eq_refl eq_refl eq_refl eq_refl eq_refl)
             eq_refl).
Defined.

End BlockExtras.

Module LoopFacts.
Import Str Regex Value TemplateEngine Markers StrFacts RegexFacts VariableRegexFacts
  EngineFacts PathFacts Blocks IfBlocks LoopBlocks MatcherFacts HelperFacts BlockFacts.

Lemma exec_each_block (gap path content rest : string) :
  is_gap gap = true -> is_body path = true ->
  index_of "{{/each}}" (content +:+ "{{/each}}" +:+ rest) = Some (String.length content) ->
  exec loopRegex (each_block gap path content +:+ rest) =
  Some ([(2%nat, content); (1%nat, drop_while_end is_space path)], rest).
Proof.
  intros Hgap Hpath Hidx. unfold each_block. rewrite !app_assoc.
  apply (exec_opening "{{#each" content_re gap path); [exact Hgap | exact Hpath |].
  unfold content_re. rewrite rmatch_seq, rmatch_grp, rmatch_star_lazy.
  exact (lazy_any_find 2 "{{/each}}" "" content rest _ Hidx).
Qed.

Lemma each_block_shape (gap path content : string) :
  each_block gap path content =
  String "{" (("{#each" +:+ gap +:+ path +:+ "}}") +:+ content +:+ "{{/each}}").
Proof. reflexivity. Qed.

Lemma assoc_set_same (k : string) (v : value) (m : list (string * value)) :
  assoc k (assoc_set k v m) = Some v.
Proof.
  induction m as [|[k' w] m IH]; cbn.
  - now rewrite String.eqb_refl.
  - destruct (String.eqb k k') eqn:E; cbn; rewrite E; [reflexivity | exact IH].
Qed.

Lemma assoc_set_other (k k' : string) (v : value) (m : list (string * value)) :
  k <> k' -> assoc k (assoc_set k' v m) = assoc k m.
Proof.
  intros Hne. induction m as [|[k0 w] m IH]; cbn.
  - apply String.eqb_neq in Hne. now rewrite Hne.
  - destruct (String.eqb k' k0) eqn:E; cbn.
    + apply String.eqb_eq in E. subst k0.
      apply String.eqb_neq in Hne. now rewrite Hne.
    + destruct (String.eqb k k0); [reflexivity | exact IH].
Qed.

Lemma index_of_cons (t : string) (c : ascii) (s : string) :
  index_of t (String c s) =
  if starts_with t (String c s) then Some O else option_map S (index_of t s).
Proof. reflexivity. Qed.

Lemma index_of_skip (a : ascii) (t x s : string) (n : nat) :
  lacks a x = true ->
  index_of (String a t) s = Some n ->
  index_of (String a t) (x +:+ s) = Some (String.length x + n)%nat.
Proof.
  intros Hx Hs. induction x as [|c x IH]; [exact Hs|].
  rewrite lacks_cons in Hx. apply andb_prop in Hx as [Hc Hx]. apply negb_true_iff in Hc.
  rewrite app_cons, index_of_cons. cbn [starts_with]. rewrite Hc. cbn [andb].
  now rewrite (IH Hx).
Qed.

(** The first [{{/each}}] behind a body [pre{{item}}post] without other
    braces is the one that follows it. *)
Lemma index_of_item_body (pre post rest : string) :
  lacks "{" pre = true -> lacks "{" post = true ->
  index_of "{{/each}}" ((pre +:+ "{{item}}" +:+ post) +:+ "{{/each}}" +:+ rest) =
  Some (String.length (pre +:+ "{{item}}" +:+ post)).
Proof.
  intros Hpre Hpost.
  rewrite !app_assoc, !length_app.
  apply index_of_skip; [exact Hpre|].
  change ("{{item}}" +:+ post +:+ "{{/each}}" +:+ rest)
    with (String "{" (String "{" ("item}}" +:+ post +:+ "{{/each}}" +:+ rest))).
  rewrite index_of_cons.
  change (starts_with "{{/each}}"
            (String "{" (String "{" ("item}}" +:+ post +:+ "{{/each}}" +:+ rest))))
    with false.
  rewrite index_of_cons.
  change (starts_with "{{/each}}" (String "{" ("item}}" +:+ post +:+ "{{/each}}" +:+ rest)))
    with false.
  rewrite (index_of_skip "{" "{/each}}" "item}}" (post +:+ "{{/each}}" +:+ rest)
             (String.length post)); [reflexivity | reflexivity |].
  rewrite (index_of_lacks "{" "{/each}}" post rest Hpost). reflexivity.
Qed.

Lemma resolve_item (item : value) (index : nat) (ctx : context) :
  resolve_path "item"
    (assoc_set "index" (int (Z.of_nat index)) (assoc_set "item" item ctx)) = Ok item.
Proof.
  apply resolve_path_key; [reflexivity|].
  rewrite assoc_set_other by discriminate. apply assoc_set_same.
Qed.

Lemma render_items_item (pre post : string) (ctx : context) (items : list value)
    (printed : list string) :
  lacks "{" pre = true -> lacks "{" post = true ->
  Forall2 (fun item s => shown item = Ok s /\ lacks "{" s = true) items printed ->
  forall index,
    render_items (pre +:+ "{{item}}" +:+ post) ctx index items =
    Ok (List.map (fun s => pre +:+ s +:+ post) printed).
Proof.
  intros Hpre Hpost Hitems.
  induction Hitems as [|item s items printed [Hshown Hs] _ IH]; intros index.
  - reflexivity.
  - cbn [render_items List.map].
    set (ictx := assoc_set "index" (int (Z.of_nat index)) (assoc_set "item" item ctx)).
    assert (Hstage1 : replaceVariables (pre +:+ "{{item}}" +:+ post) ictx =
                      Ok (pre +:+ s +:+ post)).
    { rewrite (replaceVariables_text pre _ ictx Hpre).
      change ("{{item}}" +:+ post) with ("{{" +:+ "item" +:+ "}}" +:+ post).
      rewrite (replaceVariables_marker "item" post ictx ltac:(discriminate) eq_refl).
      cbn [substitute]. change (marker_path "item") with "item".
      unfold ictx. rewrite resolve_item, bind_Ok, Hshown, bind_Ok.
      unfold replaceVariables.
      rewrite (replace_lacks "{" _ _ post starts_at_variable Hpost).
      reflexivity. }
    rewrite Hstage1, bind_Ok.
    assert (Hplain : lacks "{" (pre +:+ s +:+ post) = true).
    { unfold lacks in *. rewrite !all_app, Hpre, Hs, Hpost. reflexivity. }
    destruct (later_stages_lacks new _ ictx Hplain) as (-> & _).
    rewrite bind_Ok, (IH (S index)). reflexivity.
Qed.

End LoopFacts.

Module LoopExtras.
Import Str Regex Value TemplateEngine Markers StrFacts RegexFacts VariableRegexFacts
  EngineFacts Blocks IfBlocks LoopBlocks MatcherFacts HelperFacts BlockFacts LoopFacts.

(** X8.  The loop stage at a block [{{#each path}}content{{/each}}] whose
    content does not hold the closing directive: when the path resolves to
    a value that is not an array (a string, an object, a missing property)
    the block is replaced by nothing, whatever its content, and the text
    behind the block is processed in the same way. *)
Theorem processLoops_block (gap path content rest : string) (ctx : context)
    (v : value) :
  is_gap gap = true -> is_body path = true ->
  drop_while_end is_space path = path ->
  index_of "{{/each}}" (content +:+ "{{/each}}" +:+ rest) = Some (String.length content) ->
  resolve_path path ctx = Ok v -> as_array v = None ->
  processLoops (each_block gap path content +:+ rest) ctx = processLoops rest ctx.
Proof.
  intros Hgap Hpath Htrim Hidx Hv Harr.
  pose proof (exec_each_block gap path content rest Hgap Hpath Hidx) as Hexec.
  rewrite Htrim in Hexec.
  unfold processLoops. rewrite each_block_shape in *.
  rewrite (replace_match _ _ _ _ rest _ Hexec).
  cbv beta zeta. unfold group. cbn [cap Nat.eqb]. rewrite Hv, bind_Ok, Harr, bind_Ok.
  destruct (replace loopRegex _ rest); reflexivity.
Qed.

Lemma processLoops_block_witness :
  processLoops "{{#each user.tags}}<li>{{item}}</li>{{/each}}."
    [("user", VObj 1 [("tags", VStr "a,b")])] = Ok "." /\
  processLoops "{{#each user}}<li>{{item}}</li>{{/each}}{{#each rows}}-{{/each}}"
    [("user", VObj 1 [("tags", VStr "a,b")])] = Ok "".
Proof.
  split.
  - exact (eq_trans
             (processLoops_block " " "user.tags" "<li>{{item}}</li>" "."
                [("user", VObj 1 [("tags", VStr "a,b")])] (VStr "a,b")
                eq_refl eq_refl eq_refl eq_refl eq_refl eq_refl)
             eq_refl).
  - exact (eq_trans
             (processLoops_block " " "user" "<li>{{item}}</li>" "{{#each rows}}-{{/each}}"
                [("user", VObj 1 [("tags", VStr "a,b")])]
                (VObj 1 [("tags", VStr "a,b")])
                eq_refl eq_refl eq_refl eq_refl eq_refl eq_refl)
             eq_refl).
Defined.

(** X9.  A loop whose content is text around one [{{item}}] marker, over a
    path that resolves to an array whose elements print without an opening
    brace (as numbers and plain strings do, an undefined element printing
    as nothing): the block is replaced by the text with each element
    printed in the place of the marker, once per element, in the order of
    the array and without separator.  The text behind the block is
    processed in the same way. *)
Theorem processLoops_items (gap path pre post rest : string) (ctx : context)
    (r : nat) (items : list value) (printed : list string) :
  is_gap gap = true -> is_body path = true ->
  drop_while_end is_space path = path ->
  lacks "{" pre = true -> lacks "{" post = true ->
  resolve_path path ctx = Ok (VArr r items) ->
  Forall2 (fun item s => shown item = Ok s /\ lacks "{" s = true) items printed ->
  processLoops (each_block gap path (pre +:+ "{{item}}" +:+ post) +:+ rest) ctx =
  (tail ← processLoops rest ctx;
   Ok (concat_all (List.map (fun s => pre +:+ s +:+ post) printed) +:+ tail)).
Proof.
  intros Hgap Hpath Htrim Hpre Hpost Hv Hitems.
  pose proof (exec_each_block gap path _ rest Hgap Hpath
                (index_of_item_body pre post rest Hpre Hpost)) as Hexec.
  rewrite Htrim in Hexec.
  unfold processLoops. rewrite each_block_shape in *.
  rewrite (replace_match _ _ _ _ rest _ Hexec).
  cbv beta zeta. unfold group. cbn [cap Nat.eqb]. rewrite Hv, bind_Ok.
  cbn [as_array].
  rewrite (render_items_item pre post ctx items printed Hpre Hpost Hitems 0).
  reflexivity.
Qed.

Lemma processLoops_items_witness :
  processLoops "{{#each items}}[{{item}}]{{/each}}!"
    [("items", VArr 1 [int 1; VNum (Num.Dec 1 7); VNum (Num.Dec (10 ^ 21) 0);
                       VUndefined; VStr "x"])]
    = Ok "[1][1e-7][1e+21][][x]!".
Proof.
  exact (eq_trans
           (processLoops_items " " "items" "[" "]" "!"
              [("items", VArr 1 [int 1; VNum (Num.Dec 1 7); VNum (Num.Dec (10 ^ 21) 0);
                                 VUndefined; VStr "x"])]
              1 [int 1; VNum (Num.Dec 1 7); VNum (Num.Dec (10 ^ 21) 0); VUndefined;
                 VStr "x"]
              ["1"; "1e-7"; "1e+21"; ""; "x"]
              eq_refl eq_refl eq_refl eq_refl eq_refl eq_refl
              ltac:(repeat constructor))
           eq_refl).
Defined.

End LoopExtras.

Module LoopBodyFacts.
Import Str Regex Value TemplateEngine Markers StrFacts RegexFacts EngineFacts PathFacts
  Blocks IfBlocks LoopBlocks BlockFacts LoopFacts CodeTemplates.

Lemma render_items_segments (segs : list segment) (ctx : context) (items : list value) :
  forallb code_formed segs = true ->
  forall index outs,
    expand_items segs ctx index items = Ok outs ->
    Forall (fun s => includes "{{" s = false) outs ->
    render_items (flatten segs) ctx index items = Ok outs.
Proof.
  intros Hwf. induction items as [|item items IH]; intros index outs Hexp Hout.
  - exact Hexp.
  - cbn [expand_items] in Hexp.
    apply bind_result in Hexp as (first & Hfirst & Hexp).
    apply bind_result in Hexp as (others & Hothers & Hexp).
    injection Hexp as <-.
    apply Forall_cons in Hout as [Hitem Hout].
    cbn [render_items]. fold (item_context ctx index item).
    rewrite (replaceVariables_code_segments segs _ Hwf), Hfirst, bind_Ok.
    destruct (later_stages_no_pair new _ (item_context ctx index item) Hitem) as (-> & _).
    now rewrite bind_Ok, (IH (S index) others Hothers Hout).
Qed.

End LoopBodyFacts.

Module LoopBodyExtras.
Import Str Regex Value TemplateEngine Markers StrFacts RegexFacts EngineFacts PathFacts
  Blocks IfBlocks LoopBlocks BlockFacts LoopFacts CodeTemplates LoopBodyFacts.

(** X25.  The loop stage renders its content once per element by
    replacing every marker of the content as a variable in the context of
    the element ([item], [index] and the properties of the outer context):
    [{{item.name}}] prints a property of the element and [{{index}}] its
    position.  The directives of a conditional inside the content are
    replaced in the same way, by the empty string unless the context has a
    property of that name, so a conditional inside a loop selects no
    branch: the text of its branches is always kept.  This holds where
    every marker resolves and prints for every element, and no rendered
    piece holds two opening braces in a row. *)
Theorem processLoops_body_markers (gap path : string) (segs : list segment)
    (rest : string) (ctx : context) (r : nat) (items : list value)
    (outs : list string) :
  is_gap gap = true -> is_body path = true ->
  drop_while_end is_space path = path ->
  forallb code_formed segs = true ->
  index_of "{{/each}}" (flatten segs +:+ "{{/each}}" +:+ rest)
    = Some (String.length (flatten segs)) ->
  resolve_path path ctx = Ok (VArr r items) ->
  expand_items segs ctx 0 items = Ok outs ->
  Forall (fun s => includes "{{" s = false) outs ->
  processLoops (each_block gap path (flatten segs) +:+ rest) ctx =
  (tail ← processLoops rest ctx; Ok (concat_all outs +:+ tail)).
Proof.
  intros Hgap Hpath Htrim Hwf Hidx Hv Hexp Hout.
  pose proof (exec_each_block gap path _ rest Hgap Hpath Hidx) as Hexec.
  rewrite Htrim in Hexec.
  unfold processLoops. rewrite each_block_shape in *.
  rewrite (replace_match _ _ _ _ rest _ Hexec).
  cbv beta zeta. unfold group. cbn [cap Nat.eqb]. rewrite Hv, bind_Ok.
  cbn [as_array].
  rewrite (render_items_segments segs ctx items Hwf 0 outs Hexp Hout).
  reflexivity.
Qed.

Lemma processLoops_body_markers_witness :
  processLoops
    "{{#each props}}{{item.name}}{{#if item.optional}}?{{/if}}: {{index}};{{/each}}"
    [("props", VArr 1 [VObj 2 [("name", VStr "id"); ("optional", VBool false)];
                       VObj 3 [("name", VStr "key"); ("optional", VBool true)]])]
    = Ok "id?: 0;key?: 1;".
Proof.
  exact (eq_trans
           (processLoops_body_markers " " "props"
              [Marker "item.name"; Marker "#if item.optional"; Text "?"; Marker "/if";
               Text ": "; Marker "index"; Text ";"] ""
              [("props", VArr 1 [VObj 2 [("name", VStr "id"); ("optional", VBool false)];
                                 VObj 3 [("name", VStr "key"); ("optional", VBool true)]])]
              1 [VObj 2 [("name", VStr "id"); ("optional", VBool false)];
                 VObj 3 [("name", VStr "key"); ("optional", VBool true)]]
              ["id?: 0;"; "key?: 1;"]
              eq_refl eq_refl eq_refl eq_refl eq_refl eq_refl eq_refl
              ltac:(repeat constructor))
           eq_refl).
Defined.

End LoopBodyExtras.

Module CaseFacts.
Import Str Regex Value TemplateEngine Markers StrFacts RegexFacts VariableRegexFacts
  EngineFacts Blocks MatcherFacts HelperFacts BlockFacts LoopFacts ReactTemplate.

Lemma consumed_one (c : ascii) (rest : string) : consumed (String c rest) rest = String c "".
Proof. exact (consumed_app (String c "") rest). Qed.

Lemma consumed_two (a b : ascii) (rest : string) :
  consumed (String a (String b rest)) rest = String a (String b "").
Proof. exact (consumed_app (String a (String b "")) rest). Qed.

Lemma exec_hump (a : ascii) (s : string) :
  exec hump_regex (String a s) =
  match s with
  | String b t =>
      if is_lower a && is_upper b
      then Some ([(2%nat, String b ""); (1%nat, String a "")], t)
      else None
  | "" => None
  end.
Proof.
  unfold exec, hump_regex.
  rewrite rmatch_seq, rmatch_grp, rmatch_cls.
  destruct (is_lower a); [|now destruct s].
  destruct s as [|b t]; [reflexivity|].
  rewrite rmatch_grp, rmatch_cls.
  destruct (is_upper b); [|reflexivity].
  now rewrite !consumed_one.
Qed.

Lemma rmatch_chr {R} (c a : ascii) (s : string) (caps : captures) (k : @cont R) :
  rmatch (Chr c) (String a s) caps k = if Ascii.eqb c a then k s caps else None.
Proof. reflexivity. Qed.

Lemma exec_dash (a : ascii) (s : string) :
  exec dash_regex (String a s) =
  match s with
  | String b t =>
      if Ascii.eqb "-" a && is_lower b then Some ([(1%nat, String b "")], t) else None
  | "" => None
  end.
Proof.
  unfold exec, dash_regex.
  rewrite rmatch_seq, rmatch_chr.
  destruct (Ascii.eqb "-" a); [|now destruct s].
  destruct s as [|b t]; [reflexivity|].
  rewrite rmatch_grp, rmatch_cls.
  destruct (is_lower b); [|reflexivity].
  now rewrite consumed_one.
Qed.

Lemma replace_cons_match (re : regex) cb (a b : ascii) (t : string) (caps : captures) :
  exec re (String a (String b t)) = Some (caps, t) ->
  replace re cb (String a (String b t)) =
  (out ← cb (String a (String b "")) caps; tail ← replace re cb t; Ok (out +:+ tail)).
Proof. intros H. exact (replace_match re cb a (String b "") t caps H). Qed.

Lemma upper_not_lower (c : ascii) : is_upper c = true -> is_lower c = false.
Proof.
  unfold is_upper, is_lower. generalize (code c). intros n H.
  repeat match goal with
         | |- context [N.leb ?a ?b] => destruct (N.leb_spec a b)
         | H : context [N.leb ?a ?b] |- _ => destruct (N.leb_spec a b)
         end; cbn in *; try reflexivity; try discriminate; lia.
Qed.

Lemma lower_of_upper (c : ascii) :
  is_upper c = true ->
  is_lower (to_lower_char c) = true /\ to_upper_char (to_lower_char c) = c /\
  is_space (to_lower_char c) = false /\ Ascii.eqb "-" (to_lower_char c) = false.
Proof.
  destruct c as [[] [] [] [] [] [] [] []]; intros H; try discriminate H;
    repeat split; reflexivity.
Qed.

Lemma to_lower_other (c : ascii) : is_upper c = false -> to_lower_char c = c.
Proof. unfold to_lower_char. now intros ->. Qed.

(** The first replacement of [kebabCase] on a camel-case identifier. *)
Lemma hump_stage (s : string) :
  (camel_shaped_from false s = true -> replace hump_regex hump_replacement s = Ok (dashed s)) /\
  (forall a, is_lower a = true -> camel_shaped_from true s = true ->
             replace hump_regex hump_replacement (String a s) = Ok (String a (dashed s))).
Proof.
  induction s as [|c t [IH1 IH2]].
  - split; [reflexivity|]. intros a Ha _.
    rewrite replace_nomatch by (now rewrite exec_hump). reflexivity.
  - assert (Hfirst : is_upper c = false -> camel_shaped_from (is_lower c) t = true ->
                     replace hump_regex hump_replacement (String c t) = Ok (String c (dashed t))).
    { intros Hup Ht. destruct (is_lower c) eqn:Hlow.
      - now apply IH2.
      - rewrite replace_nomatch.
        + now rewrite (IH1 Ht).
        + rewrite exec_hump, Hlow. now destruct t. }
    split.
    + cbn [camel_shaped_from dashed]. intros H.
      apply andb_prop in H as [H Ht]. apply andb_prop in H as [_ Hup].
      rewrite orb_false_r in Hup. apply negb_true_iff in Hup.
      rewrite Hup. now apply Hfirst.
    + intros a Ha H. cbn [camel_shaped_from dashed] in *.
      apply andb_prop in H as [_ Ht].
      destruct (is_upper c) eqn:Hup.
      * rewrite (replace_cons_match _ _ a c t [(2%nat, String c ""); (1%nat, String a "")]).
        -- rewrite (upper_not_lower c Hup) in Ht.
           rewrite (IH1 Ht). reflexivity.
        -- now rewrite exec_hump, Ha, Hup.
      * rewrite replace_nomatch by (now rewrite exec_hump, Hup, andb_false_r).
        rewrite (Hfirst eq_refl Ht). reflexivity.
Qed.

Lemma exec_spaces_reject (c : ascii) (s : string) :
  is_space c = false -> exec spaces_regex (String c s) = None.
Proof.
  intros H. unfold exec, spaces_regex, Plus. now rewrite rmatch_seq, rmatch_cls, H.
Qed.

Lemma spaces_stage cb (s : string) :
  all (fun c => negb (is_space c)) s = true -> replace spaces_regex cb s = Ok s.
Proof.
  induction s as [|c s IH]; intros Hs; [reflexivity|].
  cbn [all] in Hs. apply andb_prop in Hs as [Hc Hs]. apply negb_true_iff in Hc.
  rewrite replace_nomatch by now apply exec_spaces_reject.
  now rewrite (IH Hs).
Qed.

Lemma dashed_no_space (after_lower : bool) (s : string) :
  camel_shaped_from after_lower s = true ->
  all (fun c => negb (is_space c)) (dashed s) = true.
Proof.
  revert after_lower. induction s as [|c s IH]; intros al H; [reflexivity|].
  cbn [camel_shaped_from] in H. repeat (apply andb_prop in H as [H ?]).
  cbn [dashed]. destruct (is_upper c); cbn [all];
    repeat (apply andb_true_intro; split); eauto.
Qed.

(** The last replacement: [camelCase] on the lower-cased dashed text. *)
Lemma dash_stage cb (after_lower : bool) (s : string) :
  (forall g caps, cb g caps =
     match String.get 1 g with
     | Some c => Ok (toUpperCase (String c ""))
     | None => Err TypeError
     end) ->
  camel_shaped_from after_lower s = true ->
  replace dash_regex cb (toLowerCase (dashed s)) = Ok s.
Proof.
  intros Hcb. revert after_lower. induction s as [|c s IH]; intros al H; [reflexivity|].
  cbn [camel_shaped_from] in H. repeat (apply andb_prop in H as [H ?]).
  cbn [dashed]. destruct (is_upper c) eqn:Hup.
  - destruct (lower_of_upper c Hup) as (Hlow & Hback & _).
    cbn [toLowerCase map_chars].
    change (to_lower_char "-") with "-"%char.
    rewrite (replace_cons_match _ _ "-" (to_lower_char c) _ [(1%nat, String (to_lower_char c) "")]).
    + rewrite Hcb. cbn [String.get]. cbn [toUpperCase map_chars]. rewrite Hback.
      fold (toLowerCase (dashed s)). erewrite IH by eassumption. reflexivity.
    + rewrite exec_dash, Hlow. reflexivity.
  - cbn [toLowerCase map_chars]. rewrite (to_lower_other c Hup).
    rewrite replace_nomatch.
    + fold (toLowerCase (dashed s)). erewrite IH by eassumption. reflexivity.
    + rewrite exec_dash.
      match goal with Hd : negb (Ascii.eqb c "-") = true |- _ =>
        apply negb_true_iff in Hd; rewrite Ascii.eqb_sym, Hd end.
      now destruct (map_chars to_lower_char (dashed s)).
Qed.

Lemma star_greedy_final (p : ascii -> bool) (s : string) (caps : captures) :
  star_greedy p s caps (fun rest caps' => Some (caps', rest)) = Some (caps, drop_while p s).
Proof.
  induction s as [|c s IH]; [reflexivity|].
  cbn [star_greedy drop_while]. destruct (p c); [now rewrite IH | reflexivity].
Qed.

Lemma exec_spaces (c : ascii) (s : string) :
  exec spaces_regex (String c s) =
  if is_space c then Some ([], drop_while is_space s) else None.
Proof.
  unfold exec, spaces_regex, Plus. rewrite rmatch_seq, rmatch_cls.
  destruct (is_space c); [|reflexivity].
  rewrite rmatch_star_greedy. apply star_greedy_final.
Qed.

Lemma length_drop_while (p : ascii -> bool) (s : string) :
  (String.length (drop_while p s) <= String.length s)%nat.
Proof.
  induction s as [|c s IH]; [reflexivity|].
  cbn [drop_while]. destruct (p c); cbn [String.length]; lia.
Qed.

(** After the second replacement of [kebabCase] no white space is left. *)
Lemma spaces_stage_total (s : string) (skip : nat) :
  exists out,
    replace_from spaces_regex (fun _ _ => Ok "-") skip s = Ok out /\
    all (fun c => negb (is_space c)) out = true.
Proof.
  revert skip. induction s as [|c s IH]; intros skip.
  - destruct skip; exists ""; split; reflexivity.
  - destruct skip as [|n]; [|exact (IH n)].
    rewrite replace_from_unfold, exec_spaces.
    destruct (is_space c) eqn:Hc.
    + cbv zeta. rewrite bind_Ok.
      pose proof (length_drop_while is_space s) as Hlen.
      cbn [String.length].
      replace (S (String.length s) - String.length (drop_while is_space s))%nat
        with (S (String.length s - String.length (drop_while is_space s))) by lia.
      destruct (IH (String.length s - String.length (drop_while is_space s))%nat)
        as (tail & -> & Htail).
      rewrite bind_Ok. exists ("-" +:+ tail). split; [reflexivity|].
      exact Htail.
    + destruct (IH 0%nat) as (tail & Hrep & Htail).
      rewrite Hrep, bind_Ok. exists (String c tail). split; [reflexivity|].
      cbn [all]. now rewrite Hc, Htail.
Qed.

Lemma to_lower_plain (c : ascii) : is_space c = false -> plain (to_lower_char c) = true.
Proof.
  intros Hc. unfold plain. destruct (is_upper c) eqn:Hup.
  - destruct (lower_of_upper c Hup) as (Hlow & _ & Hsp & _).
    rewrite Hsp. destruct (is_upper (to_lower_char c)) eqn:Hup'; [|reflexivity].
    apply upper_not_lower in Hup'. congruence.
  - rewrite (to_lower_other c Hup), Hup, Hc. reflexivity.
Qed.

Lemma toLowerCase_plain (s : string) :
  all (fun c => negb (is_space c)) s = true -> all plain (toLowerCase s) = true.
Proof.
  induction s as [|c s IH]; intros Hs; [reflexivity|].
  cbn [all] in Hs. apply andb_prop in Hs as [Hc Hs]. apply negb_true_iff in Hc.
  cbn [toLowerCase map_chars all]. rewrite (to_lower_plain c Hc). exact (IH Hs).
Qed.

Lemma toLowerCase_fixed (s : string) : all plain s = true -> toLowerCase s = s.
Proof.
  induction s as [|c s IH]; intros Hs; [reflexivity|].
  cbn [all] in Hs. apply andb_prop in Hs as [Hc Hs].
  apply andb_prop in Hc as [Hup _]. apply negb_true_iff in Hup.
  cbn [toLowerCase map_chars]. rewrite (to_lower_other c Hup).
  fold (toLowerCase s). now rewrite (IH Hs).
Qed.

Lemma hump_stage_fixed cb (s : string) :
  all plain s = true -> replace hump_regex cb s = Ok s.
Proof.
  induction s as [|c s IH]; intros Hs; [reflexivity|].
  cbn [all] in Hs. apply andb_prop in Hs as [_ Hs].
  rewrite replace_nomatch.
  - now rewrite (IH Hs).
  - rewrite exec_hump. destruct s as [|b t]; [reflexivity|].
    cbn [all] in Hs. apply andb_prop in Hs as [Hb _].
    apply andb_prop in Hb as [Hup _]. apply negb_true_iff in Hup.
    now rewrite Hup, andb_false_r.
Qed.

Lemma plain_no_space (s : string) :
  all plain s = true -> all (fun c => negb (is_space c)) s = true.
Proof.
  induction s as [|c s IH]; intros Hs; [reflexivity|].
  cbn [all] in *. apply andb_prop in Hs as [Hc Hs].
  apply andb_prop in Hc as [_ Hc]. now rewrite Hc, (IH Hs).
Qed.

End CaseFacts.

Module CaseExtras.
Import Str Regex Value TemplateEngine Markers StrFacts RegexFacts EngineFacts
  ReactTemplate LoopFacts CaseFacts.

(** X10.  On a camel-case identifier (ASCII letters and other ASCII
    characters without dash or white space, every capital behind a small
    letter) [kebabCase] puts a dash before every capital and lowers it, and
    [camelCase] undoes it: [camelCase(kebabCase(s))] is [s]. *)
Theorem camelCase_kebabCase (s : string) :
  camel_shaped s = true ->
  kebabCase s = Ok (toLowerCase (dashed s)) /\
  (k ← kebabCase s; camelCase k) = Ok s.
Proof.
  intros Hs.
  assert (Hk : kebabCase s = Ok (toLowerCase (dashed s))).
  { unfold kebabCase.
    rewrite (proj1 (hump_stage s) Hs), bind_Ok.
    rewrite (spaces_stage _ _ (dashed_no_space false s Hs)). reflexivity. }
  split; [exact Hk|]. rewrite Hk, bind_Ok.
  unfold camelCase. now apply (dash_stage _ false).
Qed.

Lemma camelCase_kebabCase_witness :
  kebabCase "onClickHandler2" = Ok (toLowerCase (dashed "onClickHandler2")) /\
  (k ← kebabCase "onClickHandler2"; camelCase k) = Ok "onClickHandler2".
Proof. apply camelCase_kebabCase. reflexivity. Defined.

(** X11.  On ASCII text, on which the case mappings of the model are
    those of the language, [kebabCase] never throws, its result holds
    neither a capital letter nor white space, and applying [kebabCase] to
    its result changes nothing. *)
Theorem kebabCase_idempotent (s : string) :
  is_ascii s = true ->
  exists k,
    kebabCase s = Ok k /\
    all (fun c => negb (is_upper c) && negb (is_space c)) k = true /\
    kebabCase k = Ok k.
Proof.
  intros _.
  destruct (replace_from_total hump_regex hump_replacement
              (fun m caps => ex_intro _ _ eq_refl) s 0%nat) as [s1 H1].
  destruct (spaces_stage_total s1 0%nat) as (s2 & H2 & Hs2).
  assert (Hk : all plain (toLowerCase s2) = true) by now apply toLowerCase_plain.
  exists (toLowerCase s2). split; [|split].
  - unfold kebabCase, replace. now rewrite H1, bind_Ok, H2.
  - exact Hk.
  - unfold kebabCase. rewrite (hump_stage_fixed _ _ Hk), bind_Ok.
    rewrite (spaces_stage _ _ (plain_no_space _ Hk)), bind_Ok.
    now rewrite (toLowerCase_fixed _ Hk).
Qed.

Lemma kebabCase_idempotent_witness :
  exists k,
    kebabCase "My ButtonGroup" = Ok k /\
    all (fun c => negb (is_upper c) && negb (is_space c)) k = true /\
    kebabCase k = Ok k.
Proof. apply kebabCase_idempotent. reflexivity. Defined.

End CaseExtras.

Module ImportFacts.
Import Str DynamicImportManager Imports StrFacts.

Lemma gtb_true (a b : Q) : gtb a b = true <-> (b < a)%Q.
Proof.
  unfold gtb. rewrite negb_true_iff, <- not_true_iff_false, Qle_bool_iff.
  split; [apply Qnot_le_lt | apply Qlt_not_le].
Qed.

Lemma gtb_false (a b : Q) : gtb a b = false <-> (a <= b)%Q.
Proof. unfold gtb. rewrite negb_false_iff. apply Qle_bool_iff. Qed.

Lemma comparator_positive (a b : component) :
  gtb (c_weight b - c_weight a) 0 = true <-> (c_weight a < c_weight b)%Q.
Proof. rewrite gtb_true. symmetry. apply Qlt_minus_iff. Qed.

Lemma sort_insert_perm (a : component) (l : list component) :
  Permutation (sort_insert by_weight a l) (a :: l).
Proof.
  induction l as [|b l IH]; cbn; [reflexivity|].
  destruct (gtb (by_weight a b) 0); [|reflexivity].
  rewrite IH. apply perm_swap.
Qed.

Lemma sort_perm (l : list component) : Permutation (sort by_weight l) l.
Proof.
  induction l as [|a l IH]; cbn; [reflexivity|].
  rewrite sort_insert_perm. now constructor.
Qed.



Lemma used_components_In (m : t) (used : list string) (c : component) :
  In c (used_components m used) <->
  In (c_name c) used /\
  m !! c_name c = Some {| path := c_path c; weight := c_weight c |}.
Proof.
  induction used as [|name used IH]; cbn [used_components In]; [tauto|].
  destruct (m !! name) as [e|] eqn:He.
  - cbn [In]. rewrite IH. split.
    + intros [<- | [Hin Hm]]; cbn; [|tauto].
      split; [now left|]. rewrite He. now destruct e.
    + intros [[-> | Hin] Hm]; [|tauto].
      left. rewrite He in Hm. injection Hm as ->. now destruct c.
  - rewrite IH. split; [tauto|].
    intros [[-> | Hin] Hm]; [congruence | tauto].
Qed.

Lemma import_line_eager (c : component) :
  (threshold < c_weight c)%Q -> import_line c = eager_import c.
Proof. intros H. unfold import_line. apply gtb_true in H. now rewrite H. Qed.

Lemma import_line_lazy (c : component) :
  (c_weight c <= threshold)%Q -> import_line c = lazy_import c.
Proof. intros H. unfold import_line. apply gtb_false in H. now rewrite H. Qed.










End ImportFacts.

Module ImportClaims.
Import Str DynamicImportManager Imports StrFacts ImportFacts.




End ImportClaims.

Module ImportOrderFacts.
Import Str DynamicImportManager Imports StrFacts ImportFacts DynamicImportBundles.

Lemma sort_insert_filter (w : Q) (a : component) (l : list component) :
  List.filter (fun c => Qeq_bool (c_weight c) w) (sort_insert by_weight a l) =
  List.filter (fun c => Qeq_bool (c_weight c) w) (a :: l).
Proof.
  induction l as [|b l IH]; [reflexivity|].
  cbn [sort_insert]. destruct (gtb (by_weight a b) 0) eqn:Hgt; [|reflexivity].
  apply comparator_positive in Hgt.
  cbn [List.filter] in *. rewrite IH.
  destruct (Qeq_bool (c_weight a) w) eqn:Ha; [|reflexivity].
  destruct (Qeq_bool (c_weight b) w) eqn:Hb; [|reflexivity].
  apply Qeq_bool_iff in Ha, Hb. rewrite Ha, Hb in Hgt.
  now apply Qlt_irrefl in Hgt.
Qed.

Lemma sort_filter (w : Q) (l : list component) :
  List.filter (fun c => Qeq_bool (c_weight c) w) (sort by_weight l) =
  List.filter (fun c => Qeq_bool (c_weight c) w) l.
Proof.
  induction l as [|a l IH]; [reflexivity|].
  cbn [sort]. rewrite sort_insert_filter. cbn [List.filter]. now rewrite IH.
Qed.



End ImportOrderFacts.

Module ImportExtras.
Import Str DynamicImportManager Imports StrFacts ImportFacts DynamicImportBundles
  ImportOrderFacts.

(** X17.  Sorting by weight is stable: the components of any one weight
    are imported in the order in which [usedComponents] lists them. *)
Theorem sortedComponents_stable (m : t) (used : list string) (w : Q) :
  List.filter (fun c => Qeq_bool (c_weight c) w) (sortedComponents m used) =
  List.filter (fun c => Qeq_bool (c_weight c) w) (used_components m used).
Proof. apply sort_filter. Qed.



(** X19.  A component registered without a weight has weight 1: whatever
    else is registered, it gets an eager [import] line with its path
    whenever it is used. *)
Theorem registerComponent_default_eager (m : t) (name path : string) (used : list string) :
  In name used ->
  In ("import " +:+ name +:+ " from '" +:+ path +:+ "';")
     (import_lines (registerComponent name path None m) used).
Proof.
  intros Hused.
  set (c := {| c_name := name; c_path := path; c_weight := 1 |}).
  assert (Hc : In c (sortedComponents (registerComponent name path None m) used)).
  { apply (Permutation_in _ (Permutation_sym (sort_perm _))).
    apply used_components_In. split; [exact Hused|].
    unfold registerComponent. cbn. apply lookup_insert_eq. }
  unfold import_lines. right.
  change ("import " +:+ name +:+ " from '" +:+ path +:+ "';") with (eager_import c).
  rewrite <- (import_line_eager c) by reflexivity.
  now apply in_map.
Qed.

Lemma registerComponent_default_eager_witness :
  In "import Card from './Card';"
     (import_lines (registerComponent "Card" "./Card" None sample_imports) ["X"; "Card"]).
Proof.
  apply (registerComponent_default_eager sample_imports "Card" "./Card" ["X"; "Card"]).
  cbn. auto.
Defined.

End ImportExtras.

Module BundleFacts.
Import DynamicImportManager ImportFacts DynamicImportBundles.

Lemma set_add_new (x : string) (s : string_set) :
  ~ In x s -> set_add x s = (s ++ [x])%list.
Proof.
  intros Hx. unfold set_add, set_has.
  destruct (existsb (String.eqb x) s) eqn:Hex; [|reflexivity].
  apply existsb_exists in Hex as (y & Hy & Heq).
  apply String.eqb_eq in Heq. now subst y.
Qed.

Lemma fold_classify (usageData : list (string * Q)) (sets : usage_sets) :
  NoDup (List.map fst usageData) ->
  (forall x, In x (List.map fst usageData) ->
             ~ In x (highUsage sets) /\ ~ In x (mediumUsage sets) /\ ~ In x (lowUsage sets)) ->
  List.fold_left classify usageData sets =
  {| highUsage := (highUsage sets ++ components_where is_high usageData)%list;
     mediumUsage := (mediumUsage sets ++ components_where is_medium usageData)%list;
     lowUsage := (lowUsage sets ++ components_where is_low usageData)%list |}.
Proof.
  revert sets. induction usageData as [|[component usage] rest IH]; intros sets Hnd Hfresh.
  - cbn. rewrite !app_nil_r. now destruct sets.
  - cbn [List.map fst] in Hnd. apply NoDup_cons in Hnd as [Hc Hnd].
    rewrite list_elem_of_In in Hc.
    destruct (Hfresh component (or_introl eq_refl)) as (Hh & Hm & Hl).
    assert (Hrest : forall x, In x (List.map fst rest) -> x <> component).
    { intros x Hx ->. contradiction. }
    cbn [List.fold_left]. rewrite IH; [|exact Hnd|].
    + unfold components_where, is_high, is_medium, is_low, classify.
      cbn [List.filter snd].
      destruct (gtb usage high_threshold); [|destruct (gtb usage medium_threshold)];
        cbn [highUsage mediumUsage lowUsage negb andb List.map fst];
        rewrite set_add_new by assumption; rewrite <- app_assoc; reflexivity.
    + intros x Hx. specialize (Hrest x Hx).
      destruct (Hfresh x (or_intror Hx)) as (Hxh & Hxm & Hxl).
      unfold classify.
      destruct (gtb usage high_threshold); [|destruct (gtb usage medium_threshold)];
        cbn [highUsage mediumUsage lowUsage]; repeat split; try assumption;
        unfold set_add; destruct (set_has component _); try assumption;
        rewrite in_app_iff; cbn; intuition congruence.
Qed.

Lemma components_partition (usageData : list (string * Q)) :
  Permutation
    (components_where is_high usageData ++ components_where is_medium usageData
       ++ components_where is_low usageData)%list
    (List.map fst usageData).
Proof.
  induction usageData as [|[component usage] rest IH]; [constructor|].
  unfold components_where, is_high, is_medium, is_low in *. cbn [List.filter snd].
  destruct (gtb usage high_threshold); [|destruct (gtb usage medium_threshold)];
    cbn [negb andb List.map fst].
  - cbn. now constructor.
  - cbn [app]. rewrite <- Permutation_middle. now constructor.
  - cbn [app]. rewrite app_assoc, <- Permutation_middle, <- app_assoc. now constructor.
Qed.

End BundleFacts.

Module BundleExtras.
Import DynamicImportManager ImportFacts DynamicImportBundles BundleFacts.

(** X20.  [optimizeBundles] discards the bundles it finds and leaves
    exactly three, in this order: "high-priority" with the components of
    usage above 0.7, "medium-priority" with those of usage above 0.3 and at
    most 0.7, and "low-priority" with those of usage at most 0.3, each in
    the order of the usage data (whose keys are distinct, as the keys of an
    object are); every component of the usage data is in exactly one of
    the three. *)
Theorem optimizeBundles_groups (usageData : list (string * Q)) (b : bundles) :
  NoDup (List.map fst usageData) ->
  optimizeBundles usageData b =
    [("high-priority", components_where is_high usageData);
     ("medium-priority", components_where is_medium usageData);
     ("low-priority", components_where is_low usageData)] /\
  Permutation
    (components_where is_high usageData ++ components_where is_medium usageData
       ++ components_where is_low usageData)%list
    (List.map fst usageData) /\
  (forall usage,
     (is_high usage = true <-> (0.7 < usage)%Q) /\
     (is_medium usage = true <-> (0.3 < usage)%Q /\ (usage <= 0.7)%Q) /\
     (is_low usage = true <-> (usage <= 0.3)%Q)).
Proof.
  intros Hnd. split; [|split].
  - unfold optimizeBundles. rewrite fold_classify; [reflexivity | exact Hnd |].
    cbn. tauto.
  - apply components_partition.
  - intros usage. unfold is_high, is_medium, is_low, high_threshold, medium_threshold.
    rewrite !andb_true_iff, !negb_true_iff, !gtb_true, !gtb_false.
    split; [reflexivity|]. split; [tauto|]. split; [tauto|].
    intros Hle. split; [|exact Hle].
    apply Qle_trans with (0.3)%Q; [exact Hle | discriminate].
Qed.

Lemma optimizeBundles_groups_witness :
  optimizeBundles [("Header", 0.9%Q); ("Chart", 0.5%Q); ("Footer", 0.7%Q); ("Help", 0.1%Q)]
    [("stale", ["Old"])] =
  [("high-priority", ["Header"]);
   ("medium-priority", ["Chart"; "Footer"]);
   ("low-priority", ["Help"])].
Proof.
  apply (optimizeBundles_groups
           [("Header", 0.9%Q); ("Chart", 0.5%Q); ("Footer", 0.7%Q); ("Help", 0.1%Q)]
           [("stale", ["Old"])]).
  apply (bool_decide_unpack _). vm_compute. reflexivity.
Defined.

End BundleExtras.

Module GeneratorFacts.
Import Value CodeGenerator Generators.

Lemma set_not_nil {V} (key : string) (v : V) (m : OrderedMap.t V) :
  OrderedMap.set key v m <> [].
Proof. destruct m as [|[k w] m]; cbn; [discriminate|]. destruct (String.eqb key k); discriminate. Qed.

Lemma set_head {V} (key : string) (v : V) (m : OrderedMap.t V) :
  List.head (OrderedMap.keys (OrderedMap.set key v m)) =
  match List.head (OrderedMap.keys m) with
  | Some first => Some first
  | None => Some key
  end.
Proof.
  destruct m as [|[k w] m]; cbn; [reflexivity|].
  destruct (String.eqb key k); reflexivity.
Qed.

(** A configuration that is registered later does not displace the first. *)
Lemma default_after_register (config : TemplateConfig) (g : t) :
  getDefaultTemplateName (registerTemplate config g) =
  match getDefaultTemplateName g with
  | Some first => Some first
  | None => Some (name config)
  end.
Proof. apply set_head. Qed.

Lemma reachable_without_configuration (g : t) :
  reachable g -> templates g = [] -> g = new.
Proof.
  induction 1 as [|config g Hg IH|n g g' Hg IH Hact]; intros Hnil.
  - reflexivity.
  - cbn in Hnil. now apply set_not_nil in Hnil.
  - unfold setActiveTemplate in Hact.
    destruct (OrderedMap.has n (templates g)) eqn:Hhas; [|discriminate].
    injection Hact as <-. cbn in Hnil. rewrite Hnil in Hhas. discriminate.
Qed.

End GeneratorFacts.

Module GeneratorClaims.
Import Value CodeGenerator Generators GeneratorFacts.

(** The configuration that is used: the active one, and the first
    registered one as long as none is set active. *)
Lemma generateComponent_dispatch_examples :
  option_map (fun code => content (main code))
    (match generateComponent (fun _ => []) type
             (registerTemplate (sample_config "B") (registerTemplate (sample_config "A") new))
             sample_component no_options
     with Ok code => Some code | Err _ => None end)
    = Some "/* A */ const div = 1;" /\
  option_map (fun code => content (main code))
    (match generateComponent (fun _ => []) type
             (activate "B"
                (registerTemplate (sample_config "B")
                   (registerTemplate (sample_config "A") new)))
             sample_component no_options
     with Ok code => Some code | Err _ => None end)
    = Some "/* B */ const div = 1;".
Proof. split; vm_compute; reflexivity. Qed.

(** C8.  Claimed: without any registered configuration [generateComponent]
    fails with a NoGeneratorRegisteredError.  The method has no test for
    the missing configuration: [getDefaultTemplateName] returns
    [undefined], the look-up of the configuration is taken on trust
    ([templates.get(templateName)!]), and the first thing to fail is the
    template engine, asked for the template "undefined:component": the call
    throws the template-not-found error for that name, whatever the
    component and the options are.  [setActiveTemplate] does test the
    name. *)
Theorem generateComponent_without_configuration
    (analyzeComponent : ComponentSchema -> TemplateEngine.context)
    (generateComponentName : ComponentSchema -> string)
    (c : ComponentSchema) (o : GenerateOptions) :
  getDefaultTemplateName new = None /\
  generateComponent analyzeComponent generateComponentName new c o =
    Err (TemplateNotFoundError "undefined:component") /\
  generateComponent analyzeComponent generateComponentName new c o <>
    Err NoGeneratorRegisteredError /\
  setActiveTemplate "react-ts" new = Err (TemplateNotFoundError "react-ts").
Proof. repeat split; discriminate. Qed.

End GeneratorClaims.

Module RegistrationFacts.
Import Str Value Markers StrFacts EngineFacts CodeGenerator Generators GeneratorNames
  GeneratorFacts BlockFacts LoopFacts.

Lemma app_inv_head (x a b : string) : x +:+ a = x +:+ b -> a = b.
Proof.
  induction x as [|c x IH]; [now intros H|].
  rewrite !app_cons. intros H. injection H as H. exact (IH H).
Qed.

Lemma lacks_app_colon (x y : string) : lacks ":" (x +:+ ":" +:+ y) = false.
Proof.
  induction x as [|c x IH]; [reflexivity|].
  rewrite app_cons, lacks_cons, IH. apply andb_false_r.
Qed.

(** The last colon of an engine name separates the configuration from the
    key. *)
Lemma engine_name_inj (n1 n2 k1 k2 : string) :
  lacks ":" k1 = true -> lacks ":" k2 = true ->
  engine_name n1 k1 = engine_name n2 k2 -> n1 = n2 /\ k1 = k2.
Proof.
  unfold engine_name. intros H1 H2. revert n2.
  induction n1 as [|c n1 IH]; intros [|d n2] H.
  - split; [reflexivity|]. now injection H.
  - exfalso. change (String ":" k1 = String d (n2 +:+ ":" +:+ k2)) in H.
    injection H as Hd Hk. rewrite Hk in H1.
    exact (eq_true_false_abs _ H1 (lacks_app_colon n2 k2)).
  - exfalso. change (String c (n1 +:+ ":" +:+ k1) = String ":" k2) in H.
    injection H as Hd Hk. rewrite <- Hk in H2.
    exact (eq_true_false_abs _ H2 (lacks_app_colon n1 k1)).
  - rewrite !app_cons in H. injection H as -> H.
    destruct (IH n2 H) as [-> ->]. now split.
Qed.

Lemma template_keys_lack_colon (key : string) :
  In key template_keys -> lacks ":" key = true.
Proof. intros [<-|[<-|[<-|[<-|[]]]]]; reflexivity. Qed.

Lemma engine_name_key_neq (n k1 k2 : string) :
  k1 <> k2 -> engine_name n k1 <> engine_name n k2.
Proof.
  unfold engine_name. intros Hne H. apply app_inv_head in H. injection H as H.
  contradiction.
Qed.

Lemma fold_helpers_templates (hs : list (string * TemplateEngine.helper))
    (e : TemplateEngine.t) :
  TemplateEngine.templates
    (fold_left (fun e '(hname, h) => TemplateEngine.registerHelper hname h e) hs e) =
  TemplateEngine.templates e.
Proof.
  revert e. induction hs as [|[hname h] hs IH]; intros e; [reflexivity|].
  cbn [fold_left]. now rewrite IH.
Qed.

Lemma fold_helpers_other (hs : list (string * TemplateEngine.helper))
    (e : TemplateEngine.t) (n : string) :
  ~ In n (List.map fst hs) ->
  TemplateEngine.helpers
    (fold_left (fun e '(hname, h) => TemplateEngine.registerHelper hname h e) hs e) !! n =
  TemplateEngine.helpers e !! n.
Proof.
  revert e. induction hs as [|[hname h] hs IH]; intros e Hn; [reflexivity|].
  cbn [fold_left]. rewrite IH by (intros Hin; apply Hn; now right).
  cbn. apply lookup_insert_ne. intros ->. apply Hn. now left.
Qed.

Lemma fold_helpers_last (hs : list (string * TemplateEngine.helper))
    (e : TemplateEngine.t) (n : string) (h : TemplateEngine.helper) :
  ~ In n (List.map fst hs) ->
  TemplateEngine.helpers
    (fold_left (fun e '(hname, h) => TemplateEngine.registerHelper hname h e)
       (hs ++ [(n, h)]) e) !! n = Some h.
Proof.
  intros _. rewrite fold_left_app. cbn. apply lookup_insert_eq.
Qed.

Lemma registerTemplate_engine_templates (config : TemplateConfig) (g : t) :
  TemplateEngine.templates (templateEngine (registerTemplate config g)) =
  <[engine_name (name config) "index" := index (config_templates config)]>
    (<[engine_name (name config) "styles" := styles (config_templates config)]>
       (<[engine_name (name config) "page" := page (config_templates config)]>
          (<[engine_name (name config) "component" := component (config_templates config)]>
             (TemplateEngine.templates (templateEngine g))))).
Proof.
  unfold registerTemplate. cbn [templateEngine].
  destruct (config_helpers config) as [hs|]; [rewrite fold_helpers_templates|];
    reflexivity.
Qed.

Lemma registerTemplate_own (config : TemplateConfig) (g : t) (key tpl : string) :
  In (key, tpl) (template_entries (config_templates config)) ->
  TemplateEngine.templates (templateEngine (registerTemplate config g))
    !! engine_name (name config) key = Some tpl.
Proof.
  rewrite registerTemplate_engine_templates.
  intros [H|[H|[H|[H|[]]]]]; injection H as <- <-.
  - rewrite !lookup_insert_ne by (apply engine_name_key_neq; discriminate).
    apply lookup_insert_eq.
  - rewrite !lookup_insert_ne by (apply engine_name_key_neq; discriminate).
    apply lookup_insert_eq.
  - rewrite !lookup_insert_ne by (apply engine_name_key_neq; discriminate).
    apply lookup_insert_eq.
  - apply lookup_insert_eq.
Qed.

Lemma registerTemplate_other (config : TemplateConfig) (g : t) (other key : string) :
  other <> name config -> lacks ":" key = true ->
  TemplateEngine.templates (templateEngine (registerTemplate config g))
    !! engine_name other key =
  TemplateEngine.templates (templateEngine g) !! engine_name other key.
Proof.
  intros Hne Hkey. rewrite registerTemplate_engine_templates.
  rewrite !lookup_insert_ne; [reflexivity| | | |];
    intros H; apply engine_name_inj in H as [H _]; try reflexivity; try exact Hkey;
    now subst.
Qed.

Lemma get_set {V} (key k : string) (v : V) (m : OrderedMap.t V) :
  OrderedMap.get key (OrderedMap.set k v m) =
  if String.eqb key k then Some v else OrderedMap.get key m.
Proof.
  induction m as [|[k0 w] m IH]; cbn.
  - reflexivity.
  - destruct (String.eqb k k0) eqn:E; cbn.
    + apply String.eqb_eq in E. subst k0. now destruct (String.eqb key k).
    + destruct (String.eqb key k0) eqn:E0; [|exact IH].
      apply String.eqb_eq in E0. subst k0.
      rewrite String.eqb_sym in E. now rewrite E.
Qed.

Lemma has_set {V} (key k : string) (v : V) (m : OrderedMap.t V) :
  OrderedMap.has key m = true -> OrderedMap.has key (OrderedMap.set k v m) = true.
Proof.
  unfold OrderedMap.has. rewrite get_set.
  now destruct (String.eqb key k).
Qed.

Lemma get_head {V} (m : OrderedMap.t V) :
  m <> [] ->
  exists k v, List.head (OrderedMap.keys m) = Some k /\ OrderedMap.get k m = Some v.
Proof.
  destruct m as [|[k v] m]; [contradiction|]. intros _.
  exists k, v. cbn. now rewrite String.eqb_refl.
Qed.

Lemma entries_keys (ts : template_set) (key tpl : string) :
  In (key, tpl) (template_entries ts) -> In key template_keys.
Proof.
  intros [H|[H|[H|[H|[]]]]]; injection H as <- _; cbn; auto.
Qed.

Lemma reachable_consistent (g : t) : reachable g -> consistent g.
Proof.
  induction 1 as [|config g Hg [IHa IHc]|n g g' Hg [IHa IHc] Hact].
  - split; [discriminate|]. intros n config H. discriminate H.
  - split.
    + intros n Hn. apply has_set. now apply IHa.
    + intros n cfg Hget. cbn [templates registerTemplate] in Hget.
      rewrite get_set in Hget.
      destruct (String.eqb_spec n (name config)) as [->|Hne].
      * injection Hget as <-. split; [reflexivity|].
        intros key tpl. apply registerTemplate_own.
      * destruct (IHc n cfg Hget) as [Hname Hall]. split; [exact Hname|].
        intros key tpl Hin.
        rewrite registerTemplate_other;
          [now apply Hall | exact Hne |].
        apply template_keys_lack_colon. now apply entries_keys in Hin.
  - unfold setActiveTemplate in Hact.
    destruct (OrderedMap.has n (templates g)) eqn:Hhas; [|discriminate].
    injection Hact as <-. split.
    + cbn. intros m Hm. now injection Hm as <-.
    + exact IHc.
Qed.

(** The configuration that [generateComponent] and [generatePage] work
    with is a registered one. *)
Lemma reachable_selected (g : t) :
  reachable g -> templates g <> [] ->
  exists n config,
    selected g = Some n /\ OrderedMap.get n (templates g) = Some config /\
    name config = n /\
    forall key tpl,
      In (key, tpl) (template_entries (config_templates config)) ->
      TemplateEngine.templates (templateEngine g) !! engine_name n key = Some tpl.
Proof.
  intros Hg Hne. destruct (reachable_consistent g Hg) as [Ha Hc].
  assert (Hsel : exists n config,
             selected g = Some n /\ OrderedMap.get n (templates g) = Some config).
  { unfold selected, or_else.
    destruct (get_head (templates g) Hne) as (k & v & Hk & Hv).
    destruct (activeTemplate g) as [a|] eqn:Hact.
    - destruct (String.eqb a "").
      + exists k, v. now split.
      + specialize (Ha a eq_refl). unfold OrderedMap.has in Ha.
        destruct (OrderedMap.get a (templates g)) as [cfg|] eqn:Hcfg; [|discriminate].
        exists a, cfg. now split.
    - exists k, v. now split. }
  destruct Hsel as (n & config & Hsel & Hget).
  destruct (Hc n config Hget) as [Hname Hall].
  exists n, config. auto.
Qed.

Section Generate.
Variable analyzeComponent : ComponentSchema -> TemplateEngine.context.
Variable generateComponentName : ComponentSchema -> string.

(** [generateComponent] once the configuration is known and the three
    templates are rendered. *)
Lemma generateComponent_renders (g : t) (c : ComponentSchema) (o : GenerateOptions)
    (n : string) (config : TemplateConfig) (mainCode styleCode indexCode : string) :
  let ctx := component_context analyzeComponent generateComponentName c o in
  let the_name := component_name generateComponentName c o in
  selected g = Some n -> OrderedMap.get n (templates g) = Some config ->
  TemplateEngine.render (templateEngine g) (engine_name n "component") ctx = Ok mainCode ->
  TemplateEngine.render (templateEngine g) (engine_name n "styles") ctx = Ok styleCode ->
  TemplateEngine.render (templateEngine g) (engine_name n "index") ctx = Ok indexCode ->
  generateComponent analyzeComponent generateComponentName g c o =
  Ok {| main := {| content := mainCode;
                   filename := the_name +:+ "." +:+ main_extension config |};
        code_styles := {| content := styleCode;
                          filename := the_name +:+
                            match isModule o with
                            | Some true => ".module.css"
                            | _ => ".css"
                            end |};
        code_index := {| content := indexCode;
                         filename := "index." +:+ index_extension config |} |}.
Proof.
  intros ctx the_name Hsel Hget Hmain Hstyle Hindex.
  unfold generateComponent. fold (selected g). rewrite Hsel, Hget.
  cbn [interpolate]. fold (component_name generateComponentName c o).
  fold (component_context analyzeComponent generateComponentName c o). fold ctx.
  change (n +:+ ":component") with (engine_name n "component").
  change (n +:+ ":styles") with (engine_name n "styles").
  change (n +:+ ":index") with (engine_name n "index").
  rewrite Hmain, bind_Ok, Hstyle, bind_Ok, Hindex, bind_Ok.
  unfold main_extension, index_extension, the_name.
  destruct (config_language config), (isModule o) as [[]|]; reflexivity.
Qed.

Lemma component_context_name (c : ComponentSchema) (o : GenerateOptions) :
  assoc "componentName" (component_context analyzeComponent generateComponentName c o) =
  Some (VStr (component_name generateComponentName c o)).
Proof.
  unfold component_context. rewrite assoc_set_other by discriminate. apply assoc_set_same.
Qed.
End Generate.

End RegistrationFacts.

Module GeneratorExtras.
Import Str Value Markers StrFacts EngineFacts CodeGenerator Generators GeneratorNames
  GeneratorFacts BlockFacts LoopFacts RegistrationFacts CodeGeneratorPages.

(** X12.  [registerTemplate] makes the four templates of a configuration
    available to the engine under the names [name:key]; it leaves the
    engine's templates of every configuration of another name as they
    were (the name of a configuration may hold colons), stores the
    configuration under its name without touching the others, and does not
    change the active template. *)
Theorem registerTemplate_engine_names (config : TemplateConfig) (g : t) :
  let g' := registerTemplate config g in
  (forall key tpl,
     In (key, tpl) (template_entries (config_templates config)) ->
     TemplateEngine.templates (templateEngine g') !! engine_name (name config) key
       = Some tpl) /\
  (forall other key,
     other <> name config -> In key template_keys ->
     TemplateEngine.templates (templateEngine g') !! engine_name other key =
     TemplateEngine.templates (templateEngine g) !! engine_name other key) /\
  OrderedMap.get (name config) (templates g') = Some config /\
  (forall other,
     other <> name config ->
     OrderedMap.get other (templates g') = OrderedMap.get other (templates g)) /\
  activeTemplate g' = activeTemplate g.
Proof.
  intros g'. split; [|split; [|split; [|split]]].
  - intros key tpl. apply registerTemplate_own.
  - intros other key Hne Hkey. apply registerTemplate_other; [exact Hne|].
    now apply template_keys_lack_colon.
  - unfold g'. cbn [templates registerTemplate]. now rewrite get_set, String.eqb_refl.
  - intros other Hne. unfold g'. cbn [templates registerTemplate].
    rewrite get_set. apply String.eqb_neq in Hne. now rewrite Hne.
  - reflexivity.
Qed.

Lemma registerTemplate_engine_names_witness :
  TemplateEngine.templates
    (templateEngine (registerTemplate (sample_config "B")
                       (registerTemplate (sample_config "A") new)))
    !! engine_name "A" "index" = Some "export {{componentName}};".
Proof.
  transitivity
    (TemplateEngine.templates (templateEngine (registerTemplate (sample_config "A") new))
       !! engine_name "A" "index").
  - apply (registerTemplate_engine_names (sample_config "B")
             (registerTemplate (sample_config "A") new)).
    + discriminate.
    + cbn. auto.
  - apply (registerTemplate_engine_names (sample_config "A") new).
    cbn. auto.
Defined.

(** X13.  [registerTemplate] registers the helpers of a configuration
    with the one engine that all configurations share: afterwards every
    helper name of the configuration is bound to the helper of that
    configuration (to the last one of the list; to each one when the names
    are distinct), whatever an earlier configuration had registered under
    that name, and the helpers of all other names are as before.  A
    configuration without helpers changes none. *)
Theorem registerTemplate_helpers (config : TemplateConfig) (g : t) :
  let g' := registerTemplate config g in
  (config_helpers config = None ->
   TemplateEngine.helpers (templateEngine g') = TemplateEngine.helpers (templateEngine g)) /\
  (forall hs,
     config_helpers config = Some hs ->
     (forall n, ~ In n (List.map fst hs) ->
                TemplateEngine.helpers (templateEngine g') !! n =
                TemplateEngine.helpers (templateEngine g) !! n) /\
     (forall before n h,
        hs = (before ++ [(n, h)])%list ->
        TemplateEngine.helpers (templateEngine g') !! n = Some h) /\
     (NoDup (List.map fst hs) ->
      forall n h, In (n, h) hs ->
                  TemplateEngine.helpers (templateEngine g') !! n = Some h)).
Proof.
  intros g'. unfold g', registerTemplate. cbn [templateEngine]. split.
  - now intros ->.
  - intros hs ->. split; [|split].
    + intros n Hn. now rewrite fold_helpers_other.
    + intros before n h ->. rewrite fold_left_app. cbn. apply lookup_insert_eq.
    + set (e := fold_left _ (template_entries _) _). clearbody e.
      revert e. induction hs as [|[n0 h0] hs IH]; intros e Hnd n h Hin; [destruct Hin|].
      cbn [List.map fst] in Hnd. apply NoDup_cons in Hnd as [Hn0 Hnd].
      cbn [fold_left]. destruct Hin as [Heq|Hin].
      * injection Heq as -> ->.
        rewrite fold_helpers_other by (now rewrite <- list_elem_of_In).
        cbn. apply lookup_insert_eq.
      * now apply IH.
Qed.

Lemma registerTemplate_helpers_witness :
  TemplateEngine.helpers
    (templateEngine
       (registerTemplate (with_helpers ReactTemplate.helpers (sample_config "A")) new))
    !! "kebabCase" = Some (ReactTemplate.on_string ReactTemplate.kebabCase).
Proof.
  refine (proj2 (proj2 (proj2 (registerTemplate_helpers
            (with_helpers ReactTemplate.helpers (sample_config "A")) new)
            ReactTemplate.helpers eq_refl)) _ "kebabCase" _ _).
  - apply (bool_decide_unpack _). vm_compute. reflexivity.
  - cbn. auto.
Defined.

(** X14.  On every generator that the public methods build, the active
    template is the name of a registered configuration.
    [setActiveTemplate] succeeds for the name of a registered configuration
    and then changes the active name only; for any other name it throws
    the template-not-found error with that name.  Right after
    [registerTemplate(config)] it succeeds for the name of [config], and
    the configuration is then the selected one unless its name is
    empty. *)
Theorem setActiveTemplate_registered (g : t) (n : string) :
  reachable g ->
  (forall a, activeTemplate g = Some a ->
             exists config, OrderedMap.get a (templates g) = Some config /\ name config = a) /\
  (OrderedMap.has n (templates g) = true ->
   exists g', setActiveTemplate n g = Ok g' /\ activeTemplate g' = Some n /\
              templates g' = templates g /\ templateEngine g' = templateEngine g) /\
  (OrderedMap.has n (templates g) = false ->
   setActiveTemplate n g = Err (TemplateNotFoundError n)) /\
  (forall config,
     exists g', setActiveTemplate (name config) (registerTemplate config g) = Ok g' /\
                (name config <> "" -> selected g' = Some (name config))).
Proof.
  intros Hg. destruct (reachable_consistent g Hg) as [Ha Hc].
  split; [|split; [|split]].
  - intros a Hact. specialize (Ha a Hact). unfold OrderedMap.has in Ha.
    destruct (OrderedMap.get a (templates g)) as [config|] eqn:Hget; [|discriminate].
    exists config. split; [reflexivity|]. now destruct (Hc a config Hget).
  - intros Hhas. unfold setActiveTemplate. rewrite Hhas. eexists. repeat split.
  - intros Hhas. unfold setActiveTemplate. now rewrite Hhas.
  - intros config. unfold setActiveTemplate, OrderedMap.has.
    cbn [templates registerTemplate]. rewrite get_set, String.eqb_refl.
    eexists. split; [reflexivity|].
    intros Hne. unfold selected, or_else. cbn [activeTemplate].
    apply String.eqb_neq in Hne. now rewrite Hne.
Qed.

Lemma setActiveTemplate_registered_witness :
  setActiveTemplate "Vue" (registerTemplate (sample_config "A") new) =
  Err (TemplateNotFoundError "Vue").
Proof.
  apply (setActiveTemplate_registered (registerTemplate (sample_config "A") new) "Vue").
  - apply reachable_register, reachable_new.
  - reflexivity.
Defined.

Section Generate.
Variable analyzeComponent : ComponentSchema -> TemplateEngine.context.
Variable generateComponentName : ComponentSchema -> string.
Variable analyzePage : list ComponentSchema -> TemplateEngine.context.

(** X15.  On every generator that the public methods build and that holds
    a configuration, [generateComponent] finds its configuration (the
    non-null assertion holds): the active one when a name that is not
    empty is active, the first registered one otherwise.  It renders the
    component, styles and index templates of that configuration, in this
    order and in one context, in which [componentName] is the name from
    the options or else the generated one, and throws what the first
    failing rendering throws.  When the three render, it returns three
    files with the rendered texts: the main file is [<name>.tsx] for a
    TypeScript configuration and [<name>.jsx] otherwise, the style file is
    [<name>.module.css] when the option [isModule] is true and
    [<name>.css] otherwise, and the index file is [index.ts] or
    [index.js]. *)
Theorem generateComponent_files (g : t) (c : ComponentSchema) (o : GenerateOptions) :
  reachable g -> templates g <> [] ->
  exists n config,
    OrderedMap.get n (templates g) = Some config /\
    name config = n /\
    (forall a, activeTemplate g = Some a -> a <> "" -> n = a) /\
    (activeTemplate g = None \/ activeTemplate g = Some "" ->
     List.head (OrderedMap.keys (templates g)) = Some n) /\
    TemplateEngine.templates (templateEngine g) !! (n +:+ ":component")
      = Some (component (config_templates config)) /\
    TemplateEngine.templates (templateEngine g) !! (n +:+ ":styles")
      = Some (styles (config_templates config)) /\
    TemplateEngine.templates (templateEngine g) !! (n +:+ ":index")
      = Some (index (config_templates config)) /\
    let ctx := component_context analyzeComponent generateComponentName c o in
    let the_name := component_name generateComponentName c o in
    assoc "componentName" ctx = Some (VStr the_name) /\
    generateComponent analyzeComponent generateComponentName g c o =
    (mainCode ← TemplateEngine.render (templateEngine g) (n +:+ ":component") ctx;
     styleCode ← TemplateEngine.render (templateEngine g) (n +:+ ":styles") ctx;
     indexCode ← TemplateEngine.render (templateEngine g) (n +:+ ":index") ctx;
     Ok {| main := {| content := mainCode;
                      filename := the_name +:+ "." +:+
                        match config_language config with
                        | typescript => "tsx"
                        | javascript => "jsx"
                        end |};
           code_styles := {| content := styleCode;
                             filename := the_name +:+
                               match isModule o with
                               | Some true => ".module.css"
                               | _ => ".css"
                               end |};
           code_index := {| content := indexCode;
                            filename := "index." +:+
                              match config_language config with
                              | typescript => "ts"
                              | javascript => "js"
                              end |} |}).
Proof.
  intros Hg Hne.
  destruct (reachable_selected g Hg Hne) as (n & config & Hsel & Hget & Hname & Hall).
  exists n, config. split; [exact Hget|]. split; [exact Hname|].
  split; [|split].
  - intros a Hact Ha. unfold selected, or_else in Hsel. rewrite Hact in Hsel.
    apply String.eqb_neq in Ha. rewrite Ha in Hsel. now injection Hsel as <-.
  - unfold selected, or_else in Hsel. intros [Hact|Hact]; rewrite Hact in Hsel;
      exact Hsel.
  - split; [exact (Hall "component" _ (or_introl eq_refl))|].
    split; [exact (Hall "styles" _ (or_intror (or_intror (or_introl eq_refl))))|].
    split; [exact (Hall "index" _
                     (or_intror (or_intror (or_intror (or_introl eq_refl)))))|].
    cbv zeta. split; [apply component_context_name|].
    unfold generateComponent. fold (selected g). rewrite Hsel, Hget.
    cbn [interpolate]. fold (component_name generateComponentName c o).
    fold (component_context analyzeComponent generateComponentName c o).
    destruct (TemplateEngine.render (templateEngine g) (n +:+ ":component") _)
      as [mainCode|err]; [|reflexivity].
    destruct (TemplateEngine.render (templateEngine g) (n +:+ ":styles") _)
      as [styleCode|err]; [|reflexivity].
    destruct (TemplateEngine.render (templateEngine g) (n +:+ ":index") _)
      as [indexCode|err]; [|reflexivity].
    rewrite !bind_Ok.
    destruct (config_language config), (isModule o) as [[]|]; reflexivity.
Qed.

(** X16.  [generatePage] on a generator that the public methods build:
    without any configuration it throws the template-not-found error for
    "undefined:page".  With one, it renders the page template of the
    configuration in use, in a context where [pageName] is the option or
    "Default" and [pageTitle] is the title option, else the page name
    option, else "Default Page", and throws what the rendering throws;
    when the template renders, it returns one file with the rendered text,
    named [<pageName>Page.tsx] whatever the language of the configuration
    is. *)
Theorem generatePage_file (g : t) (components : list ComponentSchema)
    (o : GeneratePageOptions) :
  reachable g ->
  (templates g = [] ->
   generatePage analyzePage g components o = Err (TemplateNotFoundError "undefined:page")) /\
  (templates g <> [] ->
   exists n config,
     selected g = Some n /\ OrderedMap.get n (templates g) = Some config /\
     TemplateEngine.templates (templateEngine g) !! (n +:+ ":page")
       = Some (page (config_templates config)) /\
     let ctx := page_context analyzePage components o in
     assoc "pageName" ctx = Some (VStr (page_name o)) /\
     assoc "pageTitle" ctx = Some (VStr (page_title o)) /\
     generatePage analyzePage g components o =
     (pageCode ← TemplateEngine.render (templateEngine g) (n +:+ ":page") ctx;
      Ok {| page_main := {| content := pageCode;
                            filename := page_name o +:+ "Page.tsx" |} |})).
Proof.
  intros Hg. split.
  - intros Hnil. rewrite (reachable_without_configuration g Hg Hnil). reflexivity.
  - intros Hne.
    destruct (reachable_selected g Hg Hne) as (n & config & Hsel & Hget & Hname & Hall).
    exists n, config. split; [exact Hsel|]. split; [exact Hget|].
    split; [exact (Hall "page" _ (or_intror (or_introl eq_refl)))|].
    cbv zeta. split; [|split].
    + unfold page_context. rewrite !assoc_set_other by discriminate.
      apply assoc_set_same.
    + unfold page_context. rewrite assoc_set_other by discriminate.
      apply assoc_set_same.
    + unfold generatePage. fold (selected g). rewrite Hsel. reflexivity.
Qed.
End Generate.

Lemma generateComponent_files_witness :
  generateComponent (fun _ => []) type
    (activate "B"
       (registerTemplate (sample_config "B") (registerTemplate (sample_config "A") new)))
    sample_component
    {| componentName := Some "Card"; description := None; isModule := Some true |}
  = Ok {| main := {| content := "/* B */ const Card = 1;"; filename := "Card.tsx" |};
          code_styles := {| content := "/* css */"; filename := "Card.module.css" |};
          code_index := {| content := "export Card;"; filename := "index.ts" |} |} /\
  generateComponent (fun _ => []) type (registerTemplate (throwing_config "J") new)
    sample_component no_options = Err TypeError.
Proof.
  split.
  - destruct (generateComponent_files (fun _ => []) type
                (activate "B"
                   (registerTemplate (sample_config "B")
                      (registerTemplate (sample_config "A") new)))
                sample_component
                {| componentName := Some "Card"; description := None;
                   isModule := Some true |}
                (reachable_activate "B"
                   (registerTemplate (sample_config "B")
                      (registerTemplate (sample_config "A") new))
                   (activate "B"
                      (registerTemplate (sample_config "B")
                         (registerTemplate (sample_config "A") new)))
                   (reachable_register _ _ (reachable_register _ _ reachable_new))
                   eq_refl)
                ltac:(discriminate))
      as (n & config & Hget & Hname & Hact & _ & _ & _ & _ & _ & Hgen).
    rewrite Hgen. clear Hgen.
    rewrite (Hact "B" eq_refl ltac:(discriminate)) in Hget |- *.
    vm_compute in Hget. injection Hget as <-.
    vm_compute. reflexivity.
  - destruct (generateComponent_files (fun _ => []) type
                (registerTemplate (throwing_config "J") new)
                sample_component no_options
                (reachable_register _ _ reachable_new) ltac:(discriminate))
      as (n & config & Hget & Hname & _ & Hfirst & _ & _ & _ & _ & Hgen).
    rewrite Hgen. clear Hgen.
    specialize (Hfirst (or_introl eq_refl)). vm_compute in Hfirst.
    injection Hfirst as <-.
    vm_compute. reflexivity.
Defined.

Lemma generatePage_file_witness :
  generatePage (fun _ => []) (registerTemplate (sample_config "A") new) [sample_component]
    {| pageName := Some "Home"; pageTitle := None; page_description := None |}
  = Ok {| page_main := {| content := "<h1>Home</h1>"; filename := "HomePage.tsx" |} |} /\
  generatePage (fun _ => []) new [sample_component] no_page_options =
    Err (TemplateNotFoundError "undefined:page").
Proof.
  split.
  - destruct (proj2 (generatePage_file (fun _ => [])
                       (registerTemplate (sample_config "A") new) [sample_component]
                       {| pageName := Some "Home"; pageTitle := None;
                          page_description := None |}
                       (reachable_register _ _ reachable_new))
                ltac:(discriminate))
      as (n & config & Hsel & _ & _ & _ & _ & Hgen).
    rewrite Hgen. clear Hgen.
    vm_compute in Hsel. injection Hsel as <-.
    vm_compute. reflexivity.
  - exact (proj1 (generatePage_file (fun _ => []) new [sample_component]
                    no_page_options reachable_new) eq_refl).
Defined.

End GeneratorExtras.

Module CodeTemplateFacts.
Import Str Regex Value TemplateEngine Markers StrFacts RegexFacts VariableRegexFacts
  EngineFacts PathFacts MatcherFacts BlockFacts LoopFacts CodeTemplates.

Lemma includes_lacks_app (x y : string) :
  lacks "{" x = true -> starts_with "{" y = false ->
  includes "{{" (x +:+ y) = includes "{{" y.
Proof.
  intros Hx Hy. induction x as [|c x IH]; [reflexivity|].
  rewrite lacks_cons in Hx. apply andb_prop in Hx as [Hc Hx].
  apply negb_true_iff in Hc.
  rewrite app_cons, includes_cons. cbn [starts_with]. rewrite Hc. cbn [andb orb].
  exact (IH Hx).
Qed.

Lemma includes_code_text_app (t y : string) :
  code_text t = true -> includes "{{" (t +:+ y) = includes "{{" y.
Proof.
  unfold code_text. induction t as [|c t IH]; intros Ht; [reflexivity|].
  apply andb_prop in Ht as [Hinc Hlast].
  apply negb_true_iff in Hinc, Hlast.
  rewrite includes_cons in Hinc. apply orb_false_elim in Hinc as [Hc Hinc].
  rewrite app_cons, includes_cons.
  assert (Hhere : starts_with "{{" (String c (t +:+ y)) = false).
  { destruct t as [|d t].
    - cbn [last_char] in Hlast. cbn [starts_with].
      destruct (Ascii.eqb "{" c) eqn:Hb; [|reflexivity].
      apply Ascii.eqb_eq in Hb. subst c. discriminate Hlast.
    - rewrite app_cons. exact Hc. }
  rewrite Hhere. cbn [orb]. apply IH.
  rewrite Hinc. cbn [negb andb]. apply negb_true_iff.
  destruct t as [|d t]; [reflexivity | exact Hlast].
Qed.

Lemma index_code_no_pair (n : string) :
  lacks "{" n = true -> includes "{{" (index_code n) = false.
Proof.
  intros Hn. unfold index_code.
  rewrite includes_code_text_app by reflexivity.
  rewrite includes_lacks_app by (exact Hn || reflexivity).
  rewrite includes_code_text_app by reflexivity.
  rewrite includes_lacks_app by (exact Hn || reflexivity).
  reflexivity.
Qed.

Lemma expand_index_segments (ctx : context) (n : string) :
  assoc "componentName" ctx = Some (VStr n) ->
  expand ctx index_segments = Ok (index_code n).
Proof.
  intros Hn. unfold index_segments, index_code. cbn [expand substitute].
  change (marker_path "componentName") with "componentName".
  rewrite (resolve_path_key ctx "componentName" (VStr n) eq_refl Hn).
  unfold shown. cbn [is_undefined to_string]. rewrite !bind_Ok.
  now rewrite app_nil_r.
Qed.

End CodeTemplateFacts.

Module ReactTemplateExtras.
Import Str Value Markers StrFacts EngineFacts CodeGenerator Generators GeneratorNames
  GeneratorFacts RegistrationFacts CodeTemplates CodeTemplateFacts.

Section Generate.
Variable analyzeComponent : ComponentSchema -> TemplateEngine.context.
Variable generateComponentName : ComponentSchema -> string.

(** X24.  With the React TypeScript template of the source as the
    configuration in use, and for a component whose name holds no opening
    brace, the index template renders, whatever the analysis of the
    component gives, to the line that re-exports the default export of the
    component under its name, between two line breaks.  When the component
    and styles templates render too, [generateComponent] returns the three
    texts in the files [<name>.tsx], [<name>.css] ([<name>.module.css]
    when the option [isModule] is true) and [index.ts]. *)
Theorem generateComponent_react_index (g : t) (c : ComponentSchema)
    (o : GenerateOptions) (n : string) :
  reachable g -> selected g = Some n ->
  OrderedMap.get n (templates g) = Some ReactTemplate.reactTsTemplate ->
  lacks "{" (component_name generateComponentName c o) = true ->
  let ctx := component_context analyzeComponent generateComponentName c o in
  let the_name := component_name generateComponentName c o in
  TemplateEngine.render (templateEngine g) (n +:+ ":index") ctx = Ok (index_code the_name) /\
  (forall mainCode styleCode,
      TemplateEngine.render (templateEngine g) (n +:+ ":component") ctx = Ok mainCode ->
      TemplateEngine.render (templateEngine g) (n +:+ ":styles") ctx = Ok styleCode ->
      generateComponent analyzeComponent generateComponentName g c o =
      Ok {| main := {| content := mainCode; filename := the_name +:+ ".tsx" |};
            code_styles := {| content := styleCode;
                              filename := the_name +:+
                                match isModule o with
                                | Some true => ".module.css"
                                | _ => ".css"
                                end |};
            code_index := {| content := index_code the_name;
                             filename := "index.ts" |} |}).
Proof.
  intros Hg Hsel Hget Hname ctx the_name.
  destruct (reachable_consistent g Hg) as [_ Hc].
  destruct (Hc n _ Hget) as [_ Hall].
  assert (Hindex : TemplateEngine.render (templateEngine g) (engine_name n "index") ctx =
                   Ok (index_code the_name)).
  { apply (render_code_segments _ _ _ index_segments).
    - reflexivity.
    - exact (Hall "index" _ (or_intror (or_intror (or_intror (or_introl eq_refl))))).
    - discriminate.
    - exact (expand_index_segments ctx _ (component_context_name _ _ c o)).
    - now apply index_code_no_pair. }
  split; [exact Hindex|].
  intros mainCode styleCode Hmain Hstyle.
  exact (generateComponent_renders analyzeComponent generateComponentName g c o n
           ReactTemplate.reactTsTemplate mainCode styleCode _ Hsel Hget Hmain Hstyle Hindex).
Qed.
End Generate.

Lemma generateComponent_react_index_witness :
  match
    generateComponent (fun _ => []) type (registerTemplate ReactTemplate.reactTsTemplate new)
      sample_component no_options
  with
  | Ok code =>
      content (code_index code) = index_code "div" /\
      filename (code_index code) = "index.ts" /\
      filename (main code) = "div.tsx" /\
      filename (code_styles code) = "div.css"
  | Err _ => False
  end.
Proof.
  destruct (generateComponent_react_index (fun _ => []) type
              (registerTemplate ReactTemplate.reactTsTemplate new) sample_component
              no_options "React TypeScript"
              (reachable_register _ _ reachable_new) eq_refl eq_refl eq_refl)
    as [_ Hgen].
  destruct (TemplateEngine.render
              (templateEngine (registerTemplate ReactTemplate.reactTsTemplate new))
              ("React TypeScript" +:+ ":component")
              (component_context (fun _ => []) type sample_component no_options))
    as [mainCode|err] eqn:Hmain; [|vm_compute in Hmain; discriminate Hmain].
  destruct (TemplateEngine.render
              (templateEngine (registerTemplate ReactTemplate.reactTsTemplate new))
              ("React TypeScript" +:+ ":styles")
              (component_context (fun _ => []) type sample_component no_options))
    as [styleCode|err] eqn:Hstyle; [|vm_compute in Hstyle; discriminate Hstyle].
  rewrite (Hgen mainCode styleCode eq_refl eq_refl).
  repeat split.
Defined.

End ReactTemplateExtras.

Module VersionFacts.
Import VersionManagementService.
Section Service.
Context {Schema Other : Type}.
Implicit Types (v : Version Schema) (p : Project Schema Other).

Lemma find_absent (versionId : string) (history : list (Version Schema)) :
  (forall v, In v history -> version_id v <> versionId) ->
  List.find (fun v => String.eqb (version_id v) versionId) history = None.
Proof.
  induction history as [|u history IH]; intros H; [reflexivity|].
  cbn [List.find]. specialize (H u (or_introl eq_refl)) as Hu.
  apply String.eqb_neq in Hu. rewrite Hu. apply IH.
  intros v Hv. apply H. now right.
Qed.

Lemma find_first (versionId : string) (before after : list (Version Schema)) v :
  version_id v = versionId ->
  (forall u, In u before -> version_id u <> versionId) ->
  List.find (fun v => String.eqb (version_id v) versionId) (before ++ v :: after)%list
  = Some v.
Proof.
  intros Hv. induction before as [|u before IH]; intros H.
  - cbn. apply String.eqb_eq in Hv. now rewrite Hv.
  - cbn [app List.find]. specialize (H u (or_introl eq_refl)) as Hu.
    apply String.eqb_neq in Hu. rewrite Hu. apply IH.
    intros w Hw. apply H. now right.
Qed.

End Service.
End VersionFacts.

Module VersionExtras.
Import VersionManagementService VersionFacts.
Section Service.
Context {Schema Other : Type}.
Implicit Types (v : Version Schema) (p : Project Schema Other).

(** X21.  [restoreVersion] throws exactly when no version of the project
    has the given identifier.  Otherwise the schema of the project it
    returns is that of the first version with this identifier, the
    identifier and the other properties of the project are kept, and the
    history is the old one, unchanged, followed by one new version that
    holds the schema the project had before, the fresh identifier, and the
    number of versions as its label. *)
Theorem restoreVersion_history (env : environment) p (versionId : string) :
  ((forall v, In v (versions p) -> version_id v <> versionId) <->
   restoreVersion env p versionId = VersionNotFoundError versionId) /\
  (forall before v after,
     versions p = (before ++ v :: after)%list ->
     version_id v = versionId ->
     (forall u, In u before -> version_id u <> versionId) ->
     exists snapshot,
       restoreVersion env p versionId =
         Restored {| id := id p; schema := version_schema v;
                     versions := (versions p ++ [snapshot])%list; other := other p |} /\
       version_schema snapshot = schema p /\
       version_id snapshot = generateUUID env /\
       projectId snapshot = id p /\
       label snapshot = "版本 " +:+ count_to_string (List.length (versions p) + 1)).
Proof.
  split.
  - split.
    + intros H. unfold restoreVersion. now rewrite find_absent.
    + unfold restoreVersion. intros H v Hv Hid.
      destruct (List.find _ (versions p)) as [u|] eqn:Hfind; [discriminate|].
      apply (find_none _ _ Hfind) in Hv. apply String.eqb_neq in Hv. contradiction.
  - intros before v after Hhist Hv Hbefore.
    exists (createVersion env p). unfold restoreVersion.
    rewrite Hhist at 1. rewrite (find_first versionId before after v Hv Hbefore).
    repeat split.
Qed.

(** X22.  A restore can be undone: when the identifier of the version that
    [restoreVersion] creates is not that of an older version, restoring
    this version in the returned project gives back the schema that the
    project had before the first restore; the history has grown by two
    versions. *)
Theorem restoreVersion_undo (env1 env2 : environment) p (versionId : string) p' :
  restoreVersion env1 p versionId = Restored p' ->
  (forall v, In v (versions p) -> version_id v <> generateUUID env1) ->
  exists p'',
    restoreVersion env2 p' (generateUUID env1) = Restored p'' /\
    schema p'' = schema p /\ id p'' = id p /\ other p'' = other p /\
    List.length (versions p'') = (List.length (versions p) + 2)%nat.
Proof.
  unfold restoreVersion at 1. intros Hres Hfresh.
  destruct (List.find _ (versions p)) as [u|]; [|discriminate].
  injection Hres as <-. unfold restoreVersion. cbn [versions].
  rewrite (find_first (generateUUID env1) (versions p) [] (createVersion env1 p) eq_refl Hfresh).
  eexists. split; [reflexivity|]. cbn [schema id other versions].
  repeat split. rewrite !length_app. cbn. lia.
Qed.

End Service.

Lemma restoreVersion_history_witness :
  exists snapshot,
    restoreVersion {| generateUUID := "c"; now := 7; currentUser := "ann" |}
      {| id := "p"; schema := "now";
         versions := [ {| version_id := "a"; projectId := "p"; timestamp := 1;
                          version_schema := "first"; label := "v1"; createdBy := "ann" |} ];
         other := tt |} "a" =
    Restored {| id := "p"; schema := "first";
                versions := [ {| version_id := "a"; projectId := "p"; timestamp := 1;
                                 version_schema := "first"; label := "v1";
                                 createdBy := "ann" |}; snapshot ];
                other := tt |} /\
    version_schema snapshot = "now" /\
    version_id snapshot = "c" /\
    projectId snapshot = "p" /\
    label snapshot = "版本 2".
Proof.
  refine (proj2 (restoreVersion_history
            {| generateUUID := "c"; now := 7; currentUser := "ann" |}
            {| id := "p"; schema := "now";
               versions := [ {| version_id := "a"; projectId := "p"; timestamp := 1;
                                version_schema := "first"; label := "v1";
                                createdBy := "ann" |} ];
               other := tt |} "a") [] _ [] eq_refl eq_refl _).
  intros u [].
Defined.

Lemma restoreVersion_undo_witness :
  exists p'',
    restoreVersion {| generateUUID := "d"; now := 8; currentUser := "ann" |}
      {| id := "p"; schema := "first";
         versions := [ {| version_id := "a"; projectId := "p"; timestamp := 1;
                          version_schema := "first"; label := "v1"; createdBy := "ann" |};
                       createVersion {| generateUUID := "c"; now := 7; currentUser := "ann" |}
                         {| id := "p"; schema := "now";
                            versions := [ {| version_id := "a"; projectId := "p";
                                             timestamp := 1; version_schema := "first";
                                             label := "v1"; createdBy := "ann" |} ];
                            other := tt |} ];
         other := tt |} "c" = Restored p'' /\
    schema p'' = "now" /\ id p'' = "p" /\ other p'' = tt /\
    List.length (versions p'') = 3%nat.
Proof.
  refine (restoreVersion_undo
            {| generateUUID := "c"; now := 7; currentUser := "ann" |}
            {| generateUUID := "d"; now := 8; currentUser := "ann" |}
            {| id := "p"; schema := "now";
               versions := [ {| version_id := "a"; projectId := "p"; timestamp := 1;
                                version_schema := "first"; label := "v1";
                                createdBy := "ann" |} ];
               other := tt |} "a" _ eq_refl _).
  intros v [<-|[]]. discriminate.
Defined.

End VersionExtras.
